(** * Embeditor: the text buffer, the highlighter and the viewport of Editor.cc

    A shallow embedding of [Editor.cc] / [Editor.h].

    - C++ [int] values are [Z]; row and column numbers stay far below
      2^31, so no wrap-around is written out, but for the counter of
      the page keys, which a negative [_screenRows] takes through it.
    - [std::string] is a list of bytes ([list ascii]); it may hold NUL bytes.
    - [std::vector<T>] is a [list T]; [v.at(i)] is [at_ v i], which is
      [None] where the C++ throws [std::out_of_range] (nothing in the
      program catches it, so the process ends there).
    - A [Row&] that refers to an element of [_rows] is the position of
      that element.  [_insertNewLine] holds one across an insertion:
      it is given the capacity of the vector, and follows both the case
      in which the elements stay where they are and the case in which
      the vector moves to new storage.
    - Member functions are functions [Editor -> option Editor].  [None]
      is an uncaught exception, a division by a zero [_tabStop], a
      pointer taken outside a string, or a recursion of [_updateSyntax]
      deeper than the budget [depth] that the functions are given.
    - Terminal and file input are arguments: the keys that [_readKey]
      returns are a [list Z], the bytes that [read] delivers are a list
      of read results, the content of the opened file is a list of
      bytes, and [_save] is given what [fopen] and [fwrite] do and
      returns the bytes that reach the file.  The status message and
      its clock are not modelled. *)

From Stdlib Require Import ZArith List Ascii String Bool Lia DecimalString.
Import ListNotations.
Local Open Scope Z_scope.

(** ** Bytes and strings *)

Definition bytes := list ascii.

Definition B (s : string) : bytes := list_ascii_of_string s.

Definition NUL : ascii := "000"%char.
Definition TAB : ascii := "009"%char.
Definition LF : ascii := "010"%char.
Definition CR : ascii := "013"%char.
Definition SPACE : ascii := " "%char.
Definition DQUOTE : ascii := "034"%char.
Definition SQUOTE : ascii := "'"%char.
Definition BACKSLASH : ascii := "\"%char.
Definition BAR : ascii := "|"%char.
Definition DOT : ascii := "."%char.

Fixpoint bytes_eqb (a b : bytes) : bool :=
  match a, b with
  | [], [] => true
  | x :: a', y :: b' => Ascii.eqb x y && bytes_eqb a' b'
  | _, _ => false
  end.

Definition len {A} (l : list A) : Z := Z.of_nat (List.length l).

(** [v.at(i)]: the element, or [None] for the [std::out_of_range] throw.
    A negative [int] converts to a huge [size_t], hence is out of range. *)
Definition at_ {A} (v : list A) (i : Z) : option A :=
  if i <? 0 then None else nth_error v (Z.to_nat i).

(** Assignment through a reference to element [p] of a vector. *)
Fixpoint set_at {A} (v : list A) (p : nat) (x : A) : list A :=
  match v, p with
  | [], _ => []
  | _ :: t, O => x :: t
  | y :: t, S p' => y :: set_at t p' x
  end.

(** [s.substr(pos, n)] for [pos <= s.length()]. *)
Definition substr (s : bytes) (pos n : nat) : bytes := firstn n (skipn pos s).

(** [s[i]] of a [std::string]: the byte, and the terminating NUL at
    [i = s.length()]. *)
Definition str_index (s : bytes) (i : nat) : ascii := nth i s NUL.

(** A small error monad for the exception-raising accesses. *)
Definition bind {A C} (m : option A) (k : A -> option C) : option C :=
  match m with
  | Some a => k a
  | None => None
  end.

Notation "x <- m ;; k" := (bind m (fun x => k))
  (at level 61, m at next level, right associativity).

(** ** Data model (Editor.h) *)

Inductive Highlight : Type :=
  | HL_NORMAL
  | HL_COMMENT
  | HL_MLCOMMENT
  | HL_KEYWORD1
  | HL_KEYWORD2
  | HL_STRING
  | HL_NUMBER
  | HL_MATCH.

Definition Highlight_eqb (a b : Highlight) : bool :=
  match a, b with
  | HL_NORMAL, HL_NORMAL | HL_COMMENT, HL_COMMENT
  | HL_MLCOMMENT, HL_MLCOMMENT | HL_KEYWORD1, HL_KEYWORD1
  | HL_KEYWORD2, HL_KEYWORD2 | HL_STRING, HL_STRING
  | HL_NUMBER, HL_NUMBER | HL_MATCH, HL_MATCH => true
  | _, _ => false
  end.

Definition HIGHLIGHT_NUMBERS : Z := 1.
Definition HIGHLIGHT_STRINGS : Z := 2.

Record Syntax : Type := mkSyntax {
  filetype : bytes;
  filematch : list bytes;
  keywords : list bytes;
  singleLineCommentStart : bytes;
  multiLineCommentStart : bytes;
  multilineCommentEnd : bytes;
  flags : Z
}.

(** [hl_open_comment] is an [int] that only ever holds 0 or 1. *)
Record Row : Type := mkRow {
  idx : Z;
  size : Z;
  rsize : Z;
  chars : bytes;
  render : bytes;
  hl : list Highlight;
  hl_open_comment : bool
}.

(** The members of [Editor] that the buffer, the highlighter and the
    scroll computation read or write.  [_status] and [_statusTime] only
    feed the message bar and are left out. *)
Record Editor : Type := mkEditor {
  _cx : Z;
  _cy : Z;
  _rx : Z;
  _rowOffset : Z;
  _colOffset : Z;
  _screenRows : Z;
  _screenCols : Z;
  _dirty : Z;
  _filename : bytes;
  _syntax : option Syntax;
  _rows : list Row;
  _tabStop : Z
}.

(** [Editor::Editor()] *)
Definition Editor_new : Editor :=
  mkEditor 0 0 0 0 0 25 80 0 [] None [] 4.

Definition with_cursor (E : Editor) (x y : Z) : Editor :=
  mkEditor x y (_rx E) (_rowOffset E) (_colOffset E) (_screenRows E)
    (_screenCols E) (_dirty E) (_filename E) (_syntax E) (_rows E) (_tabStop E).

Definition with_view (E : Editor) (r ro co : Z) : Editor :=
  mkEditor (_cx E) (_cy E) r ro co (_screenRows E)
    (_screenCols E) (_dirty E) (_filename E) (_syntax E) (_rows E) (_tabStop E).

Definition with_rows (E : Editor) (rs : list Row) : Editor :=
  mkEditor (_cx E) (_cy E) (_rx E) (_rowOffset E) (_colOffset E) (_screenRows E)
    (_screenCols E) (_dirty E) (_filename E) (_syntax E) rs (_tabStop E).

Definition with_dirty (E : Editor) (d : Z) : Editor :=
  mkEditor (_cx E) (_cy E) (_rx E) (_rowOffset E) (_colOffset E) (_screenRows E)
    (_screenCols E) d (_filename E) (_syntax E) (_rows E) (_tabStop E).

Definition with_syntax (E : Editor) (s : option Syntax) : Editor :=
  mkEditor (_cx E) (_cy E) (_rx E) (_rowOffset E) (_colOffset E) (_screenRows E)
    (_screenCols E) (_dirty E) (_filename E) s (_rows E) (_tabStop E).

Definition with_filename (E : Editor) (f : bytes) : Editor :=
  mkEditor (_cx E) (_cy E) (_rx E) (_rowOffset E) (_colOffset E) (_screenRows E)
    (_screenCols E) (_dirty E) f (_syntax E) (_rows E) (_tabStop E).

(** ** Highlighting patterns *)

Definition C_HL_extensions : list bytes :=
  [B ".c"; B ".h"; B ".cpp"; B ".cc"].

Definition C_HL_keywords : list bytes :=
  [B "switch"; B "if"; B "while"; B "for"; B "break"; B "continue";
   B "return"; B "else"; B "struct"; B "union"; B "typedef"; B "static";
   B "enum"; B "class"; B "case";
   B "int|"; B "long|"; B "double|"; B "float|"; B "char|"; B "unsigned|";
   B "signed|"; B "void|"].

Definition C_syntax : Syntax :=
  mkSyntax (B "c") C_HL_extensions C_HL_keywords (B "//") (B "/*") (B "*/")
    (Z.lor HIGHLIGHT_NUMBERS HIGHLIGHT_STRINGS).

Definition HLDB : list Syntax := [C_syntax].

(** ** Coordinate mapping *)

(** One step of the walk shared by [_rowCxToRx] and [_rowRxToCx]:
    [if (c == '\t') rx += (_tabStop - 1) - (rx % _tabStop); rx++;].
    [%] on [int] truncates ([Z.rem]); a zero [_tabStop] divides by zero. *)
Definition advance_rx (ts : Z) (c : ascii) (rx : Z) : option Z :=
  if Ascii.eqb c TAB
  then if ts =? 0 then None else Some (rx + ((ts - 1) - Z.rem rx ts) + 1)
  else Some (rx + 1).

(** The loop [for (j = 0; j < cx; j++)] over [row.chars.at(j)]; [cs]
    is the part of [chars] from [j] on and [n] the iterations left. *)
Fixpoint cx_to_rx_loop (ts : Z) (cs : bytes) (n : nat) (rx : Z) {struct n}
  : option Z :=
  match n with
  | O => Some rx
  | S n' =>
      match cs with
      | [] => None
      | c :: t => rx' <- advance_rx ts c rx ;; cx_to_rx_loop ts t n' rx'
      end
  end.

Definition _rowCxToRx (E : Editor) (rowId cx : Z) : option Z :=
  row <- at_ (_rows E) rowId ;;
  cx_to_rx_loop (_tabStop E) (chars row) (Z.to_nat cx) 0.

(** The loop [for (cx = 0; cx < row.size; cx++)]; [n] is [row.size - cx]. *)
Fixpoint rx_to_cx_loop (ts : Z) (cs : bytes) (n : nat) (cx cur_rx rx : Z)
  {struct n} : option Z :=
  match n with
  | O => Some cx
  | S n' =>
      match cs with
      | [] => None
      | c :: t =>
          cur <- advance_rx ts c cur_rx ;;
          if cur >? rx then Some cx
          else rx_to_cx_loop ts t n' (cx + 1) cur rx
      end
  end.

Definition _rowRxToCx (E : Editor) (rowId rx : Z) : option Z :=
  row <- at_ (_rows E) rowId ;;
  rx_to_cx_loop (_tabStop E) (chars row) (Z.to_nat (size row)) 0 0 rx.

(** ** Scroll computation *)

Definition _scroll (E : Editor) : option Editor :=
  rx <- (if (0 <=? _cy E) && (_cy E <? len (_rows E))
         then _rowCxToRx E (_cy E) (_cx E)
         else Some 0) ;;
  let ro1 := if _cy E <? _rowOffset E then _cy E else _rowOffset E in
  let ro2 := if _cy E >=? ro1 + _screenRows E
             then _cy E - _screenRows E + 1 else ro1 in
  let co1 := if rx <? _colOffset E then rx else _colOffset E in
  let co2 := if rx >=? co1 + _screenCols E
             then rx - _screenCols E + 1 else co1 in
  Some (with_view E rx ro2 co2).

(** ** Highlighter *)

Definition isspace (c : ascii) : bool :=
  existsb (Ascii.eqb c) [SPACE; TAB; LF; "011"%char; "012"%char; CR].

Definition isdigit (c : ascii) : bool :=
  let n := nat_of_ascii c in (48 <=? n)%nat && (n <=? 57)%nat.

Definition isSeparator (c : ascii) : bool :=
  isspace c || Ascii.eqb c NUL || existsb (Ascii.eqb c) (B ",.()+-/*=~%<>[];").

(** [memset(hl.data() + i, v, n)] on a vector that holds the range. *)
Fixpoint memset (l : list Highlight) (i n : nat) (v : Highlight)
  : list Highlight :=
  match l, i with
  | [], _ => []
  | x :: t, S i' => x :: memset t i' n v
  | x :: t, O =>
      match n with
      | O => x :: t
      | S n' => v :: memset t O n' v
      end
  end.

(** The locals of the scan loop of [_updateSyntax]: the position [i],
    [prevSep], [inString] (0 or the quote byte), [inComment], and the
    row's [hl] as written so far. *)
Record Scan : Type := mkScan {
  s_i : nat;
  s_prevSep : bool;
  s_inString : option ascii;
  s_inComment : bool;
  s_hl : list Highlight
}.

Inductive Flow : Type :=
  | Break (s : Scan)
  | Next (s : Scan).

Definition flow_scan (f : Flow) : Scan :=
  match f with Break s => s | Next s => s end.

(** [keywords[j][klen - 1] == '|'].  (No keyword of the table is empty;
    for an empty one the C++ index is out of range.) *)
Definition is_kw2 (k : bytes) : bool :=
  match rev k with
  | c :: _ => Ascii.eqb c BAR
  | [] => false
  end.

Definition kw_len (k : bytes) : nat :=
  if is_kw2 k then (List.length k - 1)%nat else List.length k.

(** The test of one keyword at position [i]: [foundKW &&
    isSeparator(row.render[i + klen])]. *)
Definition kw_match (k : bytes) (rend : bytes) (i : nat) : bool :=
  let klen := kw_len k in
  bytes_eqb (substr rend i klen) (substr k 0 klen)
  && isSeparator (str_index rend (i + klen)).

(** [for (j = 0; j < numKeywords; j++)]: [kws] is the part of the
    keyword list from [j] on.  Returns the value of [j] after the loop,
    the new [i] and the new [hl]. *)
Fixpoint kw_loop (kws : list bytes) (j : nat) (rend : bytes) (i : nat)
  (h : list Highlight) : nat * nat * list Highlight :=
  match kws with
  | [] => (j, i, h)
  | k :: rest =>
      if kw_match k rend i
      then (j, (i + kw_len k)%nat,
            memset h i (kw_len k) (if is_kw2 k then HL_KEYWORD2 else HL_KEYWORD1))
      else kw_loop rest (S j) rend i h
  end.

Section Highlighter.

(** After a loop that matched nothing, [keywords[j]] is read with
    [j == keywords.size()], one past the end of the vector.  What that
    read yields is not determined by the program; [past_end] stands for
    the string value it produces. *)
Variable past_end : bytes.

(** The test of [keywords[j]] against the empty string after the loop. *)
Definition kw_post_test (kws : list bytes) (j : nat) : bool :=
  match nth_error kws j with
  | Some k => negb (bytes_eqb k [])
  | None => negb (bytes_eqb past_end [])
  end.

Definition nonzero (s : bytes) : bool := negb (Nat.eqb (List.length s) 0).

(** The first four rules of an iteration (line comment, block comment,
    string, number), each of which ends in [break] or [continue];
    [None] when none of them applies and control reaches the keyword
    test. *)
Definition scan_early (syn : Syntax) (rsz : nat) (rend : bytes) (st : Scan)
  (c : ascii) : option Flow :=
  let i := s_i st in
  let h := s_hl st in
  let scs := singleLineCommentStart syn in
  let mcs := multiLineCommentStart syn in
  let mce := multilineCommentEnd syn in
  let prev_hl := if (0 <? i)%nat then nth (i - 1) h HL_NORMAL else HL_NORMAL in
  let in_str := match s_inString st with Some _ => true | None => false end in
  if nonzero scs && negb in_str && negb (s_inComment st)
     && bytes_eqb (substr rend i (List.length scs)) scs
  then Some (Break (mkScan i (s_prevSep st) (s_inString st) (s_inComment st)
                      (memset h i (rsz - i) HL_COMMENT)))
  else if nonzero mcs && nonzero mce && negb in_str && s_inComment st
  then
    let h1 := memset h i 1 HL_MLCOMMENT in
    if bytes_eqb (substr rend i (List.length mce)) mce
    then Some (Next (mkScan (i + List.length mce) true (s_inString st) false
                       (memset h1 i (List.length mce) HL_MLCOMMENT)))
    else Some (Next (mkScan (i + 1) (s_prevSep st) (s_inString st) true h1))
  else if nonzero mcs && nonzero mce && negb in_str
          && bytes_eqb (substr rend i (List.length mcs)) mcs
  then Some (Next (mkScan (i + List.length mcs) (s_prevSep st) (s_inString st)
                     true (memset h i (List.length mcs) HL_MLCOMMENT)))
  else
  let strings_on := negb (Z.land (flags syn) HIGHLIGHT_STRINGS =? 0) in
  let numbers_on := negb (Z.land (flags syn) HIGHLIGHT_NUMBERS =? 0) in
  match (if strings_on then s_inString st else None) with
  | Some q =>
      let h1 := memset h i 1 HL_STRING in
      if Ascii.eqb c BACKSLASH && (i + 1 <? rsz)%nat
      then Some (Next (mkScan (i + 2) (s_prevSep st) (Some q) (s_inComment st)
                         (memset h1 (i + 1) 1 HL_STRING)))
      else Some (Next (mkScan (i + 1) true
                         (if Ascii.eqb c q then None else Some q)
                         (s_inComment st) h1))
  | None =>
      if strings_on && (Ascii.eqb c DQUOTE || Ascii.eqb c SQUOTE)
      then Some (Next (mkScan (i + 1) (s_prevSep st) (Some c) (s_inComment st)
                         (memset h i 1 HL_STRING)))
      else
      let prevNum := s_prevSep st || Highlight_eqb prev_hl HL_NUMBER in
      let prevHl := Ascii.eqb c DOT && Highlight_eqb prev_hl HL_NUMBER in
      if numbers_on && ((isdigit c && prevNum) || prevHl)
      then Some (Next (mkScan (i + 1) false (s_inString st) (s_inComment st)
                         (memset h i 1 HL_NUMBER)))
      else None
  end.

(** The keyword test [if (prevSep) { for ... ; if (keywords[j] is not
    empty) { prevSep = 0; continue; } }] followed by
    [prevSep = isSeparator(c); i++;]. *)
Definition scan_keyword (syn : Syntax) (rend : bytes) (st : Scan) (c : ascii)
  : Flow :=
  let '(j, i1, h1) :=
    if s_prevSep st then kw_loop (keywords syn) 0 rend (s_i st) (s_hl st)
    else (O, s_i st, s_hl st) in
  if s_prevSep st && kw_post_test (keywords syn) j
  then Next (mkScan i1 false (s_inString st) (s_inComment st) h1)
  else Next (mkScan (i1 + 1) (isSeparator c) (s_inString st)
               (s_inComment st) h1).

(** One iteration of [while (i < row.rsize)], for a non-null [_syntax].
    [None] is the throw of [row.render.at(i)]. *)
Definition scan_step (syn : Syntax) (rsz : nat) (rend : bytes) (st : Scan)
  : option Flow :=
  c <- nth_error rend (s_i st) ;;
  Some (match scan_early syn rsz rend st c with
        | Some f => f
        | None => scan_keyword syn rend st c
        end).

(** [while (i < row.rsize) { ... }] *)
Fixpoint scan_loop (fuel : nat) (syn : Syntax) (rsz : nat) (rend : bytes)
  (st : Scan) : option Scan :=
  if (rsz <=? s_i st)%nat then Some st
  else
    match fuel with
    | O => None
    | S f =>
        r <- scan_step syn rsz rend st ;;
        match r with
        | Break s => Some s
        | Next s => scan_loop f syn rsz rend s
        end
    end.

(** The states at the head of the successive iterations of the loop. *)
Fixpoint scan_trace (fuel : nat) (syn : Syntax) (rsz : nat) (rend : bytes)
  (st : Scan) : list Scan :=
  if (rsz <=? s_i st)%nat then []
  else
    match fuel with
    | O => []
    | S f =>
        st :: match scan_step syn rsz rend st with
              | Some (Next s) => scan_trace f syn rsz rend s
              | _ => []
              end
    end.

Definition scan_init (h0 : list Highlight) (inComment : bool) : Scan :=
  mkScan 0 true None inComment h0.

(** The whole scan of one row.  An iteration that does not move [i]
    clears [prevSep] and the next one moves, so [2 * rsize + 1]
    iterations always suffice (lemma [scan_total]). *)
Definition scan (syn : Syntax) (rsz : nat) (rend : bytes)
  (h0 : list Highlight) (inComment : bool) : option Scan :=
  scan_loop (2 * rsz + 1) syn rsz rend (scan_init h0 inComment).

Definition set_hl (r : Row) (h : list Highlight) (oc : bool) : Row :=
  mkRow (idx r) (size r) (rsize r) (chars r) (render r) h oc.

(** The body of [_updateSyntax(Row& row)] up to its recursive call,
    [row] being element [p] of [_rows]: the editor after the scan, and
    the position of the row the function then calls itself on, if any
    ([changed && row.idx + 1 < _rows.size()], an [int] against a
    [size_t]). *)
Definition update_one (E : Editor) (p : nat) : option (Editor * option nat) :=
  row <- nth_error (_rows E) p ;;
  let h0 := repeat HL_NORMAL (Z.to_nat (rsize row)) in
  match _syntax E with
  | None =>
      Some (with_rows E (set_at (_rows E) p (set_hl row h0 (hl_open_comment row))),
            None)
  | Some syn =>
      inComment <- (if idx row >? 0
                    then prev <- at_ (_rows E) (idx row - 1) ;;
                         Some (hl_open_comment prev)
                    else Some false) ;;
      st <- scan syn (Z.to_nat (rsize row)) (render row) h0 inComment ;;
      let changed := negb (Bool.eqb (hl_open_comment row) (s_inComment st)) in
      let E1 := with_rows E
                  (set_at (_rows E) p (set_hl row (s_hl st) (s_inComment st))) in
      if changed && (0 <=? idx row + 1) && (idx row + 1 <? len (_rows E))
      then Some (E1, Some (Z.to_nat (idx row + 1)))
      else Some (E1, None)
  end.

(** [_updateSyntax(Row& row)]; [fuel] bounds the depth of the recursion
    onto [_rows.at(row.idx+1)]. *)
Fixpoint _updateSyntax (fuel : nat) (E : Editor) (p : nat) : option Editor :=
  r <- update_one E p ;;
  match r with
  | (E1, None) => Some E1
  | (E1, Some q) =>
      match fuel with
      | O => None
      | S f => _updateSyntax f E1 q
      end
  end.

(** The positions of the rows that one call of [_updateSyntax] scans,
    in order. *)
Fixpoint cascade_trace (fuel : nat) (E : Editor) (p : nat) : list nat :=
  match update_one E p with
  | Some (E1, Some q) =>
      p :: match fuel with
           | O => []
           | S f => cascade_trace f E1 q
           end
  | Some (_, None) => [p]
  | None => []
  end.

End Highlighter.

(** ** Row operations and editor operations *)

Definition set_render (r : Row) (rend : bytes) (rsz : Z) : Row :=
  mkRow (idx r) (size r) rsz (chars r) rend (hl r) (hl_open_comment r).

Definition set_chars (r : Row) (cs : bytes) (sz : Z) : Row :=
  mkRow (idx r) sz (rsize r) cs (render r) (hl r) (hl_open_comment r).

Definition set_idx (r : Row) (i : Z) : Row :=
  mkRow i (size r) (rsize r) (chars r) (render r) (hl r) (hl_open_comment r).

(** [while (idx % _tabStop != 0) { render.append(" "); idx++; }]; among
    [|_tabStop|] consecutive values one is a multiple, which bounds it. *)
Fixpoint pad_loop (fuel : nat) (ts : Z) (rend : bytes) (i : Z) : bytes * Z :=
  match fuel with
  | O => (rend, i)
  | S f =>
      if Z.rem i ts =? 0 then (rend, i)
      else pad_loop f ts (rend ++ [SPACE]) (i + 1)
  end.

(** [for (j = 0; j < row.size; j++)] of [_update], over [row.chars.at(j)]. *)
Fixpoint render_loop (ts : Z) (cs : bytes) (n : nat) (rend : bytes) (i : Z)
  {struct n} : option (bytes * Z) :=
  match n with
  | O => Some (rend, i)
  | S n' =>
      match cs with
      | [] => None
      | c :: t =>
          if Ascii.eqb c TAB
          then
            if ts =? 0 then None
            else
              let '(r1, i1) :=
                pad_loop (Z.to_nat (Z.abs ts)) ts (rend ++ [SPACE]) (i + 1) in
              render_loop ts t n' r1 i1
          else render_loop ts t n' (rend ++ [c]) (i + 1)
      end
  end.

(** [_rows.insert(_rows.begin() + at, row)] and [_rows.erase(...)]. *)
Definition vec_insert {A} (v : list A) (p : nat) (x : A) : list A :=
  firstn p v ++ x :: skipn p v.

Definition vec_erase {A} (v : list A) (p : nat) : list A :=
  firstn p v ++ skipn (S p) v.

(** [s.resize(n)] *)
Definition resize (s : bytes) (n : nat) : bytes :=
  firstn n s ++ repeat NUL (n - List.length s).

(** The C string that starts at [s.data() + off]: the bytes up to the
    first NUL. *)
Fixpoint until_nul (s : bytes) : bytes :=
  match s with
  | [] => []
  | c :: t => if Ascii.eqb c NUL then [] else c :: until_nul t
  end.

Definition c_str_from (s : bytes) (off : nat) : bytes := until_nul (skipn off s).

(** The [char] an [int] key converts to. *)
Definition char_of_int (c : Z) : ascii := ascii_of_N (Z.to_N (c mod 256)).

(** Key codes ([Editor::Key] and the control keys). *)
Definition BACKSPACE : Z := 127.
Definition ARROW_LEFT : Z := 1000.
Definition ARROW_RIGHT : Z := 1001.
Definition ARROW_UP : Z := 1002.
Definition ARROW_DOWN : Z := 1003.
Definition DEL_KEY : Z := 1004.
Definition HOME_KEY : Z := 1005.
Definition END_KEY : Z := 1006.
Definition PAGE_UP : Z := 1007.
Definition PAGE_DOWN : Z := 1008.
Definition CTRL_KEY (k : Z) : Z := Z.land k 31.
Definition KEY_ESC : Z := 27.
Definition KEY_RETURN : Z := 13.

(** The first half of [_update(int rowIndex)], up to [row.rsize = idx]. *)
Definition render_row (E : Editor) (rowIndex : Z) : option Editor :=
  row <- at_ (_rows E) rowIndex ;;
  r <- render_loop (_tabStop E) (chars row) (Z.to_nat (size row)) [] 0 ;;
  let '(rend, i) := r in
  Some (with_rows E (set_at (_rows E) (Z.to_nat rowIndex) (set_render row rend i))).

Section Buffer.

Variable past_end : bytes.

(** The recursion budget handed to every call of [_updateSyntax]. *)
Variable depth : nat.

(** [_update(int rowIndex)]: the row's [render] and [rsize] are
    rebuilt from [chars] ([render_row]), then [_updateSyntax(row)]. *)
Definition _update (E : Editor) (rowIndex : Z) : option Editor :=
  E1 <- render_row E rowIndex ;;
  _updateSyntax past_end depth E1 (Z.to_nat rowIndex).

(** [_insertRow(std::string s, int at)] *)
Definition _insertRow (E : Editor) (s : bytes) (at' : Z) : option Editor :=
  if (at' >=? 0) && (at' <=? len (_rows E))
  then
    let row := mkRow at' (len s) 0 s [] [] false in
    E1 <- _update (with_rows E (vec_insert (_rows E) (Z.to_nat at') row)) at' ;;
    Some (with_dirty E1 (_dirty E1 + 1))
  else Some E.

(** [_delRow(int at)]; the loop decrements [idx] of the elements from
    [at] to the end of the shortened vector. *)
Definition _delRow (E : Editor) (at' : Z) : option Editor :=
  let numRows := len (_rows E) in
  if (at' <? 0) || (at' >=? numRows) then Some E
  else
    let p := Z.to_nat at' in
    let rs := vec_erase (_rows E) p in
    let rs' := firstn p rs ++ map (fun r => set_idx r (idx r - 1)) (skipn p rs) in
    Some (with_dirty (with_rows E rs') (_dirty E + 1)).

(** [_rowInsertChar(Row& row, int at, int c)], [row] at position [p].
    [chars.insert(at, 1, c)] throws past the end of [chars]. *)
Definition _rowInsertChar (E : Editor) (p : nat) (at' c : Z) : option Editor :=
  row <- nth_error (_rows E) p ;;
  let a := if (at' <? 0) || (at' >? size row) then size row else at' in
  if (a <? 0) || (a >? len (chars row)) then None
  else
    let n := Z.to_nat a in
    let cs := firstn n (chars row) ++ char_of_int c :: skipn n (chars row) in
    let row' := set_chars row cs (size row + 1) in
    E1 <- _update (with_rows E (set_at (_rows E) p row')) (idx row') ;;
    Some (with_dirty E1 (_dirty E1 + 1)).

(** [_rowAppendString(Row& row, std::string s)] *)
Definition _rowAppendString (E : Editor) (p : nat) (s : bytes) : option Editor :=
  row <- nth_error (_rows E) p ;;
  let row' := set_chars row (chars row ++ s) (size row + len s) in
  E1 <- _update (with_rows E (set_at (_rows E) p row')) (idx row') ;;
  Some (with_dirty E1 (_dirty E1 + 1)).

(** [_rowDelChar(Row& row, int at)] *)
Definition _rowDelChar (E : Editor) (p : nat) (at' : Z) : option Editor :=
  row <- nth_error (_rows E) p ;;
  if (at' <? 0) || (at' >=? size row) then Some E
  else
    let row' := set_chars row (vec_erase (chars row) (Z.to_nat at')) (size row - 1) in
    E1 <- _update (with_rows E (set_at (_rows E) p row')) (idx row') ;;
    Some (with_dirty E1 (_dirty E1 + 1)).

(** [_insertChar(int c)] *)
Definition _insertChar (E : Editor) (c : Z) : option Editor :=
  let numRows := len (_rows E) in
  E1 <- (if _cy E =? numRows then _insertRow E [] numRows else Some E) ;;
  _ <- at_ (_rows E1) (_cy E1) ;;
  E2 <- _rowInsertChar E1 (Z.to_nat (_cy E1)) (_cx E1) c ;;
  Some (with_cursor E2 (_cx E2 + 1) (_cy E2)).

(** [_insertNewLine()].  The new row is built from the [const char*]
    [row.chars.data() + _cx], so it stops at the first NUL byte.
    [Row& row] is taken before [_rows.insert], and [capacity] is
    [_rows.capacity()] at that point.  With spare capacity the
    insertion shifts the elements in place: [row] still refers to
    element [_cy], [row = _rows.at(_cy)] assigns the element to itself
    and the truncation reaches it.  When the vector is full
    ([size() == capacity()]) the insertion moves the elements to new
    storage and [row] refers to the old one: the assignment and the
    truncation are written there, and element [_cy] keeps all its
    bytes. *)
Definition _insertNewLine (capacity : nat) (E : Editor) : option Editor :=
  E3 <- (if _cx E =? 0 then _insertRow E [] (_cy E)
         else
           row <- at_ (_rows E) (_cy E) ;;
           if (_cx E <? 0) || (_cx E >? len (chars row)) then None
           else
             let reallocates := (capacity <=? List.length (_rows E))%nat in
             E1 <- _insertRow E (c_str_from (chars row) (Z.to_nat (_cx E)))
                     (_cy E + 1) ;;
             row1 <- at_ (_rows E1) (_cy E1) ;;
             if reallocates then _update E1 (_cy E1)
             else
               let row2 := set_chars row1
                             (resize (chars row1) (Z.to_nat (_cx E1))) (_cx E1) in
               _update (with_rows E1
                          (set_at (_rows E1) (Z.to_nat (_cy E1)) row2)) (_cy E1)) ;;
  Some (with_cursor E3 0 (_cy E3 + 1)).

(** [_delChar()] *)
Definition _delChar (E : Editor) : option Editor :=
  let numRows := len (_rows E) in
  if _cy E =? numRows then Some E
  else if (_cx E =? 0) && (_cy E =? 0) then Some E
  else
    row <- at_ (_rows E) (_cy E) ;;
    if _cx E >? 0
    then
      E1 <- _rowDelChar E (Z.to_nat (_cy E)) (_cx E - 1) ;;
      Some (with_cursor E1 (_cx E1 - 1) (_cy E1))
    else
      prev <- at_ (_rows E) (_cy E - 1) ;;
      let E0 := with_cursor E (size prev) (_cy E) in
      E1 <- _rowAppendString E0 (Z.to_nat (_cy E - 1)) (chars row) ;;
      E2 <- _delRow E1 (_cy E1) ;;
      Some (with_cursor E2 (_cx E2) (_cy E2 - 1)).

(** [_moveCursor(int key)] *)
Definition _moveCursor (E : Editor) (key : Z) : option Editor :=
  let numRows := len (_rows E) in
  let validRow := _cy E <? numRows in
  E1 <-
    (if key =? ARROW_LEFT then
       if negb (_cx E =? 0) then Some (with_cursor E (_cx E - 1) (_cy E))
       else if _cy E >? 0 then
         r <- at_ (_rows E) (_cy E - 1) ;;
         Some (with_cursor E (size r) (_cy E - 1))
       else Some E
     else if key =? ARROW_RIGHT then
       if validRow then
         r <- at_ (_rows E) (_cy E) ;;
         if _cx E <? size r then Some (with_cursor E (_cx E + 1) (_cy E))
         else if _cx E =? size r then Some (with_cursor E 0 (_cy E + 1))
         else Some E
       else Some E
     else if key =? ARROW_UP then
       if negb (_cy E =? 0) then Some (with_cursor E (_cx E) (_cy E - 1))
       else Some E
     else if key =? ARROW_DOWN then
       if _cy E <? numRows then Some (with_cursor E (_cx E) (_cy E + 1))
       else Some E
     else Some E) ;;
  rowlen <- (if _cy E1 <? numRows
             then r <- at_ (_rows E1) (_cy E1) ;; Some (size r)
             else Some 0) ;;
  Some (if _cx E1 >? rowlen then with_cursor E1 rowlen (_cy E1) else E1).

End Buffer.

(** ** Search, prompt, file selection, load and save *)

Fixpoint is_prefix (p s : bytes) : bool :=
  match p, s with
  | [], _ => true
  | x :: p', y :: s' => Ascii.eqb x y && is_prefix p' s'
  | _ :: _, [] => false
  end.

(** [strstr] on NUL-free arguments: the offset of the first occurrence. *)
Fixpoint strstr_from (hay needle : bytes) (off : nat) : option nat :=
  match hay with
  | [] => if is_prefix needle [] then Some off else None
  | _ :: t =>
      if is_prefix needle hay then Some off
      else strstr_from t needle (S off)
  end.

(** [strstr(row.render.c_str(), query.c_str())] *)
Definition strstr (hay needle : bytes) : option nat :=
  strstr_from (until_nul hay) (until_nul needle) 0.

(** The editor together with the function-local statics of
    [_findAction] (zero-initialised [savedHlLine], empty [savedHl]). *)
Record Program : Type := mkProgram {
  ed : Editor;
  last_match : Z;
  direction : Z;
  savedHl : list Highlight;
  savedHlLine : Z
}.

Definition Program_new : Program := mkProgram Editor_new (-1) 1 [] 0.

Definition with_ed (P : Program) (E : Editor) : Program :=
  mkProgram E (last_match P) (direction P) (savedHl P) (savedHlLine P).

(** [iscntrl(c)] in the C locale, for a byte value. *)
Definition iscntrl (c : Z) : bool := ((0 <=? c) && (c <? 32)) || (c =? 127).

(** [filename.rfind(".")] followed by [substr(pos)]: the extension. *)
Fixpoint rfind_dot (s : bytes) : option bytes :=
  match s with
  | [] => None
  | c :: t =>
      match rfind_dot t with
      | Some e => Some e
      | None => if Ascii.eqb c DOT then Some s else None
      end
  end.

Definition file_matches (filename ext m : bytes) : bool :=
  let isExt := Ascii.eqb (str_index m 0) DOT in
  (isExt && (0 <? len ext) && bytes_eqb ext m)
  || (negb isExt && bytes_eqb filename m).

(** [getline]: the next line with its terminating newline, if any. *)
Fixpoint getlines (s : bytes) (cur : bytes) : list bytes :=
  match s with
  | [] => match cur with [] => [] | _ => [cur] end
  | c :: t =>
      if Ascii.eqb c LF then (cur ++ [c]) :: getlines t []
      else getlines t (cur ++ [c])
  end.

Definition is_eol (c : ascii) : bool := Ascii.eqb c LF || Ascii.eqb c CR.

Fixpoint strip_eol_rev (r : bytes) : bytes :=
  match r with
  | [] => []
  | c :: t => if is_eol c then strip_eol_rev t else r
  end.

(** [while (lineLen > 0 && (line[lineLen-1] == '\n' || ... == '\r')) lineLen--] *)
Definition strip_eol (l : bytes) : bytes := rev (strip_eol_rev (rev l)).

(** What [_save] hands to [fwrite], row after row. *)
Definition saved_bytes (rs : list Row) : bytes := List.concat (map chars rs).

(** What the file system does during [_save]: [fopen] returns a null
    pointer, or it opens the file, and then either every [fwrite]
    writes what it is asked to or the [fwrite] of row [k] is the first
    that writes fewer bytes, [n] of them. *)
Inductive Disk : Type :=
  | CannotOpen
  | Opened (short : option (nat * nat)).

Definition fopen_ok (d : Disk) : bool :=
  match d with CannotOpen => false | Opened _ => true end.

(** The bytes in the file when the loop [for (Row& row : _rows)] leaves
    through its error branch: the rows before [k] and [n] bytes of row
    [k].  [None] when no [fwrite] returns less than the length of its
    row. *)
Definition short_write (d : Disk) (rs : list Row) : option bytes :=
  match d with
  | Opened (Some (k, n)) =>
      match nth_error rs k with
      | Some row =>
          if (n <? List.length (chars row))%nat
          then Some (saved_bytes (firstn k rs) ++ firstn n (chars row))
          else None
      | None => None
      end
  | _ => None
  end.

Section Session.

Variable past_end : bytes.
Variable depth : nat.

(** The scan [for (i = 0; i < numRows; i++)] of [_findAction]; [n]
    counts the iterations left. *)
Fixpoint find_loop (n : nat) (E : Editor) (query : bytes) (current dir : Z)
  (lm line : Z) : option Program :=
  match n with
  | O => Some (mkProgram E lm dir [] line)
  | S n' =>
      let numRows := len (_rows E) in
      let cur := current + dir in
      let cur := if cur =? -1 then numRows - 1
                 else if cur =? numRows then 0 else cur in
      row <- at_ (_rows E) cur ;;
      match strstr (render row) query with
      | Some off =>
          cx <- _rowRxToCx E (idx row) (Z.of_nat off) ;;
          let row' := set_hl row (memset (hl row) off (List.length query) HL_MATCH)
                        (hl_open_comment row) in
          let E1 := with_rows E (set_at (_rows E) (Z.to_nat cur) row') in
          let E2 := with_view (with_cursor E1 cx cur) (_rx E1) numRows
                      (_colOffset E1) in
          Some (mkProgram E2 cur dir (hl row) cur)
      | None => find_loop n' E query cur dir lm line
      end
  end.

(** [_findAction(std::string query, int key)] *)
Definition _findAction (P : Program) (query : bytes) (key : Z)
  : option Program :=
  E <- (if 0 <? len (savedHl P)
        then
          r <- at_ (_rows (ed P)) (savedHlLine P) ;;
          Some (with_rows (ed P)
                  (set_at (_rows (ed P)) (Z.to_nat (savedHlLine P))
                     (set_hl r (savedHl P) (hl_open_comment r))))
        else Some (ed P)) ;;
  if (key =? KEY_RETURN) || (key =? KEY_ESC)
  then Some (mkProgram E (-1) 1 [] (savedHlLine P))
  else
    let '(lm, dir) :=
      if (key =? ARROW_RIGHT) || (key =? ARROW_DOWN) then (last_match P, 1)
      else if (key =? ARROW_LEFT) || (key =? ARROW_UP) then (last_match P, -1)
      else (-1, 1) in
    let dir := if lm =? -1 then 1 else dir in
    find_loop (List.length (_rows E)) E query lm dir lm (savedHlLine P).

(** [_refreshScreen()]: only [_scroll()] changes the editor; the frame
    that is written to the terminal is not modelled. *)
Definition _refreshScreen (P : Program) : option Program :=
  E <- _scroll (ed P) ;; Some (with_ed P E).

(** [_prompt(prompt, cb)], reading its keys from [keys].  The result is
    the returned string, the unread keys and the program state; [None]
    also stands for a prompt that is still waiting when the keys end. *)
Fixpoint _prompt (cb : option (Program -> bytes -> Z -> option Program))
  (keys : list Z) (buf : bytes) (P : Program)
  : option (bytes * list Z * Program) :=
  match keys with
  | [] => None
  | c :: rest =>
      P1 <- _refreshScreen P ;;
      let call b :=
        P2 <- match cb with Some f => f P1 b c | None => Some P1 end ;;
        _prompt cb rest b P2 in
      if (c =? DEL_KEY) || (c =? CTRL_KEY 104) || (c =? BACKSPACE)
      then call (if negb (len buf =? 0) then removelast buf else buf)
      else if c =? KEY_ESC then Some ([], rest, P1)
      else if c =? KEY_RETURN
      then if negb (len buf =? 0) then Some (buf, rest, P1) else call buf
      else if negb (iscntrl c) && (c <? 128)
      then call (buf ++ [char_of_int c])
      else call buf
  end.

(** [_find()] *)
Definition _find (P : Program) (keys : list Z) : option (Program * list Z) :=
  let E := ed P in
  r <- _prompt (Some _findAction) keys [] P ;;
  let '(query, rest, P1) := r in
  if len query =? 0
  then
    let E1 := ed P1 in
    Some (with_ed P1
            (with_view (with_cursor E1 (_cx E) (_cy E)) (_rx E1)
               (_rowOffset E) (_colOffset E)), rest)
  else Some (P1, rest).

(** [for (int i = 0; i < numRows; i++) _updateSyntax(_rows.at(i));] *)
Fixpoint update_all (n : nat) (i : nat) (E : Editor) : option Editor :=
  match n with
  | O => Some E
  | S n' =>
      E1 <- _updateSyntax past_end depth E i ;;
      update_all n' (S i) E1
  end.

(** [_selectSyntaxHighlight()] *)
Definition _selectSyntaxHighlight (E : Editor) : option Editor :=
  let E0 := with_syntax E None in
  if len (_filename E0) =? 0 then Some E0
  else
    match rfind_dot (_filename E0) with
    | None => Some E0
    | Some ext =>
        match find (fun s => existsb (file_matches (_filename E0) ext)
                               (filematch s)) HLDB with
        | None => Some E0
        | Some s =>
            update_all (List.length (_rows E0)) 0 (with_syntax E0 (Some s))
        end
    end.

(** The [getline] loop of [open]. *)
Fixpoint load_lines (ls : list bytes) (E : Editor) : option Editor :=
  match ls with
  | [] => Some E
  | l :: rest =>
      E1 <- _insertRow past_end depth E (strip_eol l) (len (_rows E)) ;;
      load_lines rest E1
  end.

(** [open(std::string filename)], the file holding [content]. *)
Definition open (E : Editor) (filename content : bytes) : option Editor :=
  E1 <- _selectSyntaxHighlight (with_filename E filename) ;;
  E2 <- load_lines (getlines content []) E1 ;;
  Some (with_dirty E2 0).

(** [_save()].  [disk] is what [fopen] and the [fwrite] calls do.  The
    result is the state after it, the unread keys and the bytes that
    have reached the file: [None] when the file was not opened. *)
Definition _save (disk : Disk) (P : Program) (keys : list Z)
  : option (Program * list Z * option bytes) :=
  r <- (if len (_filename (ed P)) =? 0
        then
          q <- _prompt None keys [] P ;;
          let '(name, rest, P1) := q in
          if len name =? 0 then Some (P1, rest, false)
          else
            E1 <- _selectSyntaxHighlight (with_filename (ed P1) name) ;;
            Some (with_ed P1 E1, rest, true)
        else Some (P, keys, true)) ;;
  let '(P2, rest, go) := r in
  if go
  then
    if fopen_ok disk
    then
      match short_write disk (_rows (ed P2)) with
      | Some written => Some (P2, rest, Some written)
      | None => Some (with_ed P2 (with_dirty (ed P2) 0), rest,
                      Some (saved_bytes (_rows (ed P2))))
      end
    else Some (P2, rest, None)
  else Some (P2, rest, None).

End Session.

(** ** Drawing the rows and the status bar *)

Definition ESC_CHAR : ascii := "027"%char.

(** The escape byte followed by the text [s]. *)
Definition esc (s : string) : bytes := ESC_CHAR :: B s.

(** What [printf]'s [%d] prints. *)
Definition dec (z : Z) : bytes := B (NilZero.string_of_int (Z.to_int z)).












(** The left text of the status bar, as [snprintf] would print it in
    full: [%.20s - %d lines %s]. *)
Definition status_text (E : Editor) : bytes :=
  firstn 20 (if 0 <? len (_filename E) then until_nul (_filename E)
             else B "[No Name]")
  ++ B " - " ++ dec (len (_rows E)) ++ B " lines "
  ++ (if negb (_dirty E =? 0) then B "(modified)" else []).

(** The right text: [%s | %d/%d]. *)
Definition rstatus_text (E : Editor) : bytes :=
  (match _syntax E with
   | Some s => until_nul (filetype s)
   | None => B "no ft"
   end)
  ++ B " | " ++ dec (_cy E + 1) ++ B "/" ++ dec (len (_rows E)).

(** [while (len < _screenCols) { ... }] of [_drawStatusBar]; [n] bounds
    the rounds by [_screenCols - len]. *)
Fixpoint status_pad (n : nat) (l screenCols rlen : Z) (rstatus buf : bytes)
  : bytes :=
  match n with
  | O => buf
  | S n' =>
      if l <? screenCols then
        if screenCols - l =? rlen then buf ++ rstatus
        else status_pad n' (l + 1) screenCols rlen rstatus (buf ++ [SPACE])
      else buf
  end.

(** [_drawStatusBar(std::string& buf)]: both texts go through 80-byte
    buffers, [len] and [rlen] are what [snprintf] returns (the lengths
    of the full texts), and the whole left text is appended. *)
Definition _drawStatusBar (E : Editor) (buf : bytes) : bytes :=
  let status := firstn 79 (status_text E) in
  let rstatus := firstn 79 (rstatus_text E) in
  let l := len (status_text E) in
  let rlen := len (rstatus_text E) in
  let l := if l >? _screenCols E then _screenCols E else l in
  status_pad (Z.to_nat (_screenCols E - l)) l (_screenCols E) rlen rstatus
    (buf ++ esc "[7m" ++ status)
  ++ esc "[m" ++ [CR; LF].

(** ** Decoding the keys *)

(** The first loop of [_readKey]: reads until a byte arrives.  An input
    is the list of the results of the [read] calls, [None] being a read
    that timed out; a list that ends stands for reads that time out
    for ever. *)
Fixpoint wait_byte (inp : list (option ascii))
  : option (ascii * list (option ascii)) :=
  match inp with
  | [] => None
  | Some c :: rest => Some (c, rest)
  | None :: rest => wait_byte rest
  end.

(** One [read(STDIN_FILENO, &seq[k], 1)]. *)
Definition read_byte (inp : list (option ascii))
  : option ascii * list (option ascii) :=
  match inp with
  | [] => (None, [])
  | r :: rest => (r, rest)
  end.

Definition byte_is (c : ascii) (s : string) : bool :=
  match s with
  | String d EmptyString => Ascii.eqb c d
  | _ => false
  end.

(** The two [switch]es on [seq[1]]. *)
Definition tilde_key (c : ascii) : option Z :=
  if byte_is c "1" then Some HOME_KEY
  else if byte_is c "3" then Some DEL_KEY
  else if byte_is c "4" then Some END_KEY
  else if byte_is c "5" then Some PAGE_UP
  else if byte_is c "6" then Some PAGE_DOWN
  else if byte_is c "7" then Some HOME_KEY
  else if byte_is c "8" then Some END_KEY
  else None.

Definition letter_key (c : ascii) : option Z :=
  if byte_is c "A" then Some ARROW_UP
  else if byte_is c "B" then Some ARROW_DOWN
  else if byte_is c "C" then Some ARROW_RIGHT
  else if byte_is c "D" then Some ARROW_LEFT
  else if byte_is c "H" then Some HOME_KEY
  else if byte_is c "F" then Some END_KEY
  else None.

Definition o_key (c : ascii) : option Z :=
  if byte_is c "H" then Some HOME_KEY
  else if byte_is c "F" then Some END_KEY
  else None.

Definition or_esc (k : option Z) : Z :=
  match k with Some z => z | None => KEY_ESC end.

Section ReadKey.

(** Whether [char] is a signed type: [return c] converts the byte to
    an [int]. *)
Variable char_signed : bool.

Definition int_of_char (c : ascii) : Z :=
  let n := Z.of_nat (nat_of_ascii c) in
  if char_signed && (128 <=? n) then n - 256 else n.

(** [_readKey()]: the key, and the reads that are left. *)
Definition _readKey (inp : list (option ascii))
  : option (Z * list (option ascii)) :=
  r <- wait_byte inp ;;
  let '(c, inp1) := r in
  if negb (Ascii.eqb c ESC_CHAR) then Some (int_of_char c, inp1)
  else
    match read_byte inp1 with
    | (None, inp2) => Some (KEY_ESC, inp2)
    | (Some s0, inp2) =>
        match read_byte inp2 with
        | (None, inp3) => Some (KEY_ESC, inp3)
        | (Some s1, inp3) =>
            if byte_is s0 "[" then
              if isdigit s1 then
                match read_byte inp3 with
                | (None, inp4) => Some (KEY_ESC, inp4)
                | (Some s2, inp4) =>
                    Some (if byte_is s2 "~" then or_esc (tilde_key s1)
                          else KEY_ESC, inp4)
                end
              else Some (or_esc (letter_key s1), inp3)
            else if byte_is s0 "O" then Some (or_esc (o_key s1), inp3)
            else Some (KEY_ESC, inp3)
        end
    end.

End ReadKey.

(** ** Dispatching the keys *)

(** The program with the static [quitTimes] of [_processKeypress]. *)
Record Session : Type := mkSession {
  prog : Program;
  quitTimes : Z
}.

Definition EDIT_QUIT_TIMES : Z := 3.

Definition Session_new : Session := mkSession Program_new EDIT_QUIT_TIMES.

(** [exit(0)], or the program going on. *)
Inductive Outcome : Type :=
  | Exited
  | Running (S : Session).

Section Dispatch.

Variable past_end : bytes.
Variable depth : nat.

(** [while (times--) _moveCursor(key)] *)
Fixpoint move_times (n : nat) (E : Editor) (k : Z) : option Editor :=
  match n with
  | O => Some E
  | S n' => E1 <- _moveCursor E k ;; move_times n' E1 k
  end.

(** The rounds of [int times = _screenRows; while (times--)]: a
    negative counter goes down to the least [int], wraps to the
    greatest and reaches 0 from there. *)
Definition rounds (times : Z) : nat :=
  Z.to_nat (if times <? 0 then times + 2 ^ 32 else times).

(** [_processKeypress()]: [keys] are the keys that [_readKey] returns,
    the first of which this call reads; [capacity] is
    [_rows.capacity()] and [disk] what the file system does if the key
    saves.  The result is the outcome, the unread keys and what [_save]
    wrote, if it ran. *)
Definition _processKeypress (capacity : nat) (disk : Disk) (S : Session)
  (keys : list Z) : option (Outcome * list Z * option bytes) :=
  match keys with
  | [] => None
  | c :: rest =>
      let P := prog S in
      let E := ed P in
      let numRows := len (_rows E) in
      let go (E' : option Editor) :=
        E1 <- E' ;;
        Some (Running (mkSession (with_ed P E1) EDIT_QUIT_TIMES), rest, None) in
      if c =? KEY_RETURN then go (_insertNewLine past_end depth capacity E)
      else if c =? CTRL_KEY 113 then
        if negb (_dirty E =? 0) && (quitTimes S >? 0)
        then Some (Running (mkSession P (quitTimes S - 1)), rest, None)
        else Some (Exited, rest, None)
      else if c =? CTRL_KEY 115 then
        r <- _save past_end depth disk P rest ;;
        let '(P1, rest1, written) := r in
        Some (Running (mkSession P1 EDIT_QUIT_TIMES), rest1, written)
      else if c =? HOME_KEY then go (Some (with_cursor E 0 (_cy E)))
      else if c =? END_KEY then
        go (if _cy E <? numRows
            then row <- at_ (_rows E) (_cy E) ;;
                 Some (with_cursor E (size row) (_cy E))
            else Some E)
      else if c =? CTRL_KEY 102 then
        r <- _find P rest ;;
        let '(P1, rest1) := r in
        Some (Running (mkSession P1 EDIT_QUIT_TIMES), rest1, None)
      else if (c =? BACKSPACE) || (c =? CTRL_KEY 104) || (c =? DEL_KEY) then
        go (E1 <- (if c =? DEL_KEY then _moveCursor E ARROW_RIGHT else Some E) ;;
            _delChar past_end depth E1)
      else if (c =? PAGE_UP) || (c =? PAGE_DOWN) then
        let E1 :=
          if c =? PAGE_UP then with_cursor E (_cx E) (_rowOffset E)
          else
            let y := _rowOffset E + _screenRows E - 1 in
            with_cursor E (_cx E) (if y >? numRows then numRows else y) in
        go (move_times (rounds (_screenRows E)) E1
              (if c =? PAGE_UP then ARROW_UP else ARROW_DOWN))
      else if (c =? ARROW_UP) || (c =? ARROW_DOWN) || (c =? ARROW_LEFT)
              || (c =? ARROW_RIGHT) then go (_moveCursor E c)
      else if (c =? CTRL_KEY 108) || (c =? KEY_ESC) then go (Some E)
      else go (_insertChar past_end depth E c)
  end.

End Dispatch.

(** ** Quantities used to state the properties *)

(** The measure that every iteration of the scan loop decreases. *)
Definition scan_measure (rend : bytes) (st : Scan) : nat :=
  2 * (List.length rend - s_i st) + (if s_prevSep st then 1 else 0).

(** Whether the iteration that starts in [st] reaches the keyword test
    with [prevSep] set and evaluates [keywords[j]] with [j] outside the
    vector. *)
Definition reads_past_end (syn : Syntax) (rsz : nat) (rend : bytes) (st : Scan)
  : bool :=
  match nth_error rend (s_i st) with
  | Some c =>
      match scan_early syn rsz rend st c with
      | Some _ => false
      | None =>
          s_prevSep st
          && match nth_error (keywords syn)
                     (fst (fst (kw_loop (keywords syn) 0 rend (s_i st) (s_hl st))))
             with
             | None => true
             | Some _ => false
             end
      end
  | None => false
  end.

(** Every row's [idx] is its position in [_rows]. *)
Fixpoint idx_from (n : Z) (rs : list Row) : Prop :=
  match rs with
  | [] => True
  | r :: t => idx r = n /\ idx_from (n + 1) t
  end.

Definition idx_contiguous (E : Editor) : Prop := idx_from 0 (_rows E).

(** The fields of a row that the highlighter never writes. *)
Definition row_text (r : Row) : Z * Z * Z * bytes * bytes :=
  (idx r, size r, rsize r, chars r, render r).

(** The bytes of a row and their count. *)
Definition row_bytes (r : Row) : bytes * Z := (chars r, size r).

(** [size] and [rsize] are the lengths of [chars] and [render]. *)
Definition row_rendered (r : Row) : Prop :=
  size r = len (chars r) /\ rsize r = len (render r).

(** ... and [hl] has one entry for every byte of [render]. *)
Definition row_sized (r : Row) : Prop :=
  row_rendered r /\ len (hl r) = rsize r.

Definition rows_sized (E : Editor) : Prop := Forall row_sized (_rows E).

(** ** More quantities used to state the properties *)

(** The cursor is on a row of the buffer and inside it, or at the
    start of the row one past the last. *)
Definition cursor_valid (E : Editor) : Prop :=
  0 <= _cy E <= len (_rows E) /\ 0 <= _cx E
  /\ (forall row, at_ (_rows E) (_cy E) = Some row -> _cx E <= size row)
  /\ (_cy E = len (_rows E) -> _cx E = 0).

(** [render] and [rsize] are what [_update] derives from [chars]. *)
Definition row_fresh (ts : Z) (r : Row) : Prop :=
  render_loop ts (chars r) (Z.to_nat (size r)) [] 0 = Some (render r, rsize r).

Definition rows_fresh (E : Editor) : Prop :=
  Forall (row_fresh (_tabStop E)) (_rows E).

(** The state of a buffer whose rows are numbered by position and
    derived from their bytes. *)
Definition buffer_ok (E : Editor) : Prop :=
  0 < _tabStop E /\ idx_contiguous E /\ rows_sized E /\ rows_fresh E.

(** The bytes of the escape sequence that a terminal sends for a key
    of [Editor::Key] other than [BACKSPACE]. *)
Definition key_sequence (k : Z) : option bytes :=
  if k =? ARROW_UP then Some (esc "[A")
  else if k =? ARROW_DOWN then Some (esc "[B")
  else if k =? ARROW_RIGHT then Some (esc "[C")
  else if k =? ARROW_LEFT then Some (esc "[D")
  else if k =? HOME_KEY then Some (esc "[1~")
  else if k =? DEL_KEY then Some (esc "[3~")
  else if k =? END_KEY then Some (esc "[4~")
  else if k =? PAGE_UP then Some (esc "[5~")
  else if k =? PAGE_DOWN then Some (esc "[6~")
  else None.


(** The single operations that change the buffer, as a step relation. *)
Inductive mutation (past_end : bytes) (depth : nat) : Editor -> Editor -> Prop :=
  | mut_insertRow E s a E' :
      _insertRow past_end depth E s a = Some E' -> mutation past_end depth E E'
  | mut_delRow E a E' :
      _delRow E a = Some E' -> mutation past_end depth E E'
  | mut_rowInsertChar E p a c E' :
      _rowInsertChar past_end depth E p a c = Some E' ->
      mutation past_end depth E E'
  | mut_rowAppendString E p s E' :
      _rowAppendString past_end depth E p s = Some E' ->
      mutation past_end depth E E'
  | mut_rowDelChar E p a E' :
      _rowDelChar past_end depth E p a = Some E' -> mutation past_end depth E E'
  | mut_insertChar E c E' :
      _insertChar past_end depth E c = Some E' -> mutation past_end depth E E'
  | mut_insertNewLine E capacity E' :
      _insertNewLine past_end depth capacity E = Some E' ->
      mutation past_end depth E E'
  | mut_delChar E E' :
      _delChar past_end depth E = Some E' -> mutation past_end depth E E'
  | mut_updateSyntax E fuel p E' :
      _updateSyntax past_end fuel E p = Some E' -> mutation past_end depth E E'
  | mut_update E i E' :
      _update past_end depth E i = Some E' -> mutation past_end depth E E'.

(** Any number of them, one after the other. *)
Inductive mutations (past_end : bytes) (depth : nat) : Editor -> Editor -> Prop :=
  | muts_refl E : mutations past_end depth E E
  | muts_step E E1 E2 :
      mutation past_end depth E E1 -> mutations past_end depth E1 E2 ->
      mutations past_end depth E E2.

(** [_moveCursor] in its two parts: where the [switch] puts the
    cursor, and the clamp to the length of the row that follows it. *)
Definition arrow_target (E : Editor) (key : Z) : option (Z * Z) :=
  if key =? ARROW_LEFT then
    if negb (_cx E =? 0) then Some (_cx E - 1, _cy E)
    else if _cy E >? 0 then
      r <- at_ (_rows E) (_cy E - 1) ;; Some (size r, _cy E - 1)
    else Some (_cx E, _cy E)
  else if key =? ARROW_RIGHT then
    if _cy E <? len (_rows E) then
      r <- at_ (_rows E) (_cy E) ;;
      if _cx E <? size r then Some (_cx E + 1, _cy E)
      else if _cx E =? size r then Some (0, _cy E + 1)
      else Some (_cx E, _cy E)
    else Some (_cx E, _cy E)
  else if key =? ARROW_UP then
    if negb (_cy E =? 0) then Some (_cx E, _cy E - 1) else Some (_cx E, _cy E)
  else if key =? ARROW_DOWN then
    if _cy E <? len (_rows E) then Some (_cx E, _cy E + 1)
    else Some (_cx E, _cy E)
  else Some (_cx E, _cy E).

(** The clamp at the end of [_moveCursor]. *)
Definition snap (E : Editor) : option Editor :=
  rowlen <- (if _cy E <? len (_rows E)
             then r <- at_ (_rows E) (_cy E) ;; Some (size r)
             else Some 0) ;;
  Some (if _cx E >? rowlen then with_cursor E rowlen (_cy E) else E).

(** The row with the bytes of the match marked. *)
Definition match_row (row : Row) (off : nat) (query : bytes) : Row :=
  set_hl row (memset (hl row) off (List.length query) HL_MATCH)
    (hl_open_comment row).




(** ** Concrete files and sessions *)

(** The file [a LF b LF]. *)
Definition file_a_b : bytes := B "a" ++ [LF] ++ B "b" ++ [LF].

(** The file [a LF]. *)
Definition file_a : bytes := B "a" ++ [LF].

(** Three lines, the first of which holds a NUL byte: [a NUL b]. *)
Definition file_nul : bytes :=
  [ "a"%char; NUL; "b"%char; LF; "c"%char; LF; "d"%char; LF ].

(** Three lines of which only the second holds the letter [c]. *)
Definition file_search : bytes :=
  B "one" ++ [LF] ++ B "a comment" ++ [LF] ++ B "two" ++ [LF].

(** The file [ab LF c LF d LF]. *)
Definition file_ab_c_d : bytes :=
  B "ab" ++ [LF] ++ B "c" ++ [LF] ++ B "d" ++ [LF].

(** The C file [1 LF 2 LF]. *)
Definition file_1_2 : bytes := B "1" ++ [LF] ++ B "2" ++ [LF].

Definition key (c : ascii) : Z := Z.of_nat (nat_of_ascii c).

(** The row [a TAB b] as [_insertRow] stores it and [_update] renders it. *)
Definition tab_row : Row :=
  mkRow 0 3 5 [ "a"%char; TAB; "b"%char ] (B "a   b") (repeat HL_NORMAL 5) false.

Definition tab_editor : Editor := with_rows Editor_new [tab_row].

(** The cursor behind the tab of [tab_row], with the view scrolled
    nine columns to the right and three rows down. *)
Definition scrolled_editor : Editor :=
  with_view (with_cursor tab_editor 2 0) 0 3 9.

(** The scan of the C row [int x;] when it arrives at the [x]. *)
Definition x_state : Scan :=
  mkScan 4 true None false
    [HL_KEYWORD2; HL_KEYWORD2; HL_KEYWORD2; HL_NORMAL; HL_NORMAL; HL_NORMAL].

(** The C file [/* LF x LF y LF] as [open] loads it. *)
Definition file_comment : bytes :=
  B "/*" ++ [LF] ++ B "x" ++ [LF] ++ B "y" ++ [LF].

Definition or_new (o : option Editor) : Editor :=
  match o with Some E => E | None => Editor_new end.

Definition c_buffer : Editor :=
  or_new (open [] 4 Editor_new (B "a.c") file_comment).

(** [c_buffer] with the bytes of row 0 taken away and the row rendered
    again, before it is highlighted again. *)
Definition c_buffer_cleared : Editor :=
  or_new (row <- nth_error (_rows c_buffer) 0 ;;
          render_row (with_rows c_buffer
                        (set_at (_rows c_buffer) 0 (set_chars row [] 0))) 0).

(** The file [ab LF c LF d LF] as [open] loads it, and with the cursor
    behind the [a]. *)
Definition text_buffer : Editor :=
  or_new (open [] 4 Editor_new (B "notes.txt") file_ab_c_d).

Definition text_buffer_at_1 : Editor := with_cursor text_buffer 1 0.

(** The file [one LF a comment LF two LF] as [open] loads it. *)
Definition search_buffer : Editor :=
  or_new (open [] 4 Editor_new (B "notes.txt") file_search).


(** The fresh editor on a terminal of two rows: [_windowSize] takes two
    rows off for the status and message bars, which leaves no text row. *)
Definition two_row_terminal : Editor :=
  mkEditor 0 0 0 0 0 0 80 0 [] None [] 4.

(** A terminal that reports no column. *)
Definition no_column_terminal : Editor :=
  mkEditor 0 0 0 0 0 23 0 0 [] None [] 4.

(** * Properties *)

(** ** Basic facts about the containers *)

Lemma bytes_eqb_eq (a b : bytes) : bytes_eqb a b = true <-> a = b.
Proof.
  revert b; induction a as [|x a IH]; intros [|y b]; simpl; split;
    try congruence; try reflexivity.
  - intros H. apply andb_true_iff in H as [Hx Hab].
    apply Ascii.eqb_eq in Hx. apply IH in Hab. congruence.
  - intros H. injection H as -> ->.
    apply andb_true_iff. split; [apply Ascii.eqb_refl | now apply IH].
Qed.

Lemma memset_length (l : list Highlight) (i n : nat) (v : Highlight) :
  List.length (memset l i n v) = List.length l.
Proof.
  revert i n; induction l as [|x l IH]; intros i n; simpl.
  - now destruct i.
  - destruct i as [|i]; [destruct n|]; simpl; now rewrite ?IH.
Qed.

Lemma set_at_length {A} (v : list A) (p : nat) (x : A) :
  List.length (set_at v p x) = List.length v.
Proof.
  revert p; induction v as [|y v IH]; intros [|p]; simpl; auto.
Qed.

Lemma set_at_same {A} (v : list A) (p : nat) (x y : A) :
  nth_error v p = Some y -> nth_error (set_at v p x) p = Some x.
Proof.
  revert p; induction v as [|z v IH]; intros [|p]; simpl; try discriminate; auto.
Qed.

Lemma set_at_other {A} (v : list A) (p q : nat) (x : A) :
  p <> q -> nth_error (set_at v p x) q = nth_error v q.
Proof.
  revert p q; induction v as [|z v IH]; intros [|p] [|q] H; simpl; auto;
    try congruence.
Qed.

Lemma at_spec {A} (v : list A) (i : Z) (x : A) :
  at_ v i = Some x <-> 0 <= i /\ nth_error v (Z.to_nat i) = Some x.
Proof.
  unfold at_. destruct (Z.ltb_spec i 0); split.
  - discriminate.
  - intros [? _]; lia.
  - auto.
  - now intros [_ ?].
Qed.

Lemma at_lt {A} (v : list A) (i : Z) (x : A) :
  at_ v i = Some x -> 0 <= i < len v.
Proof.
  intros H. apply at_spec in H as [H0 H].
  assert (Hn : nth_error v (Z.to_nat i) <> None) by congruence.
  apply nth_error_Some in Hn. unfold len. lia.
Qed.

Lemma at_some {A} (v : list A) (i : Z) :
  0 <= i < len v -> exists x, at_ v i = Some x.
Proof.
  intros [H0 H1]. unfold at_. destruct (Z.ltb_spec i 0); [lia|].
  destruct (nth_error v (Z.to_nat i)) eqn:Hn; [eauto|].
  apply nth_error_None in Hn. unfold len in H1. lia.
Qed.

(** ** Coordinate mapping: the two walks are inverse *)

Section TabMapping.

Variable ts : Z.
Hypothesis ts_pos : 0 < ts.

Lemma advance_rx_grows (c : ascii) (rx : Z) :
  0 <= rx -> exists rx', advance_rx ts c rx = Some rx' /\ rx < rx'.
Proof.
  intros Hrx. unfold advance_rx.
  destruct (Ascii.eqb c TAB).
  - destruct (Z.eqb_spec ts 0); [lia|].
    eexists; split; [reflexivity|].
    pose proof (Z.rem_bound_pos rx ts Hrx ts_pos). lia.
  - eexists; split; [reflexivity | lia].
Qed.

Lemma cx_to_rx_loop_total (n : nat) : forall (cs : bytes) (rx : Z),
  (n <= List.length cs)%nat -> 0 <= rx ->
  exists r, cx_to_rx_loop ts cs n rx = Some r /\ rx + Z.of_nat n <= r.
Proof.
  induction n as [|n IH]; intros cs rx Hn Hrx.
  - exists rx. simpl. split; [reflexivity | lia].
  - destruct cs as [|c cs]; [simpl in Hn; lia|].
    simpl in Hn |- *.
    destruct (advance_rx_grows c rx Hrx) as (rx' & -> & Hlt). simpl.
    destruct (IH cs rx') as (r & Hr & Hle); [lia | lia |].
    exists r. split; [assumption | lia].
Qed.

Lemma rx_to_cx_after_cx_to_rx (c : nat) :
  forall (m : nat) (cs : bytes) (cx0 rx0 rx : Z),
  (c <= m)%nat -> (m <= List.length cs)%nat -> 0 <= rx0 ->
  cx_to_rx_loop ts cs c rx0 = Some rx ->
  rx_to_cx_loop ts cs m cx0 rx0 rx = Some (cx0 + Z.of_nat c).
Proof.
  induction c as [|c IH]; intros m cs cx0 rx0 rx Hcm Hm Hrx0 Hwalk.
  - simpl in Hwalk. injection Hwalk as <-.
    destruct m as [|m]; simpl; [f_equal; lia|].
    destruct cs as [|ch cs]; [simpl in Hm; lia|].
    destruct (advance_rx_grows ch rx0 Hrx0) as (cur & -> & Hlt). simpl.
    destruct (Z.gtb_spec cur rx0); [f_equal; lia | lia].
  - destruct m as [|m]; [lia|].
    destruct cs as [|ch cs]; [simpl in Hm; lia|].
    simpl in Hwalk, Hm |- *.
    destruct (advance_rx_grows ch rx0 Hrx0) as (cur & Hcur & Hlt).
    rewrite Hcur in Hwalk |- *. simpl in Hwalk |- *.
    destruct (cx_to_rx_loop_total c cs cur) as (r & Hr & Hge); [lia | lia |].
    rewrite Hr in Hwalk. injection Hwalk as <-.
    destruct (Z.gtb_spec cur r); [lia|].
    rewrite (IH m cs (cx0 + 1) cur r); [f_equal; lia | lia | lia | lia | assumption].
Qed.

End TabMapping.

(** C6: for a row of the buffer and a character column [c] between 0
    and the row's length, mapping [c] to its render column with
    [_rowCxToRx] and mapping that back with [_rowRxToCx] gives [c]
    again.  ([_tabStop] is positive: the constructor sets it to 4.) *)
Theorem tab_mapping_inverse (E : Editor) (rowId : Z) (row : Row) (c : Z) :
  at_ (_rows E) rowId = Some row ->
  size row = len (chars row) ->
  0 < _tabStop E ->
  0 <= c <= size row ->
  exists rx, _rowCxToRx E rowId c = Some rx
             /\ _rowRxToCx E rowId rx = Some c.
Proof.
  intros Hrow Hsize Hts [Hc0 Hc1].
  unfold _rowCxToRx, _rowRxToCx. rewrite Hrow. simpl.
  unfold len in Hsize.
  destruct (cx_to_rx_loop_total (_tabStop E) Hts (Z.to_nat c) (chars row) 0)
    as (rx & Hrx & _); [lia | lia |].
  exists rx. split; [assumption|].
  rewrite (rx_to_cx_after_cx_to_rx (_tabStop E) Hts (Z.to_nat c)
             (Z.to_nat (size row)) (chars row) 0 0 rx); [f_equal; lia | lia | lia | lia | assumption].
Qed.

(** ** Scroll computation *)

Lemma scroll_render_column (E : Editor) :
  0 < _tabStop E ->
  (forall row, at_ (_rows E) (_cy E) = Some row -> _cx E <= len (chars row)) ->
  exists rx,
    (if (0 <=? _cy E) && (_cy E <? len (_rows E))
     then _rowCxToRx E (_cy E) (_cx E) else Some 0) = Some rx.
Proof.
  intros Hts Hcur.
  destruct ((0 <=? _cy E) && (_cy E <? len (_rows E))) eqn:Hin; [|eauto].
  apply andb_true_iff in Hin as [H0 H1].
  apply Z.leb_le in H0. apply Z.ltb_lt in H1.
  destruct (at_some (_rows E) (_cy E)) as (row & Hrow); [lia|].
  unfold _rowCxToRx. rewrite Hrow. simpl.
  specialize (Hcur row Hrow). unfold len in Hcur.
  destruct (cx_to_rx_loop_total (_tabStop E) Hts (Z.to_nat (_cx E)) (chars row) 0)
    as (rx & Hrx & _); [lia | lia | eauto].
Qed.

(** C9: with a screen of at least one row and one column, [_scroll]
    stores in [_rx] the render column of the cursor ([0] when [_cy] is
    not a row), changes nothing but [_rx] and the two offsets, and
    leaves the cursor row inside [[_rowOffset, _rowOffset + _screenRows)]
    and the render column inside [[_colOffset, _colOffset + _screenCols)];
    an offset whose window already holds the cursor is left unchanged,
    and no other offset that shows the cursor is nearer to the old one. *)
Theorem scroll_keeps_cursor_in_window (E : Editor) :
  0 < _screenRows E -> 0 < _screenCols E -> 0 < _tabStop E ->
  (forall row, at_ (_rows E) (_cy E) = Some row -> _cx E <= len (chars row)) ->
  exists E',
    _scroll E = Some E'
    /\ E' = with_view E (_rx E') (_rowOffset E') (_colOffset E')
    /\ (if (0 <=? _cy E) && (_cy E <? len (_rows E))
        then _rowCxToRx E (_cy E) (_cx E) else Some 0) = Some (_rx E')
    /\ _cx E' = _cx E /\ _cy E' = _cy E
    /\ _screenRows E' = _screenRows E /\ _screenCols E' = _screenCols E
    /\ _rowOffset E' <= _cy E' < _rowOffset E' + _screenRows E'
    /\ _colOffset E' <= _rx E' < _colOffset E' + _screenCols E'
    /\ (_rowOffset E <= _cy E < _rowOffset E + _screenRows E ->
        _rowOffset E' = _rowOffset E)
    /\ (_colOffset E <= _rx E' < _colOffset E + _screenCols E ->
        _colOffset E' = _colOffset E)
    /\ (forall o, o <= _cy E < o + _screenRows E ->
        Z.abs (_rowOffset E' - _rowOffset E) <= Z.abs (o - _rowOffset E))
    /\ (forall o, o <= _rx E' < o + _screenCols E ->
        Z.abs (_colOffset E' - _colOffset E) <= Z.abs (o - _colOffset E)).
Proof.
  intros Hsr Hsc Hts Hcur.
  destruct (scroll_render_column E Hts Hcur) as (rx & Hrx).
  unfold _scroll. rewrite Hrx. simpl.
  eexists. split; [reflexivity|]. simpl.
  split; [reflexivity|]. split; [reflexivity|].
  destruct (Z.ltb_spec (_cy E) (_rowOffset E));
    destruct (Z.ltb_spec rx (_colOffset E));
    repeat match goal with
           | |- context [?a >=? ?b] => destruct (Z.geb_spec a b)
           end;
    repeat split; intros; lia.
Qed.

(** ** The scan of one row *)

Lemma substr_fits (s t : bytes) (i n : nat) :
  substr s i n = t -> List.length t = n -> (i <= List.length s)%nat ->
  (i + n <= List.length s)%nat.
Proof.
  intros <- Hlen Hi. unfold substr in Hlen.
  rewrite length_firstn, length_skipn in Hlen. lia.
Qed.

Lemma nonzero_pos (s : bytes) : nonzero s = true -> (1 <= List.length s)%nat.
Proof.
  unfold nonzero. destruct (Nat.eqb_spec (List.length s) 0); simpl; [discriminate | lia].
Qed.

Lemma kw_len_le (k : bytes) : (kw_len k <= List.length k)%nat.
Proof. unfold kw_len. destruct (is_kw2 k); lia. Qed.

Lemma kw_match_fits (k rend : bytes) (i : nat) :
  kw_match k rend i = true -> (i <= List.length rend)%nat ->
  (i + kw_len k <= List.length rend)%nat.
Proof.
  unfold kw_match. intros H Hi. apply andb_true_iff in H as [H _].
  apply bytes_eqb_eq in H.
  apply (substr_fits rend _ i (kw_len k) H); [|assumption].
  unfold substr. simpl. rewrite length_firstn. pose proof (kw_len_le k). lia.
Qed.

Lemma kw_loop_miss (kws : list bytes) : forall (j : nat) (rend : bytes) (i : nat)
  (h : list Highlight),
  (forall k, In k kws -> kw_match k rend i = false) ->
  kw_loop kws j rend i h = ((j + List.length kws)%nat, i, h).
Proof.
  induction kws as [|k kws IH]; intros j rend i h Hmiss; simpl.
  - now rewrite Nat.add_0_r.
  - rewrite (Hmiss k) by now left.
    rewrite IH by (intros k' Hk'; apply Hmiss; now right).
    now rewrite Nat.add_succ_r.
Qed.

Lemma kw_loop_bounds (kws : list bytes) : forall (j : nat) (rend : bytes)
  (i : nat) (h : list Highlight) (j' i' : nat) (h' : list Highlight),
  kw_loop kws j rend i h = (j', i', h') -> (i <= List.length rend)%nat ->
  (i <= i' <= List.length rend)%nat /\ List.length h' = List.length h.
Proof.
  induction kws as [|k kws IH]; intros j rend i h j' i' h' Hk Hi; simpl in Hk.
  - injection Hk as <- <- <-. lia.
  - destruct (kw_match k rend i) eqn:Hm.
    + injection Hk as <- <- <-. rewrite memset_length.
      pose proof (kw_match_fits k rend i Hm Hi). lia.
    + eapply IH; eassumption.
Qed.

Section ScanFacts.

Variable past_end : bytes.
Variable syn : Syntax.
Variable rend : bytes.

(** Each of the first four rules moves the position forward, stays
    inside the row and keeps the length of [hl]. *)
Lemma scan_early_moves (st : Scan) (c : ascii) (f : Flow) :
  (s_i st < List.length rend)%nat ->
  scan_early syn (List.length rend) rend st c = Some f ->
  List.length (s_hl (flow_scan f)) = List.length (s_hl st)
  /\ (s_i (flow_scan f) <= List.length rend)%nat
  /\ match f with
     | Break s => s_i s = s_i st
     | Next s => (s_i st < s_i s)%nat
     end.
Proof.
  intros Hi. unfold scan_early.
  destruct (nonzero (singleLineCommentStart syn) && _ && _ && _) eqn:H1.
  { intros [= <-]. simpl. rewrite memset_length. lia. }
  destruct (nonzero (multiLineCommentStart syn) && nonzero (multilineCommentEnd syn)
            && _ && s_inComment st) eqn:H2.
  { apply andb_true_iff in H2 as [H2 _]. apply andb_true_iff in H2 as [H2 _].
    apply andb_true_iff in H2 as [_ H2]. apply nonzero_pos in H2.
    destruct (bytes_eqb _ (multilineCommentEnd syn)) eqn:H3.
    - intros [= <-]. simpl. rewrite !memset_length.
      apply bytes_eqb_eq in H3.
      pose proof (substr_fits _ _ _ _ H3 eq_refl). lia.
    - intros [= <-]. simpl. rewrite memset_length. lia. }
  destruct (nonzero (multiLineCommentStart syn) && nonzero (multilineCommentEnd syn)
            && _ && bytes_eqb _ (multiLineCommentStart syn)) eqn:H3.
  { apply andb_true_iff in H3 as [H3 H4]. apply andb_true_iff in H3 as [H3 _].
    apply andb_true_iff in H3 as [H3 _]. apply nonzero_pos in H3.
    apply bytes_eqb_eq in H4.
    intros [= <-]. simpl. rewrite memset_length.
    pose proof (substr_fits _ _ _ _ H4 eq_refl). lia. }
  destruct (if negb (Z.land (flags syn) HIGHLIGHT_STRINGS =? 0)
            then s_inString st else None) as [q|].
  { destruct (Ascii.eqb c BACKSLASH && (s_i st + 1 <? List.length rend)%nat) eqn:H4.
    - apply andb_true_iff in H4 as [_ H4]. apply Nat.ltb_lt in H4.
      intros [= <-]. simpl. rewrite !memset_length. lia.
    - intros [= <-]. simpl. rewrite memset_length. lia. }
  destruct (negb (Z.land (flags syn) HIGHLIGHT_STRINGS =? 0) && _).
  { intros [= <-]. simpl. rewrite memset_length. lia. }
  destruct (negb (Z.land (flags syn) HIGHLIGHT_NUMBERS =? 0) && _).
  { intros [= <-]. simpl. rewrite memset_length. lia. }
  discriminate.
Qed.

(** The keyword test either moves forward, or leaves the position
    where it is and clears [prevSep]. *)
Lemma scan_keyword_moves (st : Scan) (c : ascii) :
  (s_i st < List.length rend)%nat ->
  exists s, scan_keyword past_end syn rend st c = Next s
    /\ List.length (s_hl s) = List.length (s_hl st)
    /\ (s_i s <= List.length rend)%nat
    /\ ((s_i st < s_i s)%nat
        \/ (s_i s = s_i st /\ s_prevSep st = true /\ s_prevSep s = false)).
Proof.
  intros Hi. unfold scan_keyword.
  destruct (s_prevSep st) eqn:Hps; simpl.
  - destruct (kw_loop (keywords syn) 0 rend (s_i st) (s_hl st)) as [[j i1] h1] eqn:Hk.
    destruct (kw_loop_bounds _ _ _ _ _ _ _ _ Hk) as [[Hlo Hhi] Hlen]; [lia|].
    destruct (kw_post_test past_end (keywords syn) j) eqn:Hpost.
    + eexists; split; [reflexivity|]. simpl.
      repeat split; try assumption. lia.
    + (* fall through to [i++]: the loop matched nothing, or only moved [i] *)
      eexists; split; [reflexivity|]. simpl.
      assert (Hmiss : i1 = s_i st).
      { clear Hlo Hhi Hlen. unfold kw_post_test in Hpost.
        revert Hk Hpost. generalize (s_hl st) as h.
        assert (Hgen : forall kws j0 h,
                   kw_loop kws j0 rend (s_i st) h = (j, i1, h1) ->
                   (forall k, nth_error kws (j - j0) = Some k ->
                              (j0 <= j)%nat -> bytes_eqb k [] = true) ->
                   i1 = s_i st).
        { induction kws as [|k kws IH]; intros j0 h Hk Hnil; simpl in Hk.
          - now injection Hk as _ <- _.
          - destruct (kw_match k rend (s_i st)) eqn:Hm.
            + injection Hk as <- <- <-.
              specialize (Hnil k). rewrite Nat.sub_diag in Hnil.
              specialize (Hnil eq_refl (Nat.le_refl _)).
              apply bytes_eqb_eq in Hnil. subst k.
              unfold kw_len. simpl. lia.
            + apply (IH (S j0) h Hk). intros k' Hk' Hle.
              apply Hnil; [|lia].
              replace (j - j0)%nat with (S (j - S j0)) by lia. exact Hk'. }
        intros h Hk Hpost. apply (Hgen (keywords syn) 0%nat h Hk).
        intros k Hk' _. rewrite Nat.sub_0_r in Hk'. rewrite Hk' in Hpost.
        now apply negb_false_iff in Hpost. }
      subst i1. repeat split; try assumption; try lia.
  - eexists; split; [reflexivity|]. simpl. repeat split; try lia.
Qed.

Lemma scan_step_moves (st : Scan) :
  (s_i st < List.length rend)%nat ->
  exists f, scan_step past_end syn (List.length rend) rend st = Some f
    /\ List.length (s_hl (flow_scan f)) = List.length (s_hl st)
    /\ (s_i (flow_scan f) <= List.length rend)%nat
    /\ match f with
       | Break s => s_i s = s_i st
       | Next s => (s_i st < s_i s)%nat
                   \/ (s_i s = s_i st /\ s_prevSep st = true /\ s_prevSep s = false)
       end.
Proof.
  intros Hi. unfold scan_step.
  destruct (nth_error rend (s_i st)) as [c|] eqn:Hc.
  2:{ apply nth_error_None in Hc. lia. }
  simpl.
  destruct (scan_early syn (List.length rend) rend st c) as [f|] eqn:He.
  - destruct (scan_early_moves st c f Hi He) as (Hl & Hr & Hm).
    exists f. repeat split; try assumption.
    destruct f; [assumption | now left].
  - destruct (scan_keyword_moves st c Hi) as (s & -> & Hl & Hr & Hm).
    exists (Next s). repeat split; assumption.
Qed.

Lemma scan_loop_total (fuel : nat) : forall st : Scan,
  (scan_measure rend st <= fuel)%nat -> (s_i st <= List.length rend)%nat ->
  exists s, scan_loop past_end fuel syn (List.length rend) rend st = Some s
    /\ List.length (s_hl s) = List.length (s_hl st)
    /\ (s_i s <= List.length rend)%nat.
Proof.
  induction fuel as [|fuel IH]; intros st Hm Hi; simpl.
  - destruct (Nat.leb_spec (List.length rend) (s_i st)); [eauto|].
    unfold scan_measure in Hm. lia.
  - destruct (Nat.leb_spec (List.length rend) (s_i st)); [eauto|].
    destruct (scan_step_moves st) as (f & -> & Hl & Hr & Hmv); [lia|]. simpl.
    destruct f as [s|s]; simpl in Hl, Hr.
    + eauto.
    + destruct (IH s) as (s' & Hs' & Hl' & Hr'); [|assumption|].
      * unfold scan_measure in *.
        destruct Hmv as [Hmv|(Hmv & Hp & Hp')]; [|rewrite Hp in Hm; rewrite Hp'];
          destruct (s_prevSep s); destruct (s_prevSep st); lia.
      * exists s'. repeat split; [assumption | congruence | assumption].
Qed.

(** The scan of a row whose [rsize] is the length of [render] always
    ends, within the [2 * rsize + 1] iterations that [scan] allows, and
    leaves [hl] with the length it had. *)
Lemma scan_total (h0 : list Highlight) (inComment : bool) :
  exists s, scan past_end syn (List.length rend) rend h0 inComment = Some s
    /\ List.length (s_hl s) = List.length h0
    /\ (s_i s <= List.length rend)%nat.
Proof.
  unfold scan.
  apply (scan_loop_total (2 * List.length rend + 1) (scan_init h0 inComment)).
  - unfold scan_measure, scan_init. simpl. lia.
  - simpl. lia.
Qed.

End ScanFacts.

(** ** The keyword test *)

(** C10: at a scan position that reaches the keyword test with
    [prevSep] set and where no keyword of the list matches, the loop
    ends with [j] equal to the length of the list, so the iteration
    of the scan tests [keywords[j]] against the empty string with [j]
    out of the bounds of the vector (the lookup gives [None]), and what
    the iteration does next is decided by the value read past the end:
    when that value is the empty string the scan moves to the next
    byte, otherwise it clears [prevSep] and stays where it is.  Such a
    position is reached in ordinary C rows: the scan of [int x;]
    arrives at it at the [x] that follows the space. *)
Theorem keyword_miss_reads_past_end (past_end : bytes) (syn : Syntax)
  (rsz : nat) (rend : bytes) (st : Scan) (c : ascii) :
  nth_error rend (s_i st) = Some c ->
  scan_early syn rsz rend st c = None ->
  s_prevSep st = true ->
  (forall k, In k (keywords syn) -> kw_match k rend (s_i st) = false) ->
  let j := fst (fst (kw_loop (keywords syn) 0 rend (s_i st) (s_hl st))) in
  j = List.length (keywords syn)
  /\ nth_error (keywords syn) j = None
  /\ reads_past_end syn rsz rend st = true
  /\ kw_post_test past_end (keywords syn) j = negb (bytes_eqb past_end [])
  /\ scan_step past_end syn rsz rend st
     = Some (scan_keyword past_end syn rend st c)
  /\ scan_keyword past_end syn rend st c
     = (if bytes_eqb past_end []
        then Next (mkScan (s_i st + 1) (isSeparator c) (s_inString st)
                     (s_inComment st) (s_hl st))
        else Next (mkScan (s_i st) false (s_inString st) (s_inComment st)
                     (s_hl st)))
  /\ existsb (reads_past_end C_syntax 6 (B "int x;"))
       (scan_trace past_end 13 C_syntax 6 (B "int x;")
          (scan_init (repeat HL_NORMAL 6) false)) = true
  /\ In x_state (scan_trace past_end 13 C_syntax 6 (B "int x;")
                   (scan_init (repeat HL_NORMAL 6) false))
  /\ scan_step past_end C_syntax 6 (B "int x;") x_state
     = Some (Next (mkScan (if bytes_eqb past_end [] then 5 else 4) false None
                     false (s_hl x_state))).
Proof.
  intros Hc Hearly Hps Hmiss j.
  assert (Hloop : kw_loop (keywords syn) 0 rend (s_i st) (s_hl st)
                  = (List.length (keywords syn), s_i st, s_hl st))
    by exact (kw_loop_miss _ _ _ _ _ Hmiss).
  assert (Hj : j = List.length (keywords syn)).
  { unfold j. now rewrite Hloop. }
  assert (Hnone : nth_error (keywords syn) j = None).
  { apply nth_error_None. lia. }
  assert (Hpost : kw_post_test past_end (keywords syn) j
                  = negb (bytes_eqb past_end [])).
  { unfold kw_post_test. now rewrite Hnone. }
  split; [|split; [|split; [|split; [|split; [|split; [|split; [|split]]]]]]].
  - exact Hj.
  - exact Hnone.
  - unfold reads_past_end. rewrite Hc, Hearly, Hps. fold j. now rewrite Hnone.
  - exact Hpost.
  - unfold scan_step. rewrite Hc. cbn [bind]. now rewrite Hearly.
  - unfold scan_keyword. rewrite Hps, Hloop. cbn [andb].
    rewrite Hj in Hpost. rewrite Hpost.
    now destruct (bytes_eqb past_end []).
  - destruct past_end; vm_compute; reflexivity.
  - destruct past_end; vm_compute; do 2 right; left; reflexivity.
  - destruct past_end; vm_compute; reflexivity.
Qed.

(** ** Row numbering *)

Lemma idx_from_dec (rs : list Row) : forall n : Z,
  idx_from (n + 1) rs ->
  idx_from n (map (fun r => set_idx r (idx r - 1)) rs).
Proof.
  induction rs as [|r rs IH]; intros n; simpl; [trivial|].
  intros [Hr Hrs]. split; [lia | now apply IH].
Qed.

Lemma idx_from_erase (rs : list Row) : forall (p : nat) (n : Z),
  idx_from n rs ->
  idx_from n (firstn p rs
              ++ map (fun r => set_idx r (idx r - 1)) (skipn (S p) rs)).
Proof.
  induction rs as [|r rs IH]; intros p n H.
  - now destruct p.
  - destruct H as [Hr Hrs]. destruct p as [|p]; simpl.
    + now apply idx_from_dec.
    + split; [assumption | now apply IH].
Qed.

Lemma vec_erase_firstn {A} (v : list A) (p : nat) :
  (p <= List.length v)%nat -> firstn p (vec_erase v p) = firstn p v.
Proof.
  intros Hp. unfold vec_erase.
  rewrite firstn_app, length_firstn, Nat.min_l by assumption.
  rewrite Nat.sub_diag. simpl. rewrite app_nil_r.
  apply firstn_all2. rewrite length_firstn. lia.
Qed.

Lemma vec_erase_skipn {A} (v : list A) (p : nat) :
  (p <= List.length v)%nat -> skipn p (vec_erase v p) = skipn (S p) v.
Proof.
  intros Hp. unfold vec_erase.
  rewrite skipn_app, length_firstn, Nat.min_l by assumption.
  rewrite Nat.sub_diag. simpl.
  rewrite skipn_all2; [reflexivity|]. rewrite length_firstn. lia.
Qed.

(** [_delRow] always returns, and renumbers: rows whose [idx] were
    their positions before the deletion still are afterwards. *)
Lemma delRow_keeps_idx_contiguous (E : Editor) (at' : Z) :
  idx_contiguous E ->
  exists E', _delRow E at' = Some E' /\ idx_contiguous E'.
Proof.
  intros H. unfold _delRow.
  destruct ((at' <? 0) || (at' >=? len (_rows E))) eqn:Hout; [eauto|].
  apply orb_false_iff in Hout as [H0 H1].
  apply Z.ltb_ge in H0. destruct (Z.geb_spec at' (len (_rows E))); [discriminate|].
  eexists. split; [reflexivity|].
  unfold idx_contiguous. simpl. unfold len in *.
  rewrite vec_erase_firstn, vec_erase_skipn by lia.
  now apply idx_from_erase.
Qed.

Lemma idx_from_nth (rs : list Row) : forall (n : Z) (p : nat) (r : Row),
  idx_from n rs -> nth_error rs p = Some r -> idx r = n + Z.of_nat p.
Proof.
  induction rs as [|x rs IH]; intros n p r H Hp.
  - now destruct p.
  - destruct H as [Hx Hrs]. destruct p as [|p]; simpl in Hp.
    + injection Hp as <-. lia.
    + rewrite (IH (n + 1) p r Hrs Hp). lia.
Qed.

Lemma idx_from_text (rs rs' : list Row) : forall n : Z,
  map row_text rs' = map row_text rs -> idx_from n rs -> idx_from n rs'.
Proof.
  revert rs'. induction rs as [|r rs IH]; intros [|r' rs'] n Hmap H;
    simpl in *; try discriminate; [trivial|].
  injection Hmap as Hr _ _ _ _ Hrs. destruct H as [Hi H].
  split; [congruence | now apply IH].
Qed.

(** ** The highlighter writes [hl] and the comment state, nothing else *)

Lemma rendered_text (rs rs' : list Row) :
  map row_text rs' = map row_text rs ->
  Forall row_rendered rs -> Forall row_rendered rs'.
Proof.
  revert rs'. induction rs as [|r rs IH]; intros [|r' rs'] Hmap H;
    simpl in *; try discriminate; constructor.
  - injection Hmap as _ Hsz Hrsz Hch Hre _.
    inversion H as [|? ? [Ha Hb] _]; subst.
    unfold row_rendered. rewrite Hsz, Hrsz, Hch, Hre. now split.
  - injection Hmap as _ _ _ _ _ Hrs. inversion H; subst. now apply IH.
Qed.

Lemma map_set_at {A C} (f : A -> C) (v : list A) (p : nat) (x y : A) :
  nth_error v p = Some y -> f x = f y -> map f (set_at v p x) = map f v.
Proof.
  revert p; induction v as [|z v IH]; intros [|p] Hp Hf; simpl in *;
    try discriminate.
  - injection Hp as ->. now rewrite Hf.
  - now rewrite IH.
Qed.

Lemma Forall_set_at {A} (P : A -> Prop) (v : list A) (p : nat) (x : A) :
  Forall P v -> P x -> Forall P (set_at v p x).
Proof.
  intros Hv Hx. revert p; induction Hv as [|z v Hz Hv IH]; intros [|p]; simpl;
    constructor; auto.
Qed.

Lemma with_rows_twice (E : Editor) (a b : list Row) :
  with_rows (with_rows E a) b = with_rows E b.
Proof. reflexivity. Qed.

Section HighlighterFacts.

Variable past_end : bytes.

(** What one pass does to the editor: it replaces [hl] and the comment
    state of row [p]; when [rsize] is the length of [render], the new
    [hl] has that length too. *)
Lemma update_one_rows (E E' : Editor) (p : nat) (q : option nat) :
  update_one past_end E p = Some (E', q) ->
  exists row h oc,
    nth_error (_rows E) p = Some row
    /\ E' = with_rows E (set_at (_rows E) p (set_hl row h oc))
    /\ (rsize row = len (render row) -> len h = rsize row).
Proof.
  unfold update_one.
  destruct (nth_error (_rows E) p) as [row|] eqn:Hrow; [simpl | discriminate].
  destruct (_syntax E) as [syn|].
  - destruct (if idx row >? 0 then _ else _) as [ic|]; [simpl | discriminate].
    destruct (scan past_end syn (Z.to_nat (rsize row)) (render row) _ ic)
      as [st|] eqn:Hscan; [simpl | discriminate].
    intros Hres. exists row, (s_hl st), (s_inComment st).
    split; [reflexivity|]. split.
    + destruct (_ && _ && _); now injection Hres as <- _.
    + intros Hsz. unfold len in Hsz |- *.
      replace (Z.to_nat (rsize row)) with (List.length (render row)) in Hscan by lia.
      destruct (scan_total past_end syn (render row)
                  (repeat HL_NORMAL (List.length (render row))) ic)
        as (s & Hs & Hlen & _).
      rewrite Hs in Hscan. injection Hscan as ->.
      rewrite Hlen, repeat_length. lia.
  - intros [= <- _]. exists row, (repeat HL_NORMAL (Z.to_nat (rsize row))),
      (hl_open_comment row).
    split; [reflexivity|]. split; [reflexivity|].
    intros Hsz. unfold len in Hsz |- *. rewrite repeat_length. lia.
Qed.

Lemma update_one_text (E E' : Editor) (p : nat) (q : option nat) :
  update_one past_end E p = Some (E', q) ->
  exists rs, E' = with_rows E rs /\ map row_text rs = map row_text (_rows E).
Proof.
  intros H. destruct (update_one_rows E E' p q H) as (row & h & oc & Hrow & -> & _).
  eexists. split; [reflexivity|].
  now apply map_set_at with (y := row).
Qed.

Lemma updateSyntax_text (fuel : nat) : forall (E E' : Editor) (p : nat),
  _updateSyntax past_end fuel E p = Some E' ->
  exists rs, E' = with_rows E rs /\ map row_text rs = map row_text (_rows E).
Proof.
  induction fuel as [|fuel IH]; intros E E' p; simpl;
    destruct (update_one past_end E p) as [[E1 [q|]]|] eqn:H1; simpl;
    try discriminate.
  - intros [= <-]. exact (update_one_text E E1 p None H1).
  - intros H2. destruct (update_one_text E E1 p (Some q) H1) as (rs1 & -> & Hm1).
    destruct (IH _ _ _ H2) as (rs2 & -> & Hm2).
    exists rs2. rewrite with_rows_twice. split; [reflexivity|].
    simpl in Hm2. congruence.
  - intros [= <-]. exact (update_one_text E E1 p None H1).
Qed.

Lemma update_one_sized (E E' : Editor) (p : nat) (q : option nat) (row : Row) :
  update_one past_end E p = Some (E', q) ->
  nth_error (_rows E) p = Some row -> row_rendered row ->
  (forall p' r, p' <> p -> nth_error (_rows E) p' = Some r -> row_sized r) ->
  rows_sized E'.
Proof.
  intros H Hrow Hrend Hothers.
  destruct (update_one_rows E E' p q H) as (row' & h & oc & Hrow' & -> & Hlen).
  rewrite Hrow in Hrow'. injection Hrow' as <-.
  unfold rows_sized. simpl. apply Forall_forall. intros r Hr.
  apply In_nth_error in Hr as [p' Hr].
  destruct (Nat.eq_dec p p') as [<-|Hne].
  - rewrite (set_at_same _ _ _ _ Hrow) in Hr. injection Hr as <-.
    split; [exact Hrend|]. simpl. apply Hlen. apply Hrend.
  - rewrite set_at_other in Hr by assumption. eapply Hothers; eauto.
Qed.

Lemma rows_sized_nth (E : Editor) (p : nat) (r : Row) :
  rows_sized E -> nth_error (_rows E) p = Some r -> row_sized r.
Proof.
  intros H Hp. unfold rows_sized in H. rewrite Forall_forall in H.
  apply H. eapply nth_error_In; eauto.
Qed.

(** [len(hl) == rsize == len(render)] is kept by every highlight pass,
    cascade included. *)
Lemma updateSyntax_sized (fuel : nat) : forall (E E' : Editor) (p : nat),
  rows_sized E -> _updateSyntax past_end fuel E p = Some E' -> rows_sized E'.
Proof.
  induction fuel as [|fuel IH]; intros E E' p Hs; simpl;
    destruct (update_one past_end E p) as [[E1 [q|]]|] eqn:H1; simpl;
    try discriminate;
    destruct (update_one_rows E E1 p _ H1) as (row & _ & _ & Hrow & _ & _);
    assert (H1s : rows_sized E1)
      by (apply (update_one_sized E E1 p _ row H1 Hrow);
          [apply (rows_sized_nth E p row Hs Hrow)
          | intros p' r _ Hr; apply (rows_sized_nth E p' r Hs Hr)]).
  - now intros [= <-].
  - intros H2. exact (IH _ _ _ H1s H2).
  - now intros [= <-].
Qed.

(** With every [idx] equal to its position the cascade always returns:
    it scans the rows [p], [p + 1], ... in order and stops inside the
    buffer, within a recursion depth of the number of rows after [p]. *)
Lemma updateSyntax_total (fuel : nat) : forall (E : Editor) (p : nat),
  idx_contiguous E -> Forall row_rendered (_rows E) ->
  (p < List.length (_rows E))%nat ->
  (List.length (_rows E) - p <= S fuel)%nat ->
  exists E' k,
    _updateSyntax past_end fuel E p = Some E'
    /\ cascade_trace past_end fuel E p = seq p (S k)
    /\ (p + k < List.length (_rows E))%nat.
Proof.
  induction fuel as [|fuel IH]; intros E p Hidx Hrend Hp Hfuel.
  all: destruct (nth_error (_rows E) p) as [row|] eqn:Hrow;
    [|apply nth_error_None in Hrow; lia].
  all: pose proof (idx_from_nth _ 0 p row Hidx Hrow) as Hi; simpl in Hi.
  all: assert (Hone : exists E1 q, update_one past_end E p = Some (E1, q)
                       /\ (q = None \/ (q = Some (S p)
                                        /\ (S p < List.length (_rows E))%nat))).
  1,3: unfold update_one; rewrite Hrow; simpl;
    destruct (_syntax E) as [syn|]; [|eauto];
    assert (Hic : exists ic, (if idx row >? 0
                              then prev <- at_ (_rows E) (idx row - 1) ;;
                                   Some (hl_open_comment prev)
                              else Some false) = Some ic)
      by (destruct (Z.gtb_spec (idx row) 0); [|eauto];
          destruct (at_some (_rows E) (idx row - 1)) as (prev & ->);
          [unfold len; lia | simpl; eauto]);
    destruct Hic as (ic & ->); simpl;
    assert (Hrr : rsize row = len (render row))
      by (rewrite Forall_forall in Hrend;
          apply (Hrend row (nth_error_In _ _ Hrow)));
    unfold len in Hrr;
    replace (Z.to_nat (rsize row)) with (List.length (render row)) by lia;
    destruct (scan_total past_end syn (render row)
                (repeat HL_NORMAL (List.length (render row))) ic)
      as (st & -> & _); simpl;
    destruct (_ && (0 <=? idx row + 1) && (idx row + 1 <? len (_rows E))) eqn:Hc;
    [|eauto];
    apply andb_true_iff in Hc as [_ Hc]; apply Z.ltb_lt in Hc; unfold len in Hc;
    do 2 eexists; (split; [reflexivity|]); right;
    (split; [f_equal; lia | lia]).
  all: destruct Hone as (E1 & q & H1 & Hq).
  - (* no fuel: [p] is the last row *)
    exists E1, 0%nat. simpl. rewrite H1. simpl.
    destruct Hq as [->|(-> & Hlt)]; [|lia].
    repeat split; lia.
  - destruct Hq as [->|(-> & Hlt)].
    + exists E1, 0%nat. simpl. rewrite H1. simpl. repeat split; lia.
    + destruct (update_one_text E E1 p _ H1) as (rs & -> & Hm).
      assert (Hlen : List.length rs = List.length (_rows E))
        by (rewrite <- (length_map row_text rs), Hm; apply length_map).
      destruct (IH (with_rows E rs) (S p)) as (E' & k & Hrec & Htr & Hk).
      * unfold idx_contiguous. simpl. now apply (idx_from_text (_rows E)).
      * simpl. now apply (rendered_text (_rows E)).
      * simpl. lia.
      * simpl. lia.
      * exists E', (S k). simpl. rewrite H1. simpl.
        simpl in Hk, Htr. rewrite Hrec, Htr.
        repeat split; lia.
Qed.

End HighlighterFacts.

(** ** Every mutation keeps [size], [rsize] and the length of [hl] right *)

Tactic Notation "bind_inv" hyp(H) "as" ident(x) ident(Hx) :=
  match type of H with
  | bind ?m _ = Some _ =>
      destruct m as [x|] eqn:Hx; [simpl in H | discriminate H]
  end.

Lemma pad_loop_len (fuel : nat) (ts : Z) : forall (rend : bytes) (i : Z)
  (rend' : bytes) (i' : Z),
  pad_loop fuel ts rend i = (rend', i') -> i = len rend -> i' = len rend'.
Proof.
  induction fuel as [|fuel IH]; intros rend i rend' i' H Hi; simpl in H.
  - injection H as <- <-. exact Hi.
  - destruct (Z.rem i ts =? 0).
    + injection H as <- <-. exact Hi.
    + apply (IH _ _ _ _ H). unfold len in *. rewrite length_app. simpl. lia.
Qed.

Lemma render_loop_len (ts : Z) (n : nat) : forall (cs rend : bytes) (i : Z)
  (rend' : bytes) (i' : Z),
  render_loop ts cs n rend i = Some (rend', i') -> i = len rend ->
  i' = len rend'.
Proof.
  induction n as [|n IH]; intros cs rend i rend' i' H Hi; simpl in H.
  - injection H as <- <-. exact Hi.
  - destruct cs as [|c cs]; [discriminate|].
    assert (Hstep : i + 1 = len (rend ++ [SPACE]))
      by (unfold len in *; rewrite length_app; simpl; lia).
    destruct (Ascii.eqb c TAB).
    + destruct (ts =? 0); [discriminate|].
      destruct (pad_loop (Z.to_nat (Z.abs ts)) ts (rend ++ [SPACE]) (i + 1))
        as [r1 i1] eqn:Hpad.
      apply (IH _ _ _ _ _ H). exact (pad_loop_len _ _ _ _ _ _ Hpad Hstep).
    + apply (IH _ _ _ _ _ H). unfold len in *. rewrite length_app. simpl. lia.
Qed.

(** The padding loop ends at a tab stop: its budget is never the
    reason it stops. *)
Lemma pad_loop_stops (ts : Z) (fuel : nat) : forall (rend : bytes) (i : Z),
  0 < ts -> 0 <= i ->
  (exists k, 0 <= k <= Z.of_nat fuel /\ (i + k) mod ts = 0) ->
  Z.rem (snd (pad_loop fuel ts rend i)) ts = 0.
Proof.
  induction fuel as [|fuel IH]; intros rend i Hts Hi (k & [Hk0 Hk1] & Hk); simpl.
  - replace k with 0 in Hk by lia. rewrite Z.add_0_r in Hk.
    now rewrite Z.rem_mod_nonneg by lia.
  - destruct (Z.eqb_spec (Z.rem i ts) 0) as [H0|Hne]; [exact H0|].
    apply IH; [assumption | lia |].
    exists (k - 1). split.
    + assert (k <> 0); [|lia]. intros ->. rewrite Z.add_0_r in Hk.
      rewrite Z.rem_mod_nonneg in Hne by lia. contradiction.
    + now replace (i + 1 + (k - 1)) with (i + k) by lia.
Qed.

Lemma pad_loop_reaches_tab_stop (ts : Z) (rend : bytes) (i : Z) :
  0 < ts -> 0 <= i ->
  Z.rem (snd (pad_loop (Z.to_nat (Z.abs ts)) ts rend i)) ts = 0.
Proof.
  intros Hts Hi. apply pad_loop_stops; [assumption | assumption |].
  exists ((ts - i mod ts) mod ts).
  pose proof (Z.mod_pos_bound i ts Hts).
  pose proof (Z.mod_pos_bound (ts - i mod ts) ts Hts).
  split; [lia|].
  rewrite Zplus_mod_idemp_r.
  replace (i + (ts - i mod ts)) with (i - i mod ts + 1 * ts) by lia.
  rewrite Z.mod_add by lia.
  rewrite Zminus_mod_idemp_r, Z.sub_diag. apply Z.mod_0_l. lia.
Qed.

Lemma resize_length (s : bytes) (n : nat) : List.length (resize s n) = n.
Proof.
  unfold resize. rewrite length_app, length_firstn, repeat_length. lia.
Qed.

Lemma Forall_firstn_skipn {A} (P : A -> Prop) (v : list A) (n : nat) :
  Forall P v -> Forall P (firstn n v) /\ Forall P (skipn n v).
Proof.
  intros Hv. rewrite <- (firstn_skipn n v) in Hv. now apply Forall_app in Hv.
Qed.

Lemma vec_insert_Forall {A} (P : A -> Prop) (v : list A) (p : nat) (x : A) :
  Forall P v -> P x -> Forall P (vec_insert v p x).
Proof.
  intros Hv Hx. unfold vec_insert.
  destruct (Forall_firstn_skipn P v p Hv) as [Hf Hk].
  apply Forall_app. split; [assumption | now constructor].
Qed.

Lemma vec_erase_Forall {A} (P : A -> Prop) (v : list A) (p : nat) :
  Forall P v -> Forall P (vec_erase v p).
Proof.
  intros Hv. unfold vec_erase. apply Forall_app. split.
  - apply (Forall_firstn_skipn P v p Hv).
  - apply (Forall_firstn_skipn P v (S p) Hv).
Qed.

Lemma vec_erase_length {A} (v : list A) (p : nat) :
  (p < List.length v)%nat -> List.length (vec_erase v p) = (List.length v - 1)%nat.
Proof.
  intros Hp. unfold vec_erase. rewrite length_app, length_firstn, length_skipn. lia.
Qed.

Section SizedFacts.

Variable past_end : bytes.
Variable depth : nat.

Lemma updateSyntax_sized_at (fuel : nat) (E E' : Editor) (p : nat) (row : Row) :
  nth_error (_rows E) p = Some row -> row_rendered row ->
  (forall p' r, p' <> p -> nth_error (_rows E) p' = Some r -> row_sized r) ->
  _updateSyntax past_end fuel E p = Some E' -> rows_sized E'.
Proof.
  intros Hrow Hrend Hothers H.
  destruct fuel as [|fuel]; simpl in H;
    destruct (update_one past_end E p) as [[E1 [q|]]|] eqn:H1; simpl in H;
    try discriminate;
    pose proof (update_one_sized past_end E E1 p _ row H1 Hrow Hrend Hothers) as H1s.
  - now injection H as <-.
  - exact (updateSyntax_sized past_end fuel _ _ _ H1s H).
  - now injection H as <-.
Qed.

Lemma update_sized (E E' : Editor) (rowIndex : Z) :
  rows_sized E -> _update past_end depth E rowIndex = Some E' -> rows_sized E'.
Proof.
  intros Hs H. unfold _update in H. bind_inv H as E1 HE1.
  unfold render_row in HE1. bind_inv HE1 as row Hrow.
  bind_inv HE1 as r Hr. destruct r as [rend i]. injection HE1 as <-.
  apply at_spec in Hrow as [_ Hrow].
  pose proof (rows_sized_nth E _ row Hs Hrow) as [[Hsz _] _].
  pose proof (render_loop_len _ _ _ _ _ _ _ Hr eq_refl) as Hi.
  eapply updateSyntax_sized_at; [| | | exact H].
  - simpl. apply (set_at_same _ _ _ _ Hrow).
  - split; simpl; assumption.
  - simpl. intros p' r' Hne Hr'. rewrite set_at_other in Hr' by congruence.
    exact (rows_sized_nth E p' r' Hs Hr').
Qed.

Lemma set_chars_sized (r : Row) (cs : bytes) (sz : Z) :
  row_sized r -> sz = len cs -> row_sized (set_chars r cs sz).
Proof. intros [[_ Hr] Hh] Hsz. repeat split; assumption. Qed.

Lemma insertRow_sized (E E' : Editor) (s : bytes) (at' : Z) :
  rows_sized E -> _insertRow past_end depth E s at' = Some E' -> rows_sized E'.
Proof.
  intros Hs H. unfold _insertRow in H.
  destruct ((at' >=? 0) && (at' <=? len (_rows E))); [|now injection H as <-].
  bind_inv H as E1 HE1. injection H as <-.
  apply update_sized in HE1; [exact HE1|].
  unfold rows_sized. simpl. apply vec_insert_Forall; [exact Hs|].
  repeat split.
Qed.

Lemma delRow_sized (E E' : Editor) (at' : Z) :
  rows_sized E -> _delRow E at' = Some E' -> rows_sized E'.
Proof.
  intros Hs H. unfold _delRow in H.
  destruct ((at' <? 0) || (at' >=? len (_rows E))); injection H as <-;
    [exact Hs|].
  unfold rows_sized in *. simpl.
  pose proof (vec_erase_Forall _ _ (Z.to_nat at') Hs) as He.
  destruct (Forall_firstn_skipn _ _ (Z.to_nat at') He) as [Hf Hk].
  apply Forall_app. split; [exact Hf|].
  apply Forall_map. eapply Forall_impl; [|exact Hk].
  intros r [[Ha Hb] Hc]. repeat split; assumption.
Qed.

Lemma rowInsertChar_sized (E E' : Editor) (p : nat) (at' c : Z) :
  rows_sized E -> _rowInsertChar past_end depth E p at' c = Some E' ->
  rows_sized E'.
Proof.
  intros Hs H. unfold _rowInsertChar in H. bind_inv H as row Hrow.
  set (a := if (at' <? 0) || (at' >? size row) then size row else at') in *.
  destruct ((a <? 0) || (a >? len (chars row))) eqn:Ha; [discriminate|].
  apply orb_false_iff in Ha as [Ha0 Ha1]. apply Z.ltb_ge in Ha0.
  destruct (Z.gtb_spec a (len (chars row))); [discriminate|].
  bind_inv H as E1 HE1. injection H as <-.
  pose proof (rows_sized_nth E p row Hs Hrow) as Hsized.
  apply update_sized in HE1; [exact HE1|].
  unfold rows_sized. simpl. apply Forall_set_at; [exact Hs|].
  apply set_chars_sized; [exact Hsized|].
  destruct Hsized as [[Hsz _] _]. unfold len in *.
  rewrite length_app. simpl. rewrite length_firstn, length_skipn. lia.
Qed.

Lemma rowAppendString_sized (E E' : Editor) (p : nat) (s : bytes) :
  rows_sized E -> _rowAppendString past_end depth E p s = Some E' ->
  rows_sized E'.
Proof.
  intros Hs H. unfold _rowAppendString in H. bind_inv H as row Hrow.
  bind_inv H as E1 HE1. injection H as <-.
  pose proof (rows_sized_nth E p row Hs Hrow) as Hsized.
  apply update_sized in HE1; [exact HE1|].
  unfold rows_sized. simpl. apply Forall_set_at; [exact Hs|].
  apply set_chars_sized; [exact Hsized|].
  destruct Hsized as [[Hsz _] _]. unfold len in *. rewrite length_app. lia.
Qed.

Lemma rowDelChar_sized (E E' : Editor) (p : nat) (at' : Z) :
  rows_sized E -> _rowDelChar past_end depth E p at' = Some E' ->
  rows_sized E'.
Proof.
  intros Hs H. unfold _rowDelChar in H. bind_inv H as row Hrow.
  destruct ((at' <? 0) || (at' >=? size row)) eqn:Ha; [now injection H as <-|].
  apply orb_false_iff in Ha as [Ha0 Ha1]. apply Z.ltb_ge in Ha0.
  destruct (Z.geb_spec at' (size row)); [discriminate|].
  bind_inv H as E1 HE1. injection H as <-.
  pose proof (rows_sized_nth E p row Hs Hrow) as Hsized.
  apply update_sized in HE1; [exact HE1|].
  unfold rows_sized. simpl. apply Forall_set_at; [exact Hs|].
  apply set_chars_sized; [exact Hsized|].
  destruct Hsized as [[Hsz _] _]. unfold len in *.
  rewrite vec_erase_length by lia. lia.
Qed.

Lemma insertChar_sized (E E' : Editor) (c : Z) :
  rows_sized E -> _insertChar past_end depth E c = Some E' -> rows_sized E'.
Proof.
  intros Hs H. unfold _insertChar in H. bind_inv H as E1 HE1.
  assert (Hs1 : rows_sized E1).
  { destruct (_cy E =? len (_rows E)).
    - exact (insertRow_sized _ _ _ _ Hs HE1).
    - now injection HE1 as <-. }
  bind_inv H as row Hrow. bind_inv H as E2 HE2. injection H as <-.
  exact (rowInsertChar_sized _ _ _ _ _ Hs1 HE2).
Qed.

Lemma update_cursor (E E' : Editor) (rowIndex : Z) :
  _update past_end depth E rowIndex = Some E' ->
  _cx E' = _cx E /\ _cy E' = _cy E.
Proof.
  intros H. unfold _update in H. bind_inv H as E1 HE1.
  apply updateSyntax_text in H as (rs & -> & _).
  unfold render_row in HE1. bind_inv HE1 as row Hrow. bind_inv HE1 as r Hr.
  destruct r. injection HE1 as <-. now split.
Qed.

Lemma insertRow_cursor (E E' : Editor) (s : bytes) (at' : Z) :
  _insertRow past_end depth E s at' = Some E' ->
  _cx E' = _cx E /\ _cy E' = _cy E.
Proof.
  intros H. unfold _insertRow in H.
  destruct ((at' >=? 0) && (at' <=? len (_rows E))); [|now injection H as <-].
  bind_inv H as E1 HE1. injection H as <-.
  apply update_cursor in HE1. exact HE1.
Qed.

Lemma insertNewLine_sized (capacity : nat) (E E' : Editor) :
  rows_sized E -> _insertNewLine past_end depth capacity E = Some E' ->
  rows_sized E'.
Proof.
  intros Hs H. unfold _insertNewLine in H. bind_inv H as E3 HE3.
  injection H as <-. change (rows_sized E3).
  destruct (_cx E =? 0); [exact (insertRow_sized _ _ _ _ Hs HE3)|].
  bind_inv HE3 as row Hrow.
  destruct ((_cx E <? 0) || (_cx E >? len (chars row))) eqn:Hcx; [discriminate|].
  apply orb_false_iff in Hcx as [Hc0 _]. apply Z.ltb_ge in Hc0.
  cbv zeta in HE3.
  bind_inv HE3 as E1 HE1. bind_inv HE3 as row1 Hrow1.
  pose proof (insertRow_sized _ _ _ _ Hs HE1) as Hs1.
  destruct (insertRow_cursor _ _ _ _ HE1) as [Hcx1 _].
  apply at_spec in Hrow1 as [_ Hrow1].
  pose proof (rows_sized_nth E1 _ row1 Hs1 Hrow1) as Hr1.
  destruct (capacity <=? List.length (_rows E))%nat;
    [exact (update_sized _ _ _ Hs1 HE3)|].
  apply update_sized in HE3; [exact HE3|].
  unfold rows_sized. simpl. apply Forall_set_at; [exact Hs1|].
  apply set_chars_sized; [exact Hr1|].
  unfold len. rewrite resize_length. lia.
Qed.

Lemma delChar_sized (E E' : Editor) :
  rows_sized E -> _delChar past_end depth E = Some E' -> rows_sized E'.
Proof.
  intros Hs H. unfold _delChar in H.
  destruct (_cy E =? len (_rows E)); [now injection H as <-|].
  destruct ((_cx E =? 0) && (_cy E =? 0)); [now injection H as <-|].
  bind_inv H as row Hrow. destruct (_cx E >? 0).
  - bind_inv H as E1 HE1. injection H as <-.
    exact (rowDelChar_sized _ _ _ _ Hs HE1).
  - bind_inv H as prev Hprev. bind_inv H as E1 HE1. bind_inv H as E2 HE2.
    injection H as <-.
    apply delRow_sized in HE2; [exact HE2|].
    exact (rowAppendString_sized (with_cursor E (size prev) (_cy E)) _ _ _ Hs HE1).
Qed.

End SizedFacts.

(** ** What load and save do to the bytes of a file *)

Lemma text_chars (rs rs' : list Row) :
  map row_text rs' = map row_text rs -> map chars rs' = map chars rs.
Proof.
  intros H.
  assert (Hc : forall l, map chars l = map (fun t => snd (fst t)) (map row_text l)).
  { intros l. rewrite map_map. reflexivity. }
  now rewrite !Hc, H.
Qed.

Lemma map_vec_insert {A C} (f : A -> C) (v : list A) (p : nat) (x : A) :
  map f (vec_insert v p x) = vec_insert (map f v) p (f x).
Proof.
  unfold vec_insert. now rewrite map_app, firstn_map, skipn_map.
Qed.

Lemma map_vec_erase {A C} (f : A -> C) (v : list A) (p : nat) :
  map f (vec_erase v p) = vec_erase (map f v) p.
Proof.
  unfold vec_erase. now rewrite map_app, firstn_map, skipn_map.
Qed.

Lemma map_set_at_gen {A C} (f : A -> C) (v : list A) (p : nat) (x : A) :
  map f (set_at v p x) = set_at (map f v) p (f x).
Proof.
  revert p; induction v as [|z v IH]; intros [|p]; simpl; auto.
  now rewrite IH.
Qed.

Lemma vec_insert_end {A} (v : list A) (x : A) :
  vec_insert v (List.length v) x = v ++ [x].
Proof.
  unfold vec_insert. now rewrite firstn_all, skipn_all.
Qed.

Lemma strip_eol_rev_incl (r : bytes) (c : ascii) :
  In c (strip_eol_rev r) -> In c r.
Proof.
  induction r as [|x r IH]; simpl; [trivial|].
  destruct (is_eol x); [intros H; right; now apply IH | trivial].
Qed.

(** What [getline] returns holds a newline only as its last byte. *)
Lemma getlines_shape (s : bytes) : forall (cur l : bytes),
  ~ In LF cur -> In l (getlines s cur) ->
  exists body, ~ In LF body /\ (l = body \/ l = body ++ [LF]).
Proof.
  induction s as [|c s IH]; intros cur l Hcur Hl; simpl in Hl.
  - destruct cur; [contradiction|]. destruct Hl as [<-|[]]. eauto.
  - destruct (Ascii.eqb c LF) eqn:Hc.
    + apply Ascii.eqb_eq in Hc. subst c. destruct Hl as [<-|Hl].
      * eauto.
      * apply (IH [] l); [intros [] | exact Hl].
    + apply (IH (cur ++ [c]) l); [|exact Hl].
      intros Hin. apply in_app_or in Hin as [Hin|[Heq|[]]]; [now apply Hcur|].
      rewrite Heq, Ascii.eqb_refl in Hc. discriminate.
Qed.

Lemma strip_eol_no_newline (s : bytes) (cur l : bytes) :
  ~ In LF cur -> In l (getlines s cur) -> ~ In LF (strip_eol l).
Proof.
  intros Hcur Hl Hin.
  destruct (getlines_shape s cur l Hcur Hl) as (body & Hbody & [->| ->]);
    unfold strip_eol in Hin; apply in_rev in Hin.
  - apply strip_eol_rev_incl in Hin. apply in_rev in Hin. contradiction.
  - rewrite rev_app_distr in Hin. simpl in Hin.
    apply strip_eol_rev_incl in Hin. apply in_rev in Hin. contradiction.
Qed.

Section LoadSaveFacts.

Variable past_end : bytes.
Variable depth : nat.

Lemma update_chars (E E' : Editor) (rowIndex : Z) :
  _update past_end depth E rowIndex = Some E' ->
  map chars (_rows E') = map chars (_rows E).
Proof.
  intros H. unfold _update in H. bind_inv H as E1 HE1.
  apply updateSyntax_text in H as (rs & -> & Hm). simpl.
  rewrite (text_chars _ _ Hm).
  unfold render_row in HE1. bind_inv HE1 as row Hrow. bind_inv HE1 as r Hr.
  destruct r. injection HE1 as <-. simpl.
  apply at_spec in Hrow as [_ Hrow].
  now apply map_set_at with (y := row).
Qed.

Lemma insertRow_chars (E E' : Editor) (s : bytes) (at' : Z) :
  0 <= at' <= len (_rows E) ->
  _insertRow past_end depth E s at' = Some E' ->
  map chars (_rows E') = vec_insert (map chars (_rows E)) (Z.to_nat at') s.
Proof.
  intros [H0 H1] H. unfold _insertRow in H.
  destruct (Z.geb_spec at' 0); [|lia].
  destruct (Z.leb_spec at' (len (_rows E))); [|lia]. simpl in H.
  bind_inv H as E1 HE1. injection H as <-. simpl.
  rewrite (update_chars _ _ _ HE1). simpl. apply map_vec_insert.
Qed.

Lemma load_lines_chars (ls : list bytes) : forall (E E' : Editor),
  load_lines past_end depth ls E = Some E' ->
  map chars (_rows E') = map chars (_rows E) ++ map strip_eol ls.
Proof.
  induction ls as [|l ls IH]; intros E E' H; simpl in H.
  - injection H as <-. now rewrite app_nil_r.
  - bind_inv H as E1 HE1. rewrite (IH _ _ H).
    rewrite (insertRow_chars _ _ _ _ (conj (Zle_0_nat _) (Z.le_refl _)) HE1).
    unfold len. rewrite Nat2Z.id.
    rewrite <- (length_map chars), vec_insert_end, <- app_assoc. reflexivity.
Qed.

Lemma selectSyntaxHighlight_empty (E E' : Editor) :
  _rows E = [] -> _selectSyntaxHighlight past_end depth E = Some E' ->
  _rows E' = [].
Proof.
  intros Hrows H. unfold _selectSyntaxHighlight in H.
  destruct (len (_filename (with_syntax E None)) =? 0); [now injection H as <-|].
  destruct (rfind_dot _); [|now injection H as <-].
  destruct (find _ HLDB); [|now injection H as <-].
  simpl in H. rewrite Hrows in H. simpl in H. now injection H as <-.
Qed.

(** What [_save] writes after [open]: the lines of the file, each
    without its terminator, one after the other. *)
Lemma open_saved_bytes (E0 E : Editor) (filename content : bytes) :
  _rows E0 = [] ->
  open past_end depth E0 filename content = Some E ->
  saved_bytes (_rows E) = List.concat (map strip_eol (getlines content [])).
Proof.
  intros Hrows H. unfold open in H. bind_inv H as E1 HE1. bind_inv H as E2 HE2.
  injection H as <-. simpl.
  apply selectSyntaxHighlight_empty in HE1; [|exact Hrows].
  unfold saved_bytes. rewrite (load_lines_chars _ _ _ HE2), HE1. reflexivity.
Qed.

(** The saved bytes hold no newline at all, so no file with a newline
    in it comes back from [open] followed by [_save]. *)
Lemma open_saved_no_newline (E0 E : Editor) (filename content : bytes) :
  _rows E0 = [] ->
  open past_end depth E0 filename content = Some E ->
  ~ In LF (saved_bytes (_rows E))
  /\ (In LF content -> saved_bytes (_rows E) <> content).
Proof.
  intros Hrows H.
  assert (Hno : ~ In LF (saved_bytes (_rows E))).
  { rewrite (open_saved_bytes _ _ _ _ Hrows H). intros Hin.
    apply in_concat in Hin as (l & Hl & Hin).
    apply in_map_iff in Hl as (l0 & <- & Hl0).
    exact (strip_eol_no_newline content [] l0 (fun F => F) Hl0 Hin). }
  split; [exact Hno | congruence].
Qed.

End LoadSaveFacts.

(** ** Split followed by merge, on rows without NUL bytes *)

Lemma until_nul_id (s : bytes) : ~ In NUL s -> until_nul s = s.
Proof.
  induction s as [|c s IH]; simpl; [reflexivity|]. intros H.
  destruct (Ascii.eqb c NUL) eqn:Hc.
  - apply Ascii.eqb_eq in Hc. exfalso. apply H. now left.
  - f_equal. apply IH. intros Hin. apply H. now right.
Qed.

Lemma text_bytes (rs rs' : list Row) :
  map row_text rs' = map row_text rs -> map row_bytes rs' = map row_bytes rs.
Proof.
  intros H.
  assert (Hc : forall l, map row_bytes l
                         = map (fun t => (snd (fst t), snd (fst (fst (fst t)))))
                             (map row_text l)).
  { intros l. rewrite map_map. reflexivity. }
  now rewrite !Hc, H.
Qed.

Lemma bytes_chars (rs rs' : list Row) :
  map row_bytes rs' = map row_bytes rs -> map chars rs' = map chars rs.
Proof.
  intros H.
  assert (Hc : forall l, map chars l = map fst (map row_bytes l)).
  { intros l. rewrite map_map. reflexivity. }
  now rewrite !Hc, H.
Qed.

Lemma vec_insert_nth_lt {A} (v : list A) (p q : nat) (x : A) :
  (p < q)%nat -> (q <= List.length v)%nat ->
  nth_error (vec_insert v q x) p = nth_error v p.
Proof.
  intros Hpq Hq. unfold vec_insert.
  rewrite nth_error_app1 by (rewrite length_firstn; lia).
  rewrite nth_error_firstn.
  destruct (Nat.ltb_spec p q); [reflexivity | lia].
Qed.

Lemma vec_insert_nth_eq {A} (v : list A) (q : nat) (x : A) :
  (q <= List.length v)%nat -> nth_error (vec_insert v q x) q = Some x.
Proof.
  intros Hq. unfold vec_insert.
  rewrite nth_error_app2 by (rewrite length_firstn; lia).
  rewrite length_firstn, Nat.min_l by lia. now rewrite Nat.sub_diag.
Qed.

Lemma map_chars_renumber (rs : list Row) (p : nat) :
  map chars (firstn p rs ++ map (fun r => set_idx r (idx r - 1)) (skipn p rs))
  = map chars rs.
Proof.
  rewrite map_app, map_map. rewrite <- (firstn_skipn p rs) at 3.
  rewrite map_app. f_equal.
Qed.

Lemma chars_of_bytes (rs : list Row) : map fst (map row_bytes rs) = map chars rs.
Proof. rewrite map_map. reflexivity. Qed.

Lemma row_bytes_set_chars (r : Row) (cs : bytes) (sz : Z) :
  row_bytes (set_chars r cs sz) = (cs, sz).
Proof. reflexivity. Qed.

Lemma vec_insert_length {A} (v : list A) (p : nat) (x : A) :
  List.length (vec_insert v p x) = S (List.length v).
Proof.
  unfold vec_insert. rewrite length_app. simpl.
  rewrite <- (firstn_skipn p v) at 3. rewrite length_app. lia.
Qed.

Lemma split_merge_list {A} (cs : list A) : forall (p : nat) (c a b : A),
  nth_error cs p = Some c ->
  vec_erase (set_at (set_at (vec_insert cs (S p) b) p a) p c) (S p) = cs.
Proof.
  induction cs as [|x cs IH]; intros [|p] c a b H; simpl in H; try discriminate.
  - injection H as ->. reflexivity.
  - specialize (IH p c a b H). unfold vec_erase, vec_insert in *.
    simpl in *. now rewrite IH.
Qed.

Section SplitMergeFacts.

Variable past_end : bytes.
Variable depth : nat.

Lemma update_bytes (E E' : Editor) (rowIndex : Z) :
  _update past_end depth E rowIndex = Some E' ->
  map row_bytes (_rows E') = map row_bytes (_rows E).
Proof.
  intros H. unfold _update in H. bind_inv H as E1 HE1.
  apply updateSyntax_text in H as (rs & -> & Hm). simpl.
  rewrite (text_bytes _ _ Hm).
  unfold render_row in HE1. bind_inv HE1 as row Hrow. bind_inv HE1 as r Hr.
  destruct r. injection HE1 as <-. simpl.
  apply at_spec in Hrow as [_ Hrow].
  now apply map_set_at with (y := row).
Qed.

(** For a row that holds no NUL byte from the split column on, and as
    long as both operations return, [_insertNewLine] followed by
    [_delChar] gives back the [chars] of every row and the cursor. *)
Lemma split_then_merge_restores (capacity : nat) (E E1 E2 : Editor)
  (row : Row) :
  (List.length (_rows E) < capacity)%nat ->
  at_ (_rows E) (_cy E) = Some row ->
  0 < _cx E <= len (chars row) ->
  ~ In NUL (skipn (Z.to_nat (_cx E)) (chars row)) ->
  _insertNewLine past_end depth capacity E = Some E1 ->
  _delChar past_end depth E1 = Some E2 ->
  map chars (_rows E2) = map chars (_rows E)
  /\ _cx E2 = _cx E /\ _cy E2 = _cy E.
Proof.
  intros Hcap Hrow [Hcx0 Hcx1] Hnul Hsplit Hmerge.
  pose proof (at_lt _ _ _ Hrow) as [Hcy0 Hcy1].
  set (n := Z.to_nat (_cx E)) in *.
  (* the split *)
  unfold _insertNewLine in Hsplit. bind_inv Hsplit as E3 HE3.
  injection Hsplit as <-.
  destruct (Z.eqb_spec (_cx E) 0); [lia|].
  rewrite Hrow in HE3. simpl in HE3.
  destruct (Z.ltb_spec (_cx E) 0); [lia|].
  destruct (Z.gtb_spec (_cx E) (len (chars row))); [lia|]. simpl in HE3.
  destruct (Nat.leb_spec capacity (List.length (_rows E))); [lia|].
  bind_inv HE3 as Ea HEa. bind_inv HE3 as row1 Hrow1.
  unfold c_str_from in HEa. fold n in HEa. rewrite (until_nul_id _ Hnul) in HEa.
  destruct (insertRow_cursor _ _ _ _ _ _ HEa) as [Hax Hay].
  assert (Ha : map row_bytes (_rows Ea)
               = vec_insert (map row_bytes (_rows E)) (S (Z.to_nat (_cy E)))
                   (skipn n (chars row), len (skipn n (chars row)))).
  { unfold _insertRow in HEa.
    destruct (Z.geb_spec (_cy E + 1) 0); [|lia].
    destruct (Z.leb_spec (_cy E + 1) (len (_rows E))); [|lia]. simpl in HEa.
    bind_inv HEa as Eb HEb. injection HEa as <-. simpl.
    rewrite (update_bytes _ _ _ HEb). simpl. rewrite map_vec_insert.
    replace (Z.to_nat (_cy E + 1)) with (S (Z.to_nat (_cy E))) by lia.
    reflexivity. }
  apply at_spec in Hrow as [_ Hrow]. apply at_spec in Hrow1 as [_ Hrow1].
  rewrite Hay in Hrow1.
  assert (Hlen : (S (Z.to_nat (_cy E)) <= List.length (map row_bytes (_rows E)))%nat)
    by (rewrite length_map; unfold len in Hcy1; lia).
  assert (Hb1 : row_bytes row1 = row_bytes row).
  { pose proof (f_equal (fun l => nth_error l (Z.to_nat (_cy E))) Ha) as Hn.
    simpl in Hn. rewrite vec_insert_nth_lt in Hn by lia.
    rewrite !nth_error_map, Hrow, Hrow1 in Hn. simpl in Hn. congruence. }
  injection Hb1 as Hc1 Hs1.
  pose proof (update_bytes _ _ _ HE3) as H3. simpl in H3.
  rewrite map_set_at_gen, row_bytes_set_chars, Ha, Hax, Hay, Hc1 in H3.
  fold n in H3.
  assert (Hres : resize (chars row) n = firstn n (chars row)).
  { unfold resize. unfold len in Hcx1.
    replace (n - List.length (chars row))%nat with 0%nat by lia.
    apply app_nil_r. }
  rewrite Hres in H3.
  destruct (update_cursor _ _ _ _ _ HE3) as [H3x H3y]. simpl in H3x, H3y.
  rewrite Hax in H3x. rewrite Hay in H3y.
  assert (Hlen3 : len (_rows E3) = len (_rows E) + 1).
  { unfold len. rewrite <- (length_map row_bytes (_rows E3)), H3, set_at_length.
    rewrite vec_insert_length, length_map. lia. }
  (* the merge *)
  unfold _delChar in Hmerge. simpl in Hmerge. rewrite H3y, Hlen3 in Hmerge.
  destruct (Z.eqb_spec (_cy E + 1) (len (_rows E) + 1)); [lia|].
  destruct (Z.eqb_spec (_cy E + 1) 0); [lia|]. simpl in Hmerge.
  bind_inv Hmerge as row' Hrow'. bind_inv Hmerge as prev Hprev.
  bind_inv Hmerge as Ec HEc. bind_inv Hmerge as Ed HEd.
  injection Hmerge as <-. simpl.
  replace (_cy E + 1 - 1) with (_cy E) in * by lia.
  apply at_spec in Hrow' as [_ Hrow']. apply at_spec in Hprev as [_ Hprev].
  simpl in Hrow', Hprev.
  replace (Z.to_nat (_cy E + 1)) with (S (Z.to_nat (_cy E))) in Hrow' by lia.
  assert (Hbprev : row_bytes prev = (firstn n (chars row), _cx E)).
  { pose proof (f_equal (fun l => nth_error l (Z.to_nat (_cy E))) H3) as Hn.
    simpl in Hn. rewrite nth_error_map, Hprev in Hn. simpl in Hn.
    rewrite (set_at_same _ _ _ (row_bytes row)) in Hn
      by (rewrite vec_insert_nth_lt by lia; now rewrite nth_error_map, Hrow).
    exact (f_equal (fun o => match o with Some x => x | None => row_bytes prev end) Hn). }
  assert (Hbrow' : row_bytes row' = (skipn n (chars row), len (skipn n (chars row)))).
  { pose proof (f_equal (fun l => nth_error l (S (Z.to_nat (_cy E)))) H3) as Hn.
    cbv beta in Hn. rewrite nth_error_map, Hrow' in Hn.
    rewrite set_at_other, vec_insert_nth_eq in Hn by lia.
    exact (f_equal (fun o => match o with Some x => x | None => row_bytes row' end) Hn). }
  injection Hbprev as Hpc Hps. injection Hbrow' as Hrc _.
  (* the append onto row [_cy] *)
  unfold _rowAppendString in HEc. simpl in HEc. rewrite Hprev in HEc.
  simpl in HEc. bind_inv HEc as Ee HEe. injection HEc as <-.
  pose proof (update_bytes _ _ _ HEe) as He. simpl in He.
  destruct (update_cursor _ _ _ _ _ HEe) as [Hex Hey]. simpl in Hex, Hey.
  rewrite map_set_at_gen, row_bytes_set_chars, H3 in He.
  rewrite Hpc, Hrc, firstn_skipn in He.
  (* the deletion of row [_cy + 1] *)
  unfold _delRow in HEd. simpl in HEd. rewrite Hey in HEd.
  assert (Hlene : len (_rows Ee) = len (_rows E) + 1).
  { unfold len. rewrite <- (length_map row_bytes (_rows Ee)), He, !set_at_length.
    rewrite vec_insert_length, length_map. lia. }
  rewrite Hlene in HEd.
  destruct (Z.ltb_spec (_cy E + 1) 0); [lia|].
  destruct (Z.geb_spec (_cy E + 1) (len (_rows E) + 1)); [lia|]. simpl in HEd.
  injection HEd as <-. simpl.
  replace (Z.to_nat (_cy E + 1)) with (S (Z.to_nat (_cy E))) by lia.
  split; [|split; lia].
  rewrite map_chars_renumber, map_vec_erase, <- chars_of_bytes, He.
  rewrite !map_set_at_gen, map_vec_insert, chars_of_bytes. simpl.
  apply split_merge_list. now rewrite nth_error_map, Hrow.
Qed.

End SplitMergeFacts.

(** ** What the insertion of a row does to the numbering, and what
    escape does in the prompt *)

Lemma text_idx (rs rs' : list Row) :
  map row_text rs' = map row_text rs -> map idx rs' = map idx rs.
Proof.
  intros H.
  assert (Hc : forall l, map idx l
                         = map (fun t => fst (fst (fst (fst t)))) (map row_text l)).
  { intros l. rewrite map_map. reflexivity. }
  now rewrite !Hc, H.
Qed.

Lemma vec_insert_nth_succ {A} (v : list A) (q : nat) (x : A) :
  (q <= List.length v)%nat ->
  nth_error (vec_insert v q x) (S q) = nth_error v q.
Proof.
  intros Hq. unfold vec_insert.
  rewrite nth_error_app2 by (rewrite length_firstn; lia).
  rewrite length_firstn, Nat.min_l by lia.
  replace (S q - q)%nat with 1%nat by lia. simpl.
  rewrite <- (firstn_skipn q v) at 2.
  rewrite nth_error_app2 by (rewrite length_firstn; lia).
  rewrite length_firstn, Nat.min_l by lia. rewrite Nat.sub_diag.
  now destruct (skipn q v).
Qed.

Section NumberingFacts.

Variable past_end : bytes.
Variable depth : nat.

Lemma update_idx (E E' : Editor) (rowIndex : Z) :
  _update past_end depth E rowIndex = Some E' ->
  map idx (_rows E') = map idx (_rows E).
Proof.
  intros H. unfold _update in H. bind_inv H as E1 HE1.
  apply updateSyntax_text in H as (rs & -> & Hm). simpl.
  rewrite (text_idx _ _ Hm).
  unfold render_row in HE1. bind_inv HE1 as row Hrow. bind_inv HE1 as r Hr.
  destruct r. injection HE1 as <-. simpl.
  apply at_spec in Hrow as [_ Hrow].
  now apply map_set_at with (y := row).
Qed.

(** Whenever [_insertRow] puts a row in front of another one, the
    numbering is off afterwards: the row that follows the new one keeps
    the [idx] it had. *)
Lemma insertRow_breaks_idx (E E' : Editor) (s : bytes) (at' : Z) :
  idx_contiguous E -> 0 <= at' < len (_rows E) ->
  _insertRow past_end depth E s at' = Some E' ->
  ~ idx_contiguous E'.
Proof.
  intros Hidx [H0 H1] H Hidx'. unfold _insertRow in H.
  destruct (Z.geb_spec at' 0); [|lia].
  destruct (Z.leb_spec at' (len (_rows E))); [|lia]. simpl in H.
  bind_inv H as E1 HE1. injection H as <-. simpl in Hidx'.
  pose proof (update_idx _ _ _ HE1) as Hm. simpl in Hm.
  rewrite map_vec_insert in Hm. simpl in Hm.
  unfold len in H1.
  destruct (nth_error (_rows E) (Z.to_nat at')) as [r|] eqn:Hr;
    [|apply nth_error_None in Hr; lia].
  pose proof (idx_from_nth _ 0 _ r Hidx Hr) as Hir.
  pose proof (f_equal (fun l => nth_error l (S (Z.to_nat at'))) Hm) as Hn.
  cbv beta in Hn.
  rewrite vec_insert_nth_succ in Hn by (rewrite length_map; lia).
  rewrite !nth_error_map, Hr in Hn.
  destruct (nth_error (_rows E1) (S (Z.to_nat at'))) as [r'|] eqn:Hr';
    [|discriminate Hn].
  pose proof (idx_from_nth _ 0 _ r' Hidx' Hr') as Hir'.
  injection Hn as Hn. lia.
Qed.

End NumberingFacts.

(** On escape [_prompt] returns without calling its callback: what it
    returns does not depend on the callback at all. *)
Lemma prompt_escape_skips_callback
  (cb : option (Program -> bytes -> Z -> option Program))
  (rest : list Z) (buf : bytes) (P : Program) :
  _prompt cb (KEY_ESC :: rest) buf P
  = (P1 <- _refreshScreen P ;; Some ([], rest, P1)).
Proof. reflexivity. Qed.

(** ** Behaviour on concrete files and key sequences *)

(** C1: the file [a LF b LF] is loaded as the two rows [a] and [b];
    saving the unedited buffer, with the file opened and every write
    complete, writes [ab], with no separator between the rows. *)
Theorem open_then_save_joins_lines (past_end : bytes) (depth : nat) :
  exists E P,
    open past_end depth Editor_new (B "notes.txt") file_a_b = Some E
    /\ map chars (_rows E) = [B "a"; B "b"]
    /\ _save past_end depth (Opened None) (with_ed Program_new E) []
       = Some (P, [], Some (B "ab")).
Proof.
  destruct depth; do 2 eexists; (split; [|split]); vm_compute; reflexivity.
Qed.

(** C2: in a buffer that holds the one row [a], [_insertRow] of an
    empty string at 0 puts the new row first with [idx] 0 and leaves the [idx] of the row
    that is now second at 0. *)
Theorem insertRow_keeps_later_idx (past_end : bytes) (depth : nat) :
  exists E1 E2,
    open past_end depth Editor_new (B "notes.txt") file_a = Some E1
    /\ map idx (_rows E1) = [0]
    /\ _insertRow past_end depth E1 [] 0 = Some E2
    /\ map chars (_rows E2) = [[]; B "a"]
    /\ map idx (_rows E2) = [0; 0].
Proof.
  destruct depth; do 2 eexists; (split; [|split; [|split; [|split]]]);
    vm_compute; reflexivity.
Qed.

(** C3: with a non-empty value read past the end of the keyword list,
    the first iteration of the scan of the C row [x] finds no keyword,
    takes the [continue], and leaves the position at 0. *)
Theorem scan_iteration_without_advance (g : ascii) (rest : bytes) :
  scan_step (g :: rest) C_syntax 1 (B "x") (scan_init [HL_NORMAL] false)
  = Some (Next (mkScan 0 false None false [HL_NORMAL])).
Proof. vm_compute. reflexivity. Qed.

(** C4: in the three-row buffer, typing [comment] in the search prompt
    and then escape puts the cursor back at row 0, column 0, and leaves
    the [HL_MATCH] overlay in the [hl] of row 1; the saved copy is
    still held by [_findAction]. *)
Theorem escape_leaves_match_overlay (past_end : bytes) (depth : nat) :
  exists E P row,
    open past_end depth Editor_new (B "notes.txt") file_search = Some E
    /\ map hl (_rows E) = [repeat HL_NORMAL 3; repeat HL_NORMAL 9; repeat HL_NORMAL 3]
    /\ _find (with_ed Program_new E) (map key (B "comment") ++ [KEY_ESC])
       = Some (P, [])
    /\ (_cx (ed P), _cy (ed P)) = (_cx E, _cy E)
    /\ nth_error (_rows (ed P)) 1 = Some row
    /\ hl row = [HL_NORMAL; HL_NORMAL; HL_MATCH; HL_MATCH; HL_MATCH; HL_MATCH;
                 HL_MATCH; HL_MATCH; HL_MATCH]
    /\ savedHl P = repeat HL_NORMAL 9.
Proof.
  destruct depth; do 3 eexists;
    (split; [|split; [|split; [|split; [|split; [|split]]]]]);
    vm_compute; reflexivity.
Qed.

(** C5: after the file [a LF] is loaded, Enter at the start of row 0
    and then the key [x] leave row 1 with [chars] [xa] and the [render]
    [a] it had before: [_update] was run on row 0. *)
Theorem insertChar_leaves_render_stale (past_end : bytes) (depth : nat)
  (capacity : nat) :
  exists E1 E2 E3 row,
    open past_end depth Editor_new (B "notes.txt") file_a = Some E1
    /\ _insertNewLine past_end depth capacity E1 = Some E2
    /\ (_cx E2, _cy E2) = (0, 1)
    /\ _insertChar past_end depth E2 (key "x") = Some E3
    /\ nth_error (_rows E3) 1 = Some row
    /\ chars row = B "xa"
    /\ render row = B "a"
    /\ rsize row = 1.
Proof.
  destruct depth; do 4 eexists;
    (split; [|split; [|split; [|split; [|split; [|split; [|split]]]]]]);
    vm_compute; reflexivity.
Qed.

(** C7: row 0 of the loaded file is [a NUL b]; the vector of the three
    rows, grown by doubling, has capacity 4.  Splitting row 0 at column
    1 and merging the new row back with a backspace at its start leaves
    row 0 as [a]: the bytes from the NUL on are gone. *)
Theorem split_then_merge_drops_bytes (past_end : bytes) (depth : nat) :
  exists E1 E2 E3 E4,
    open past_end depth Editor_new (B "notes.txt") file_nul = Some E1
    /\ map chars (_rows E1) = [[ "a"%char; NUL; "b"%char ]; B "c"; B "d"]
    /\ _moveCursor E1 ARROW_RIGHT = Some E2
    /\ (_cx E2, _cy E2) = (1, 0)
    /\ _insertNewLine past_end depth 4 E2 = Some E3
    /\ (_cx E3, _cy E3) = (0, 1)
    /\ map chars (_rows E3) = [B "a"; []; B "c"; B "d"]
    /\ _delChar past_end depth E3 = Some E4
    /\ map chars (_rows E4) = [B "a"; B "c"; B "d"].
Proof.
  destruct depth; do 4 eexists;
    (split; [|split; [|split; [|split; [|split; [|split; [|split; [|split]]]]]]]);
    vm_compute; reflexivity.
Qed.

(** C8: the C file [1 LF 2 LF] is loaded; Enter at the start of row 0,
    the keys [/] and [*], and arrow-down leave row 1 with [chars]
    [/*1], [idx] 0 and a closed comment state.  The next [_update(1)]
    (typing [z] in row 2, whose [idx] is 1, runs it) rescans row 1,
    whose comment state becomes open; the recursion then goes to
    [_rows.at(0 + 1)], row 1 again, and ends there: row 2 is never
    scanned. *)
Theorem cascade_rescans_the_same_row (past_end : bytes) (depth : nat)
  (capacity : nat) :
  exists E1 E2 E3 E4 E5 R R' E6,
    open past_end (S depth) Editor_new (B "a.c") file_1_2 = Some E1
    /\ _insertNewLine past_end (S depth) capacity E1 = Some E2
    /\ _insertChar past_end (S depth) E2 (key "/") = Some E3
    /\ _insertChar past_end (S depth) E3 (key "*") = Some E4
    /\ _moveCursor E4 ARROW_DOWN = Some E5
    /\ (_cx E5, _cy E5) = (1, 2)
    /\ map row_text (_rows E5)
       = [(0, 0, 0, [], []); (0, 3, 1, B "/*1", B "1"); (1, 1, 1, B "2", B "2")]
    /\ map hl_open_comment (_rows E5) = [false; false; false]
    /\ render_row E5 1 = Some R
    /\ update_one past_end R 1 = Some (R', Some 1%nat)
    /\ map hl_open_comment (_rows R') = [false; true; false]
    /\ cascade_trace past_end (S depth) R 1 = [1%nat; 1%nat]
    /\ _insertChar past_end (S depth) E5 (key "z") = Some E6
    /\ map hl (_rows E6)
       = [[]; [HL_MLCOMMENT; HL_MLCOMMENT; HL_MLCOMMENT]; [HL_NUMBER]]
    /\ map hl_open_comment (_rows E6) = [false; true; false].
Proof.
  destruct depth; do 8 eexists;
    repeat (split; [vm_compute; reflexivity|]); vm_compute; reflexivity.
Qed.

(** The scenarios of the highlighter, whatever is read past the end of
    the keyword list: [int] is a secondary keyword, the line comment
    runs to the end of the row, and a [.] continues a number. *)
Example highlight_int_x (past_end : bytes) :
  option_map s_hl
    (scan past_end C_syntax 17 (B "int x; // comment") (repeat HL_NORMAL 17) false)
  = Some (repeat HL_KEYWORD2 3 ++ repeat HL_NORMAL 4 ++ repeat HL_COMMENT 10).
Proof. destruct past_end; vm_compute; reflexivity. Qed.

Example highlight_numbers (past_end : bytes) :
  option_map s_hl
    (scan past_end C_syntax 7 (B "5 + 3.2") (repeat HL_NORMAL 7) false)
  = Some [HL_NUMBER; HL_NORMAL; HL_NORMAL; HL_NORMAL;
          HL_NUMBER; HL_NUMBER; HL_NUMBER].
Proof. destruct past_end; vm_compute; reflexivity. Qed.

(** [tab_editor] is what inserting the row [a TAB b] into the empty
    buffer gives: the tab is expanded to the next multiple of 4. *)
Example tab_row_is_rendered (past_end : bytes) (depth : nat) :
  _insertRow past_end depth Editor_new [ "a"%char; TAB; "b"%char ] 0
  = Some (with_dirty tab_editor 1).
Proof. destruct depth; vm_compute; reflexivity. Qed.

(** A split that [split_then_merge_restores] covers: row 0 of the file
    [ab LF c LF d LF] split at column 1 and merged again, the vector
    having capacity 4. *)
Example split_then_merge_example (past_end : bytes) (depth : nat) :
  exists E1 E2 E3 E4,
    open past_end depth Editor_new (B "notes.txt") file_ab_c_d = Some E1
    /\ _moveCursor E1 ARROW_RIGHT = Some E2
    /\ _insertNewLine past_end depth 4 E2 = Some E3
    /\ map chars (_rows E3) = [B "a"; B "b"; B "c"; B "d"]
    /\ _delChar past_end depth E3 = Some E4
    /\ map chars (_rows E4) = [B "ab"; B "c"; B "d"]
    /\ (_cx E4, _cy E4) = (1, 0).
Proof.
  destruct depth; do 4 eexists;
    repeat (split; [vm_compute; reflexivity|]); vm_compute; reflexivity.
Qed.

(** ** Instances of the conditional theorems *)

Lemma tab_mapping_inverse_witness :
  at_ (_rows tab_editor) 0 = Some tab_row
  /\ size tab_row = len (chars tab_row)
  /\ 0 < _tabStop tab_editor
  /\ 0 <= 2 <= size tab_row
  /\ exists rx, _rowCxToRx tab_editor 0 2 = Some rx
                /\ _rowRxToCx tab_editor 0 rx = Some 2.
Proof.
  assert (H1 : at_ (_rows tab_editor) 0 = Some tab_row) by reflexivity.
  assert (H2 : size tab_row = len (chars tab_row)) by reflexivity.
  assert (H3 : 0 < _tabStop tab_editor) by reflexivity.
  assert (H4 : 0 <= 2 <= size tab_row) by (simpl; lia).
  repeat (split; [assumption|]).
  exact (tab_mapping_inverse tab_editor 0 tab_row 2 H1 H2 H3 H4).
Defined.

Lemma scroll_keeps_cursor_in_window_witness :
  0 < _screenRows scrolled_editor
  /\ 0 < _screenCols scrolled_editor
  /\ 0 < _tabStop scrolled_editor
  /\ (forall row,
        at_ (_rows scrolled_editor) (_cy scrolled_editor) = Some row ->
        _cx scrolled_editor <= len (chars row))
  /\ exists E',
       _scroll scrolled_editor = Some E'
       /\ _rowOffset E' = 0 /\ _colOffset E' = 4 /\ _rx E' = 4.
Proof.
  assert (H1 : 0 < _screenRows scrolled_editor) by reflexivity.
  assert (H2 : 0 < _screenCols scrolled_editor) by reflexivity.
  assert (H3 : 0 < _tabStop scrolled_editor) by reflexivity.
  assert (H4 : forall row,
             at_ (_rows scrolled_editor) (_cy scrolled_editor) = Some row ->
             _cx scrolled_editor <= len (chars row)).
  { intros row H. injection H as <-. vm_compute. discriminate. }
  repeat (split; [assumption|]).
  destruct (scroll_keeps_cursor_in_window scrolled_editor H1 H2 H3 H4)
    as (E' & Hs & _).
  exists E'. split; [exact Hs|].
  vm_compute in Hs. injection Hs as <-. repeat split.
Defined.

(** On a terminal of two rows the editor has no text row: [_scroll]
    moves the row offset behind the cursor row, and no row lies inside
    the empty window.  The same holds for the column offset on a screen
    without a column. *)
Lemma scroll_on_an_empty_screen_counterexample :
  (exists E',
     _scroll two_row_terminal = Some E'
     /\ (_cy E', _rowOffset E', _screenRows E') = (0, 1, 0)
     /\ ~ (_rowOffset E' <= _cy E' < _rowOffset E' + _screenRows E'))
  /\ (exists E',
        _scroll no_column_terminal = Some E'
        /\ (_rx E', _colOffset E', _screenCols E') = (0, 1, 0)
        /\ ~ (_colOffset E' <= _rx E' < _colOffset E' + _screenCols E')).
Proof.
  split; eexists; (split; [reflexivity|]); (split; [reflexivity|]); simpl; lia.
Qed.

Lemma keyword_miss_reads_past_end_witness :
  In x_state (scan_trace [] 13 C_syntax 6 (B "int x;")
                (scan_init (repeat HL_NORMAL 6) false))
  /\ nth_error (B "int x;") (s_i x_state) = Some "x"%char
  /\ scan_early C_syntax 6 (B "int x;") x_state "x" = None
  /\ s_prevSep x_state = true
  /\ fst (fst (kw_loop (keywords C_syntax) 0 (B "int x;") (s_i x_state)
                 (s_hl x_state))) = 23%nat
  /\ nth_error (keywords C_syntax) 23 = None
  /\ scan_step (B "?") C_syntax 6 (B "int x;") x_state
     = Some (Next (mkScan 4 false None false (s_hl x_state))).
Proof.
  assert (H0 : In x_state (scan_trace [] 13 C_syntax 6 (B "int x;")
                             (scan_init (repeat HL_NORMAL 6) false))).
  { vm_compute. do 2 right. left. reflexivity. }
  assert (H1 : nth_error (B "int x;") (s_i x_state) = Some "x"%char)
    by reflexivity.
  assert (H2 : scan_early C_syntax 6 (B "int x;") x_state "x" = None)
    by reflexivity.
  assert (H3 : s_prevSep x_state = true) by reflexivity.
  assert (H4 : forall k, In k (keywords C_syntax) ->
                         kw_match k (B "int x;") (s_i x_state) = false).
  { intros k Hk. simpl in Hk.
    repeat (destruct Hk as [<-|Hk]; [reflexivity|]). contradiction. }
  repeat (split; [assumption|]).
  destruct (keyword_miss_reads_past_end (B "?") C_syntax 6 (B "int x;") x_state
              "x" H1 H2 H3 H4) as (Hj & Hnone & _ & _ & Hstep & Hkw & _).
  split; [exact Hj|]. split; [rewrite Hj in Hnone; exact Hnone|].
  rewrite Hstep, Hkw. reflexivity.
Defined.

(** * Further properties of the buffer, the viewport and the keys *)

(** ** Re-deriving a row *)

Lemma render_loop_total (ts : Z) (n : nat) : forall (cs rend : bytes) (i : Z),
  0 < ts -> (n <= List.length cs)%nat ->
  exists r, render_loop ts cs n rend i = Some r.
Proof.
  induction n as [|n IH]; intros cs rend i Hts Hn; simpl; [eauto|].
  destruct cs as [|c cs]; [simpl in Hn; lia|]. simpl in Hn.
  destruct (Ascii.eqb c TAB).
  - destruct (Z.eqb_spec ts 0); [lia|].
    destruct (pad_loop _ ts (rend ++ [SPACE]) (i + 1)) as [r1 i1].
    apply IH; [assumption | lia].
  - apply IH; [assumption | lia].
Qed.

Lemma idx_from_app (rs : list Row) : forall (n : Z) (r : Row),
  idx_from n rs -> idx r = n + len rs -> idx_from n (rs ++ [r]).
Proof.
  induction rs as [|x rs IH]; intros n r H Hr; simpl in *.
  - split; [unfold len in Hr; simpl in Hr; lia | trivial].
  - destruct H as [Hx H]. split; [assumption|].
    apply IH; [assumption|]. unfold len in *. simpl in Hr. lia.
Qed.

Lemma idx_from_map_idx (rs rs' : list Row) : forall n : Z,
  map idx rs' = map idx rs -> idx_from n rs -> idx_from n rs'.
Proof.
  revert rs'. induction rs as [|r rs IH]; intros [|r' rs'] n Hmap H;
    simpl in *; try discriminate; [trivial|].
  injection Hmap as Hr Hrs. destruct H as [Hi H].
  split; [congruence | now apply IH].
Qed.

Lemma fresh_text (ts : Z) (rs rs' : list Row) :
  map row_text rs' = map row_text rs ->
  Forall (row_fresh ts) rs -> Forall (row_fresh ts) rs'.
Proof.
  revert rs'. induction rs as [|r rs IH]; intros [|r' rs'] Hmap H;
    simpl in *; try discriminate; constructor.
  - injection Hmap as _ Hsz Hrsz Hch Hre _.
    inversion H as [|? ? Hf _]; subst.
    unfold row_fresh in *. now rewrite Hsz, Hrsz, Hch, Hre.
  - injection Hmap as _ _ _ _ _ Hrs. inversion H; subst. now apply IH.
Qed.

Section UpdateFacts.

Variable past_end : bytes.
Variable depth : nat.

(** What [_update] does in a buffer numbered by position: it returns
    (the cascade needs a depth of the number of rows that follow), it
    leaves every row's bytes and number alone, and it leaves the buffer
    numbered, sized and freshly rendered. *)
Lemma update_ok (E : Editor) (i : Z) :
  0 < _tabStop E -> idx_contiguous E -> Forall row_rendered (_rows E) ->
  0 <= i < len (_rows E) ->
  len (_rows E) - i <= Z.of_nat depth + 1 ->
  exists E',
    _update past_end depth E i = Some E'
    /\ map row_bytes (_rows E') = map row_bytes (_rows E)
    /\ map idx (_rows E') = map idx (_rows E)
    /\ E' = with_rows E (_rows E')
    /\ Forall row_rendered (_rows E')
    /\ ((forall p r, p <> Z.to_nat i -> nth_error (_rows E) p = Some r ->
                     row_sized r) -> rows_sized E')
    /\ ((forall p r, p <> Z.to_nat i -> nth_error (_rows E) p = Some r ->
                     row_fresh (_tabStop E) r) -> rows_fresh E').
Proof.
  intros Hts Hidx Hrend [Hi0 Hi1] Hdepth.
  destruct (at_some (_rows E) i) as (row & Hrow); [lia|].
  pose proof Hrow as Hrow'. apply at_spec in Hrow' as [_ Hnth].
  assert (Hrr : row_rendered row).
  { rewrite Forall_forall in Hrend. apply Hrend. eapply nth_error_In; eauto. }
  destruct Hrr as [Hsz Hrsz]. unfold len in Hsz.
  destruct (render_loop_total (_tabStop E) (Z.to_nat (size row)) (chars row) [] 0)
    as ([rend k] & Hloop); [assumption | lia |].
  pose proof (render_loop_len _ _ _ _ _ _ _ Hloop eq_refl) as Hk.
  set (row1 := set_render row rend k).
  set (E1 := with_rows E (set_at (_rows E) (Z.to_nat i) row1)).
  assert (HE1 : render_row E i = Some E1).
  { unfold render_row. rewrite Hrow. simpl. rewrite Hloop. reflexivity. }
  assert (Htext1 : map idx (_rows E1) = map idx (_rows E)).
  { simpl. now apply map_set_at with (y := row). }
  assert (Hidx1 : idx_contiguous E1).
  { unfold idx_contiguous. eapply idx_from_map_idx; eauto. }
  assert (Hrend1 : Forall row_rendered (_rows E1)).
  { simpl. apply Forall_set_at; [assumption|].
    split; simpl; [unfold len; lia | exact Hk]. }
  assert (Hlen1 : List.length (_rows E1) = List.length (_rows E))
    by (simpl; apply set_at_length).
  unfold len in Hi1, Hdepth.
  destruct (updateSyntax_total past_end depth E1 (Z.to_nat i) Hidx1 Hrend1)
    as (E' & _ & HE' & _ & _); [lia | lia |].
  exists E'.
  destruct (updateSyntax_text past_end depth _ _ _ HE') as (rs & -> & Hm).
  simpl in Hm |- *.
  assert (Hu : _update past_end depth E i = Some (with_rows E rs)).
  { unfold _update. rewrite HE1. simpl. exact HE'. }
  split; [exact Hu|].
  split; [exact (update_bytes _ _ _ _ _ Hu)|].
  split; [exact (update_idx _ _ _ _ _ Hu)|].
  split; [reflexivity|].
  split; [now apply (rendered_text _ _ Hm)|].
  split.
  - intros Hothers.
    change rs with (_rows (with_rows E1 rs)).
    eapply updateSyntax_sized_at with (E := E1) (row := row1);
      [simpl; apply (set_at_same _ _ _ _ Hnth)
      | split; simpl; [unfold len; lia | exact Hk]
      |
      | exact HE'].
    simpl. intros p r Hp Hr. rewrite set_at_other in Hr by congruence.
    eapply Hothers; eauto.
  - intros Hothers. unfold rows_fresh. simpl.
    apply (fresh_text _ _ _ Hm). simpl. apply Forall_forall. intros r Hr.
    apply In_nth_error in Hr as [p Hr].
    destruct (Nat.eq_dec (Z.to_nat i) p) as [<-|Hne].
    + rewrite (set_at_same _ _ _ _ Hnth) in Hr. injection Hr as <-.
      unfold row_fresh, row1. simpl. exact Hloop.
    + rewrite set_at_other in Hr by assumption. eapply Hothers; eauto.
Qed.

End UpdateFacts.

(** ** Appending rows and loading a file *)

Lemma sized_rendered (rs : list Row) :
  Forall row_sized rs -> Forall row_rendered rs.
Proof. intros H. eapply Forall_impl; [|exact H]. now intros r [Hr _]. Qed.

Lemma buffer_ok_nth (E : Editor) (p : nat) (r : Row) :
  buffer_ok E -> nth_error (_rows E) p = Some r ->
  idx r = Z.of_nat p /\ row_sized r /\ row_fresh (_tabStop E) r.
Proof.
  intros (_ & Hidx & Hsz & Hfr) Hr. split; [|split].
  - exact (idx_from_nth _ 0 p r Hidx Hr).
  - exact (rows_sized_nth E p r Hsz Hr).
  - unfold rows_fresh in Hfr. rewrite Forall_forall in Hfr. apply Hfr.
    eapply nth_error_In; eauto.
Qed.

Section LoadFacts.

Variable past_end : bytes.
Variable depth : nat.

Lemma insertRow_append_ok (E : Editor) (s : bytes) :
  buffer_ok E ->
  exists E',
    _insertRow past_end depth E s (len (_rows E)) = Some E'
    /\ buffer_ok E'
    /\ map chars (_rows E') = map chars (_rows E) ++ [s]
    /\ E' = with_dirty (with_rows E (_rows E')) (_dirty E + 1).
Proof.
  intros (Hts & Hidx & Hsz & Hfr).
  set (row := mkRow (len (_rows E)) (len s) 0 s [] [] false).
  set (E0 := with_rows E (_rows E ++ [row])).
  assert (Hrow_sized : row_sized row) by (repeat split).
  destruct (update_ok past_end depth E0 (len (_rows E))) as
    (E' & HE' & Hb & Hi & Hshape & Hrend & Hsized & Hfresh).
  - exact Hts.
  - unfold idx_contiguous, E0. simpl. apply idx_from_app; [exact Hidx|].
    simpl. lia.
  - unfold E0. simpl. apply Forall_app. split; [now apply sized_rendered|].
    constructor; [apply Hrow_sized | constructor].
  - unfold E0, len. simpl. rewrite length_app. simpl. lia.
  - unfold E0, len. simpl. rewrite length_app. simpl. lia.
  - assert (Hnth : forall p r, p <> Z.to_nat (len (_rows E)) ->
                     nth_error (_rows E0) p = Some r ->
                     nth_error (_rows E) p = Some r).
    { intros p r Hp Hr. unfold E0 in Hr. simpl in Hr.
      unfold len in Hp. rewrite Nat2Z.id in Hp.
      destruct (Nat.lt_ge_cases p (List.length (_rows E))) as [Hlt|Hge].
      - now rewrite nth_error_app1 in Hr by assumption.
      - rewrite nth_error_app2 in Hr by assumption.
        destruct (p - List.length (_rows E))%nat as [|k] eqn:Hk; [lia|].
        simpl in Hr. now destruct k. }
    exists (with_dirty E' (_dirty E' + 1)).
    assert (Hins : _insertRow past_end depth E s (len (_rows E))
                   = Some (with_dirty E' (_dirty E' + 1))).
    { unfold _insertRow.
      destruct (Z.geb_spec (len (_rows E)) 0); [|unfold len in *; lia].
      rewrite Z.leb_refl. simpl.
      unfold len at 1. rewrite Nat2Z.id, vec_insert_end.
      fold row. fold E0. rewrite HE'. reflexivity. }
    split; [exact Hins|].
    split; [|split].
    + split; [rewrite Hshape; exact Hts|]. split; [|split].
      * unfold idx_contiguous. simpl.
        apply (idx_from_map_idx (_rows E0)); [exact Hi|].
        unfold E0. simpl. apply idx_from_app; [exact Hidx | simpl; lia].
      * unfold rows_sized. simpl. apply Hsized. intros p r Hp Hr.
        exact (rows_sized_nth E p r Hsz (Hnth p r Hp Hr)).
      * assert (Hf : rows_fresh E').
        { apply Hfresh. intros p r Hp Hr.
          unfold rows_fresh in Hfr. rewrite Forall_forall in Hfr.
          apply Hfr. eapply nth_error_In. exact (Hnth p r Hp Hr). }
        unfold rows_fresh in Hf |- *. simpl. exact Hf.
    + simpl. rewrite (bytes_chars _ _ Hb). unfold E0. simpl.
      now rewrite map_app.
    + rewrite Hshape. reflexivity.
Qed.

Lemma load_lines_ok (ls : list bytes) : forall E : Editor,
  buffer_ok E ->
  exists E',
    load_lines past_end depth ls E = Some E'
    /\ buffer_ok E'
    /\ map chars (_rows E') = map chars (_rows E) ++ map strip_eol ls
    /\ exists d, E' = with_dirty (with_rows E (_rows E')) d.
Proof.
  induction ls as [|l ls IH]; intros E Hok; simpl.
  - exists E. split; [reflexivity|]. split; [exact Hok|].
    split; [now rewrite app_nil_r|]. exists (_dirty E). now destruct E.
  - destruct (insertRow_append_ok E (strip_eol l) Hok) as (E1 & -> & Hok1 & Hc1 & Hs1).
    simpl. destruct (IH E1 Hok1) as (E' & -> & Hok' & Hc' & d & Hs').
    exists E'. split; [reflexivity|]. split; [exact Hok'|]. split.
    + rewrite Hc', Hc1, <- app_assoc. reflexivity.
    + exists d. rewrite Hs', Hs1. reflexivity.
Qed.

Lemma selectSyntaxHighlight_no_rows (E : Editor) :
  _rows E = [] ->
  exists s, _selectSyntaxHighlight past_end depth E = Some (with_syntax E s).
Proof.
  intros Hrows. unfold _selectSyntaxHighlight.
  destruct (len (_filename (with_syntax E None)) =? 0); [eauto|].
  destruct (rfind_dot _); [|eauto].
  destruct (find _ HLDB) as [syn|]; [|eauto].
  simpl. rewrite Hrows. simpl. exists (Some syn). reflexivity.
Qed.

End LoadFacts.

(** X1: whatever the syntax rule, the row and the value read past the
    end of the keyword list, the scan of a row returns within the
    [2 * rsize + 1] iterations it is given, stops at a position inside
    the row, and leaves [hl] with as many entries as it had. *)
Theorem scan_ends_inside_row (past_end : bytes) (syn : Syntax) (rend : bytes)
  (h0 : list Highlight) (inComment : bool) :
  exists s,
    scan past_end syn (List.length rend) rend h0 inComment = Some s
    /\ (s_i s <= List.length rend)%nat
    /\ List.length (s_hl s) = List.length h0
    /\ (List.length (scan_trace past_end (2 * List.length rend + 1) syn
                       (List.length rend) rend (scan_init h0 inComment))
        <= 2 * List.length rend + 1)%nat.
Proof.
  destruct (scan_total past_end syn rend h0 inComment) as (s & Hs & Hl & Hi).
  exists s. repeat split; try assumption.
  generalize (scan_init h0 inComment) as st.
  generalize (2 * List.length rend + 1)%nat as fuel.
  induction fuel as [|fuel IH]; intros st; simpl.
  - destruct (List.length rend <=? s_i st)%nat; simpl; lia.
  - destruct (List.length rend <=? s_i st)%nat; simpl; [lia|].
    destruct (scan_step past_end syn (List.length rend) rend st) as [[s'|s']|];
      simpl; try lia.
    specialize (IH s'). lia.
Qed.

(** X2: a highlight pass that starts at row [p], cascade included,
    writes nothing but [hl] and the comment state: every row keeps its
    number, bytes, render and sizes, and the rest of the editor is
    untouched.  Row [p] may come with an [hl] of any length (it is
    resized to [rsize]); when the other rows have an [hl] as long as
    their [render], all rows have one afterwards. *)
Theorem updateSyntax_keeps_text_and_sizes (past_end : bytes) (fuel : nat)
  (E E' : Editor) (p : nat) (row : Row) :
  nth_error (_rows E) p = Some row -> row_rendered row ->
  (forall p' r, p' <> p -> nth_error (_rows E) p' = Some r -> row_sized r) ->
  _updateSyntax past_end fuel E p = Some E' ->
  map row_text (_rows E') = map row_text (_rows E)
  /\ E' = with_rows E (_rows E')
  /\ rows_sized E'.
Proof.
  intros Hrow Hrend Hothers H.
  destruct (updateSyntax_text past_end fuel E E' p H) as (rs & -> & Hm).
  split; [exact Hm|]. split; [reflexivity|].
  exact (updateSyntax_sized_at past_end fuel _ _ _ _ Hrow Hrend Hothers H).
Qed.

(** X3: in a buffer whose rows are numbered by position, a highlight
    pass that starts at row [p] returns when its depth allows for the
    rows after [p]; it scans [p], [p + 1], ... without a gap or a
    repeat and stops at or before the last row. *)
Theorem cascade_scans_consecutive_rows (past_end : bytes) (fuel : nat)
  (E : Editor) (p : nat) :
  idx_contiguous E -> Forall row_rendered (_rows E) ->
  (p < List.length (_rows E))%nat ->
  (List.length (_rows E) - p <= S fuel)%nat ->
  exists E' k,
    _updateSyntax past_end fuel E p = Some E'
    /\ cascade_trace past_end fuel E p = seq p (S k)
    /\ (p + k < List.length (_rows E))%nat.
Proof. exact (updateSyntax_total past_end fuel E p). Qed.

(** Invariants of a concrete buffer, by evaluating its rows. *)
Ltac by_rows E :=
  unfold buffer_ok, rows_sized, rows_fresh, idx_contiguous;
  let r := eval vm_compute in (_rows E) in
  change (_rows E) with r; repeat constructor.

Lemma updateSyntax_keeps_text_and_sizes_witness :
  exists row E',
    nth_error (_rows c_buffer_cleared) 0 = Some row
    /\ row_rendered row
    /\ List.length (hl row) = 2%nat
    /\ _updateSyntax [] 2 c_buffer_cleared 0 = Some E'
    /\ map row_text (_rows E') = map row_text (_rows c_buffer_cleared)
    /\ map hl_open_comment (_rows E') = [false; false; false]
    /\ rows_sized E'.
Proof.
  exists {| idx := 0; size := 0; rsize := 0; chars := []; render := [];
            hl := [HL_MLCOMMENT; HL_MLCOMMENT]; hl_open_comment := true |}.
  eexists.
  assert (Hrow : nth_error (_rows c_buffer_cleared) 0 = Some _)
    by (vm_compute; reflexivity).
  assert (Hrend : row_rendered {| idx := 0; size := 0; rsize := 0; chars := [];
            render := []; hl := [HL_MLCOMMENT; HL_MLCOMMENT];
            hl_open_comment := true |}) by (split; reflexivity).
  assert (HE' : _updateSyntax [] 2 c_buffer_cleared 0 = Some _)
    by (vm_compute; reflexivity).
  split; [exact Hrow|]. split; [exact Hrend|]. split; [reflexivity|].
  split; [exact HE'|].
  assert (Hothers : forall p' r, p' <> 0%nat ->
            nth_error (_rows c_buffer_cleared) p' = Some r -> row_sized r).
  { intros p' r Hp'.
    let rs := eval vm_compute in (_rows c_buffer_cleared) in
    change (_rows c_buffer_cleared) with rs.
    destruct p' as [|[|[|p']]]; [congruence| | |destruct p'; discriminate];
      intros [= <-]; repeat constructor. }
  destruct (updateSyntax_keeps_text_and_sizes [] 2 c_buffer_cleared _ 0 _
              Hrow Hrend Hothers HE') as (Hm & _ & Hs).
  split; [exact Hm|]. split; [reflexivity|exact Hs].
Defined.

Lemma cascade_scans_consecutive_rows_witness :
  idx_contiguous c_buffer_cleared
  /\ Forall row_rendered (_rows c_buffer_cleared)
  /\ (0 < List.length (_rows c_buffer_cleared))%nat
  /\ (List.length (_rows c_buffer_cleared) - 0 <= 3)%nat
  /\ cascade_trace [] 2 c_buffer_cleared 0 = [0; 1; 2]%nat
  /\ exists E' k,
       _updateSyntax [] 2 c_buffer_cleared 0 = Some E'
       /\ cascade_trace [] 2 c_buffer_cleared 0 = seq 0 (S k)
       /\ (0 + k < List.length (_rows c_buffer_cleared))%nat.
Proof.
  assert (H1 : idx_contiguous c_buffer_cleared) by by_rows c_buffer_cleared.
  assert (H2 : Forall row_rendered (_rows c_buffer_cleared))
    by by_rows c_buffer_cleared.
  assert (H3 : (0 < List.length (_rows c_buffer_cleared))%nat)
    by (vm_compute; lia).
  assert (H4 : (List.length (_rows c_buffer_cleared) - 0 <= 3)%nat)
    by (vm_compute; lia).
  repeat (split; [assumption|]).
  split; [vm_compute; reflexivity|].
  exact (cascade_scans_consecutive_rows [] 2 c_buffer_cleared 0 H1 H2 H3 H4).
Defined.

(** ** Deleting and inserting rows *)

(** X4: [_delRow] always returns.  For a position inside the buffer it
    takes exactly that row out, counts one more change, and rows that
    were numbered by position still are; for any other position it
    changes nothing. *)
Theorem delRow_removes_the_row (E : Editor) (a : Z) :
  exists E',
    _delRow E a = Some E'
    /\ (idx_contiguous E -> idx_contiguous E')
    /\ (0 <= a < len (_rows E) ->
        map chars (_rows E') = vec_erase (map chars (_rows E)) (Z.to_nat a)
        /\ _dirty E' = _dirty E + 1)
    /\ (a < 0 \/ len (_rows E) <= a -> E' = E).
Proof.
  assert (Ht : exists E', _delRow E a = Some E').
  { unfold _delRow. destruct ((a <? 0) || (a >=? len (_rows E))); eauto. }
  destruct Ht as (E' & HE').
  exists E'. split; [exact HE'|]. split.
  { intros Hidx.
    destruct (delRow_keeps_idx_contiguous E a Hidx) as (E2 & HE2 & Hidx').
    rewrite HE' in HE2. injection HE2 as <-. exact Hidx'. }
  unfold _delRow in HE'. split.
  - intros [H0 H1].
    destruct (Z.ltb_spec a 0); [lia|].
    destruct (Z.geb_spec a (len (_rows E))); [lia|]. simpl in HE'.
    injection HE' as <-. simpl. split; [|reflexivity].
    now rewrite map_chars_renumber, map_vec_erase.
  - intros Hout.
    destruct (Z.ltb_spec a 0); simpl in HE'; [now injection HE' as <-|].
    destruct (Z.geb_spec a (len (_rows E))); [now injection HE' as <-|lia].
Qed.

Lemma delRow_removes_the_row_witness :
  idx_contiguous text_buffer
  /\ exists E',
       _delRow text_buffer 1 = Some E'
       /\ map chars (_rows E') = [B "ab"; B "d"]
       /\ map idx (_rows E') = [0; 1].
Proof.
  assert (H1 : idx_contiguous text_buffer) by by_rows text_buffer.
  split; [exact H1|].
  destruct (delRow_removes_the_row text_buffer 1) as (E' & HE' & _).
  exists E'. split; [exact HE'|].
  vm_compute in HE'. injection HE' as <-. split; reflexivity.
Defined.

(** X5: in a buffer that is numbered by position and freshly rendered,
    [_insertRow] at the position one past the last row returns, adds
    the row with exactly the given bytes at the end, counts one more
    change and leaves the buffer numbered, sized and freshly rendered;
    at a position outside [0 .. number of rows] it changes nothing. *)
Theorem insertRow_at_end_appends (past_end : bytes) (depth : nat)
  (E : Editor) (s : bytes) :
  buffer_ok E ->
  (exists E',
     _insertRow past_end depth E s (len (_rows E)) = Some E'
     /\ buffer_ok E'
     /\ map chars (_rows E') = map chars (_rows E) ++ [s]
     /\ E' = with_dirty (with_rows E (_rows E')) (_dirty E + 1))
  /\ (forall a, a < 0 \/ len (_rows E) < a ->
                _insertRow past_end depth E s a = Some E).
Proof.
  intros Hok. split; [exact (insertRow_append_ok past_end depth E s Hok)|].
  intros a Ha. unfold _insertRow.
  destruct (Z.geb_spec a 0); destruct (Z.leb_spec a (len (_rows E)));
    simpl; try reflexivity; lia.
Qed.

Lemma insertRow_at_end_appends_witness :
  buffer_ok text_buffer
  /\ exists E',
       _insertRow [] 0 text_buffer (B "e") 3 = Some E'
       /\ map chars (_rows E') = [B "ab"; B "c"; B "d"; B "e"]
       /\ map idx (_rows E') = [0; 1; 2; 3].
Proof.
  assert (H1 : buffer_ok text_buffer) by by_rows text_buffer.
  split; [exact H1|].
  destruct (proj1 (insertRow_at_end_appends [] 0 text_buffer (B "e") H1))
    as (E' & HE' & _).
  exists E'. split; [exact HE'|].
  vm_compute in HE'. injection HE' as <-. split; reflexivity.
Defined.

(** X6: in a buffer numbered by position, [_insertRow] in front of an
    existing row leaves the numbering wrong whenever it returns: the
    rows behind the new one are not renumbered. *)
Theorem insertRow_in_front_breaks_numbering (past_end : bytes) (depth : nat)
  (E E' : Editor) (s : bytes) (a : Z) :
  idx_contiguous E -> 0 <= a < len (_rows E) ->
  _insertRow past_end depth E s a = Some E' ->
  ~ idx_contiguous E'.
Proof. exact (insertRow_breaks_idx past_end depth E E' s a). Qed.

Lemma insertRow_in_front_breaks_numbering_witness :
  idx_contiguous text_buffer
  /\ 0 <= 1 < len (_rows text_buffer)
  /\ exists E',
       _insertRow [] 0 text_buffer (B "e") 1 = Some E'
       /\ map idx (_rows E') = [0; 1; 1; 2]
       /\ ~ idx_contiguous E'.
Proof.
  assert (H1 : idx_contiguous text_buffer) by by_rows text_buffer.
  assert (H2 : 0 <= 1 < len (_rows text_buffer)) by (vm_compute; split; congruence).
  repeat (split; [assumption|]).
  eexists. split; [vm_compute; reflexivity|]. split; [reflexivity|].
  refine (insertRow_in_front_breaks_numbering [] 0 text_buffer _ (B "e") 1 H1 H2 _).
  vm_compute. reflexivity.
Defined.

(** X7: every operation that changes the buffer, and any sequence of
    them, keeps [size] equal to the length of [chars], [rsize] equal to
    the length of [render], and [hl] as long as [render], in every
    row. *)
Theorem mutations_keep_rows_sized (past_end : bytes) (depth : nat)
  (E E' : Editor) :
  mutations past_end depth E E' -> rows_sized E -> rows_sized E'.
Proof.
  induction 1 as [E|E E1 E2 Hstep _ IH]; intros Hs; [exact Hs|].
  apply IH. clear IH.
  destruct Hstep as [E s a E' H|E a E' H|E p a c E' H|E p s E' H|E p a E' H
                    |E c E' H|E capacity E' H|E E' H|E fuel p E' H|E i E' H].
  - exact (insertRow_sized _ _ _ _ _ _ Hs H).
  - exact (delRow_sized _ _ _ Hs H).
  - exact (rowInsertChar_sized _ _ _ _ _ _ _ Hs H).
  - exact (rowAppendString_sized _ _ _ _ _ _ Hs H).
  - exact (rowDelChar_sized _ _ _ _ _ _ Hs H).
  - exact (insertChar_sized _ _ _ _ _ Hs H).
  - exact (insertNewLine_sized _ _ _ _ _ Hs H).
  - exact (delChar_sized _ _ _ _ Hs H).
  - exact (updateSyntax_sized _ _ _ _ _ Hs H).
  - exact (update_sized _ _ _ _ _ Hs H).
Qed.

Lemma mutations_keep_rows_sized_witness :
  rows_sized text_buffer_at_1
  /\ exists E',
       mutations [] 0 text_buffer_at_1 E'
       /\ map chars (_rows E') = [B "a"; B "xb"; B "c"; B "d"]
       /\ rows_sized E'.
Proof.
  assert (H1 : rows_sized text_buffer_at_1) by by_rows text_buffer_at_1.
  split; [exact H1|].
  assert (Hm : exists E1 E2,
             _insertNewLine [] 0 4 text_buffer_at_1 = Some E1
             /\ _insertChar [] 0 E1 (key "x") = Some E2
             /\ map chars (_rows E2) = [B "a"; B "xb"; B "c"; B "d"]).
  { do 2 eexists. split; [vm_compute; reflexivity|].
    split; vm_compute; reflexivity. }
  destruct Hm as (E1 & E2 & Ha & Hb & Hc).
  assert (Hmut : mutations [] 0 text_buffer_at_1 E2).
  { eapply muts_step; [eapply mut_insertNewLine; exact Ha|].
    eapply muts_step; [eapply mut_insertChar; exact Hb|]. apply muts_refl. }
  exists E2. split; [exact Hmut|]. split; [exact Hc|].
  exact (mutations_keep_rows_sized [] 0 text_buffer_at_1 E2 Hmut H1).
Defined.

(** ** Loading and saving *)

Lemma getlines_no_newline (s : bytes) : forall cur : bytes,
  ~ In LF s ->
  getlines s cur = match cur ++ s with [] => [] | _ => [cur ++ s] end.
Proof.
  induction s as [|c s IH]; intros cur Hs; simpl.
  - rewrite app_nil_r. reflexivity.
  - destruct (Ascii.eqb c LF) eqn:Hc.
    + apply Ascii.eqb_eq in Hc. subst c. exfalso. apply Hs. now left.
    + rewrite IH by (intros Hin; apply Hs; now right).
      rewrite <- app_assoc. reflexivity.
Qed.

Lemma strip_eol_no_terminator (l : bytes) :
  ~ In LF l -> ~ In CR l -> strip_eol l = l.
Proof.
  intros Hlf Hcr. unfold strip_eol.
  destruct (rev l) as [|c t] eqn:Hrev; [now rewrite <- (rev_involutive l), Hrev|].
  assert (Hc : In c l) by (apply in_rev; rewrite Hrev; now left).
  assert (He : is_eol c = false).
  { unfold is_eol.
    destruct (Ascii.eqb_spec c LF) as [->|_]; [contradiction|].
    destruct (Ascii.eqb_spec c CR) as [->|_]; [contradiction|reflexivity]. }
  cbn [strip_eol_rev]. rewrite He, <- Hrev. apply rev_involutive.
Qed.

Section OpenFacts.

Variable past_end : bytes.
Variable depth : nat.

Lemma open_ok (E0 : Editor) (filename content : bytes) :
  _rows E0 = [] -> 0 < _tabStop E0 ->
  exists E s d,
    open past_end depth E0 filename content = Some E
    /\ buffer_ok E
    /\ map chars (_rows E) = map strip_eol (getlines content [])
    /\ with_rows E [] = with_dirty (with_syntax (with_filename E0 filename) s) d
    /\ _dirty E = 0.
Proof.
  intros Hrows Hts. unfold open.
  destruct (selectSyntaxHighlight_no_rows past_end depth
              (with_filename E0 filename)) as (s & ->); [exact Hrows|].
  simpl.
  set (E1 := with_syntax (with_filename E0 filename) s).
  assert (Hok1 : buffer_ok E1).
  { unfold buffer_ok, idx_contiguous, rows_sized, rows_fresh. simpl.
    rewrite Hrows. simpl. repeat split; auto. }
  destruct (load_lines_ok past_end depth (getlines content []) E1 Hok1)
    as (E2 & -> & Hok2 & Hc & d & HE2).
  simpl. exists (with_dirty E2 0), s, 0.
  split; [reflexivity|]. split; [exact Hok2|]. split.
  - simpl. rewrite Hc. unfold E1. simpl. now rewrite Hrows.
  - split; [|reflexivity]. rewrite HE2. unfold E1.
    destruct E0; simpl in *. now subst.
Qed.

End OpenFacts.

(** X8: [open] on an editor without rows (and a positive tab stop)
    always returns; the buffer then holds one row for each line of the
    file, in order, with the line's bytes less its trailing LF and CR
    bytes; the rows are numbered by position and rendered, no row holds
    an LF, the file name is set, the change count is 0, and the cursor
    and the viewport are as before. *)
Theorem open_loads_every_line (past_end : bytes) (depth : nat)
  (E0 : Editor) (filename content : bytes) :
  _rows E0 = [] -> 0 < _tabStop E0 ->
  exists E,
    open past_end depth E0 filename content = Some E
    /\ map chars (_rows E) = map strip_eol (getlines content [])
    /\ Forall (fun l => ~ In LF l) (map chars (_rows E))
    /\ buffer_ok E
    /\ _filename E = filename /\ _dirty E = 0
    /\ (_cx E, _cy E, _rowOffset E, _colOffset E)
       = (_cx E0, _cy E0, _rowOffset E0, _colOffset E0).
Proof.
  intros Hrows Hts.
  destruct (open_ok past_end depth E0 filename content Hrows Hts)
    as (E & s & d & HE & Hok & Hc & Hrest & Hd).
  exists E. split; [exact HE|]. split; [exact Hc|]. split.
  - rewrite Hc. apply Forall_forall. intros l Hl.
    apply in_map_iff in Hl as (l0 & <- & Hl0).
    exact (strip_eol_no_newline content [] l0 (fun F => F) Hl0).
  - split; [exact Hok|].
    pose proof (f_equal _filename Hrest) as H1.
    pose proof (f_equal _cx Hrest) as H2. pose proof (f_equal _cy Hrest) as H3.
    pose proof (f_equal _rowOffset Hrest) as H4.
    pose proof (f_equal _colOffset Hrest) as H5.
    destruct E, E0; simpl in *. subst. repeat split.
Qed.

Lemma open_loads_every_line_witness :
  exists E,
    open [] 0 Editor_new (B "a.c") file_1_2 = Some E
    /\ map chars (_rows E) = [B "1"; B "2"]
    /\ buffer_ok E.
Proof.
  destruct (open_loads_every_line [] 0 Editor_new (B "a.c") file_1_2
              eq_refl eq_refl) as (E & HE & Hc & _ & Hok & _).
  exists E. split; [exact HE|]. split; [exact Hc|exact Hok].
Defined.

(** X9: [_save] after [open] under a non-empty name asks for nothing.
    When the file opens and every [fwrite] is complete, it writes the
    bytes of the lines without their terminators, one after the other:
    what it writes holds no LF, and it is the file's content when the
    file holds neither LF nor CR.  When [fopen] fails nothing is
    written, and when the [fwrite] of a row comes back short the file
    holds the rows before it and the part of it that was written; in
    both cases the state is left as it is. *)
Theorem save_after_open_writes_stripped_lines (past_end : bytes) (depth : nat)
  (E0 : Editor) (filename content : bytes) (P : Program) (keys : list Z) :
  _rows E0 = [] -> 0 < _tabStop E0 -> filename <> [] ->
  open past_end depth E0 filename content = Some (ed P) ->
  (exists out,
     _save past_end depth (Opened None) P keys = Some (P, keys, Some out)
     /\ out = List.concat (map strip_eol (getlines content []))
     /\ ~ In LF out
     /\ (~ In LF content -> ~ In CR content -> out = content))
  /\ _save past_end depth CannotOpen P keys = Some (P, keys, None)
  /\ (forall k n row,
        nth_error (_rows (ed P)) k = Some row ->
        (n < List.length (chars row))%nat ->
        _save past_end depth (Opened (Some (k, n))) P keys
        = Some (P, keys,
                Some (saved_bytes (firstn k (_rows (ed P)))
                      ++ firstn n (chars row)))).
Proof.
  intros Hrows Hts Hname Hopen.
  destruct (open_ok past_end depth E0 filename content Hrows Hts)
    as (E & s & d & HE & Hok & Hc & Hrest & Hd).
  rewrite Hopen in HE. injection HE as <-.
  pose proof (f_equal _filename Hrest) as Hfn.
  assert (Hfn' : _filename (ed P) = filename)
    by (destruct (ed P), E0; simpl in *; exact Hfn).
  assert (Hlen : (len filename =? 0) = false).
  { destruct filename; [congruence|]. apply Z.eqb_neq. unfold len. simpl. lia. }
  split; [|split].
  - exists (saved_bytes (_rows (ed P))).
    unfold _save. rewrite Hfn', Hlen. simpl.
    assert (Hsame : with_ed P (with_dirty (ed P) 0) = P).
    { destruct P as [E ? ? ? ?]. simpl in *. unfold with_ed. simpl.
      destruct E; simpl in *. now subst. }
    rewrite Hsame. split; [reflexivity|].
    assert (Hout : saved_bytes (_rows (ed P))
                   = List.concat (map strip_eol (getlines content [])))
      by (unfold saved_bytes; now rewrite Hc).
    split; [exact Hout|]. split.
    + exact (proj1 (open_saved_no_newline past_end depth E0 (ed P) filename
                      content Hrows Hopen)).
    + intros Hlf Hcr. rewrite Hout, (getlines_no_newline content [] Hlf). simpl.
      destruct content as [|c cs]; [reflexivity|]. simpl.
      rewrite app_nil_r. now apply strip_eol_no_terminator.
  - unfold _save. rewrite Hfn', Hlen. reflexivity.
  - intros k n row Hrow Hn. unfold _save. rewrite Hfn', Hlen.
    cbn [bind fopen_ok short_write]. rewrite Hrow.
    destruct (Nat.ltb_spec n (List.length (chars row))); [reflexivity | lia].
Qed.

Lemma save_after_open_writes_stripped_lines_witness :
  _rows Editor_new = [] /\ 0 < _tabStop Editor_new /\ B "notes.txt" <> []
  /\ open [] 0 Editor_new (B "notes.txt") file_ab_c_d = Some text_buffer
  /\ (exists out,
        _save [] 0 (Opened None) (mkProgram text_buffer (-1) 1 [] 0) []
        = Some (mkProgram text_buffer (-1) 1 [] 0, [], Some out)
        /\ out = B "abcd")
  /\ _save [] 0 CannotOpen (mkProgram text_buffer (-1) 1 [] 0) []
     = Some (mkProgram text_buffer (-1) 1 [] 0, [], None).
Proof.
  assert (H3 : B "notes.txt" <> []) by discriminate.
  assert (H4 : open [] 0 Editor_new (B "notes.txt") file_ab_c_d = Some text_buffer)
    by (vm_compute; reflexivity).
  split; [reflexivity|]. split; [reflexivity|]. split; [exact H3|].
  split; [exact H4|].
  destruct (save_after_open_writes_stripped_lines [] 0 Editor_new (B "notes.txt")
              file_ab_c_d (mkProgram text_buffer (-1) 1 [] 0) []
              eq_refl eq_refl H3 H4) as ((out & Hs & Ho & _) & Hfail & _).
  split; [|exact Hfail].
  exists out. split; [exact Hs|]. rewrite Ho. reflexivity.
Defined.

(** X10: Enter inside a row followed by Backspace gives back the bytes
    of every row and the cursor, whenever the vector of rows has spare
    capacity (so that the insertion does not move the rows), both
    operations return, and the part of the row behind the cursor holds
    no NUL byte. *)
Theorem split_then_merge_is_identity_without_nul (past_end : bytes)
  (depth capacity : nat) (E E1 E2 : Editor) (row : Row) :
  (List.length (_rows E) < capacity)%nat ->
  at_ (_rows E) (_cy E) = Some row ->
  0 < _cx E <= len (chars row) ->
  ~ In NUL (skipn (Z.to_nat (_cx E)) (chars row)) ->
  _insertNewLine past_end depth capacity E = Some E1 ->
  _delChar past_end depth E1 = Some E2 ->
  map chars (_rows E2) = map chars (_rows E)
  /\ _cx E2 = _cx E /\ _cy E2 = _cy E.
Proof. exact (split_then_merge_restores past_end depth capacity E E1 E2 row). Qed.

Lemma split_then_merge_is_identity_without_nul_witness :
  exists row E1 E2,
    (List.length (_rows text_buffer_at_1) < 4)%nat
    /\ at_ (_rows text_buffer_at_1) (_cy text_buffer_at_1) = Some row
    /\ 0 < _cx text_buffer_at_1 <= len (chars row)
    /\ ~ In NUL (skipn (Z.to_nat (_cx text_buffer_at_1)) (chars row))
    /\ _insertNewLine [] 0 4 text_buffer_at_1 = Some E1
    /\ map chars (_rows E1) = [B "a"; B "b"; B "c"; B "d"]
    /\ _delChar [] 0 E1 = Some E2
    /\ map chars (_rows E2) = map chars (_rows text_buffer_at_1)
    /\ _cx E2 = _cx text_buffer_at_1 /\ _cy E2 = _cy text_buffer_at_1.
Proof.
  destruct (_insertNewLine [] 0 4 text_buffer_at_1) as [E1|] eqn:H4;
    [|vm_compute in H4; discriminate].
  assert (HE1 : Some E1 = _insertNewLine [] 0 4 text_buffer_at_1) by now rewrite H4.
  vm_compute in HE1. injection HE1 as HE1.
  destruct (_delChar [] 0 E1) as [E2|] eqn:H5;
    [|rewrite HE1 in H5; vm_compute in H5; discriminate].
  exists (mkRow 0 2 2 (B "ab") (B "ab") [HL_NORMAL; HL_NORMAL] false), E1, E2.
  assert (H1 : at_ (_rows text_buffer_at_1) (_cy text_buffer_at_1)
               = Some (mkRow 0 2 2 (B "ab") (B "ab") [HL_NORMAL; HL_NORMAL] false))
    by (vm_compute; reflexivity).
  assert (H2 : 0 < _cx text_buffer_at_1
               <= len (chars (mkRow 0 2 2 (B "ab") (B "ab")
                                [HL_NORMAL; HL_NORMAL] false)))
    by (vm_compute; split; congruence).
  assert (H3 : ~ In NUL (skipn (Z.to_nat (_cx text_buffer_at_1))
                  (chars (mkRow 0 2 2 (B "ab") (B "ab")
                            [HL_NORMAL; HL_NORMAL] false))))
    by (vm_compute; intros [F|[]]; discriminate).
  assert (H0 : (List.length (_rows text_buffer_at_1) < 4)%nat)
    by (vm_compute; reflexivity).
  split; [exact H0|]. split; [exact H1|]. split; [exact H2|]. split; [exact H3|].
  split; [reflexivity|]. split; [rewrite HE1; reflexivity|].
  split; [exact H5|].
  exact (split_then_merge_is_identity_without_nul [] 0 4 text_buffer_at_1 E1 E2 _
           H0 H1 H2 H3 H4 H5).
Defined.

(** ** Moving the cursor *)

Lemma rendered_size_nonneg (rs : list Row) (i : Z) (r : Row) :
  Forall row_rendered rs -> at_ rs i = Some r -> 0 <= size r.
Proof.
  intros H Hr. apply at_spec in Hr as [_ Hr]. apply nth_error_In in Hr.
  rewrite Forall_forall in H. destruct (H r Hr) as [-> _]. unfold len. lia.
Qed.

Lemma snap_valid (E : Editor) (x y : Z) :
  Forall row_rendered (_rows E) -> 0 <= y <= len (_rows E) -> 0 <= x ->
  exists x', snap (with_cursor E x y) = Some (with_cursor E x' y)
             /\ cursor_valid (with_cursor E x' y)
             /\ (cursor_valid (with_cursor E x y) -> x' = x).
Proof.
  intros Hrend Hy Hx. unfold snap. simpl.
  destruct (Z.ltb_spec y (len (_rows E))) as [Hlt|Hge].
  - destruct (at_some (_rows E) y) as (r & Hr); [lia|]. rewrite Hr. simpl.
    pose proof (rendered_size_nonneg _ _ _ Hrend Hr) as Hsz.
    destruct (Z.gtb_spec x (size r)) as [Hgt|Hle].
    + exists (size r). split; [reflexivity|]. split.
      * unfold cursor_valid. simpl. repeat split; try lia.
        intros row Hrow. rewrite Hr in Hrow. injection Hrow as <-. lia.
      * intros (_ & _ & Hv & _). simpl in Hv. specialize (Hv r Hr). lia.
    + exists x. split; [reflexivity|]. split; [|reflexivity].
      unfold cursor_valid. simpl. repeat split; try lia.
      intros row Hrow. rewrite Hr in Hrow. injection Hrow as <-. lia.
  - simpl. assert (y = len (_rows E)) by lia. subst y.
    destruct (Z.gtb_spec x 0) as [Hgt|Hle].
    + exists 0. split; [reflexivity|]. split.
      * unfold cursor_valid. simpl. repeat split; try lia.
        intros row Hrow. apply at_lt in Hrow. lia.
      * intros (_ & _ & _ & Hv). simpl in Hv. specialize (Hv eq_refl). lia.
    + exists x. split; [reflexivity|]. split; [|reflexivity].
      unfold cursor_valid. simpl. repeat split; try lia.
      intros row Hrow. apply at_lt in Hrow. lia.
Qed.

Lemma with_cursor_same (E : Editor) : with_cursor E (_cx E) (_cy E) = E.
Proof. now destruct E. Qed.

Lemma moveCursor_by_target (E : Editor) (key : Z) :
  _moveCursor E key
  = (t <- arrow_target E key ;; snap (with_cursor E (fst t) (snd t))).
Proof.
  unfold _moveCursor, arrow_target.
  destruct (key =? ARROW_LEFT).
  { destruct (negb (_cx E =? 0)); [reflexivity|].
    destruct (_cy E >? 0); [destruct (at_ _ _); reflexivity|].
    simpl. now rewrite with_cursor_same. }
  destruct (key =? ARROW_RIGHT).
  { destruct (_cy E <? len (_rows E)); [|simpl; now rewrite with_cursor_same].
    destruct (at_ _ _); [|reflexivity]. simpl.
    destruct (_cx E <? size r); [reflexivity|].
    destruct (_cx E =? size r); [reflexivity|].
    simpl. now rewrite with_cursor_same. }
  destruct (key =? ARROW_UP).
  { destruct (negb (_cy E =? 0)); [reflexivity|].
    simpl. now rewrite with_cursor_same. }
  destruct (key =? ARROW_DOWN).
  { destruct (_cy E <? len (_rows E)); [reflexivity|].
    simpl. now rewrite with_cursor_same. }
  simpl. now rewrite with_cursor_same.
Qed.

Lemma with_cursor_twice (E : Editor) (a b c d : Z) :
  with_cursor (with_cursor E a b) c d = with_cursor E c d.
Proof. reflexivity. Qed.

Lemma snap_id (E : Editor) (x y : Z) :
  Forall row_rendered (_rows E) -> cursor_valid (with_cursor E x y) ->
  snap (with_cursor E x y) = Some (with_cursor E x y).
Proof.
  intros Hrend Hv. pose proof Hv as (Hy & Hx & _). simpl in Hy, Hx.
  destruct (snap_valid E x y Hrend Hy Hx) as (x' & Hs & _ & Hx').
  rewrite Hs, (Hx' Hv). reflexivity.
Qed.

Lemma snap_back (E : Editor) (a b : Z) :
  Forall row_rendered (_rows E) -> cursor_valid E ->
  snap (with_cursor (with_cursor E a b) (_cx E) (_cy E)) = Some E.
Proof.
  intros Hrend Hv. rewrite with_cursor_twice.
  transitivity (Some (with_cursor E (_cx E) (_cy E)));
    [|now rewrite with_cursor_same].
  apply snap_id; [exact Hrend|]. now rewrite with_cursor_same.
Qed.

Lemma cursor_valid_at (E : Editor) (x y : Z) (r : Row) :
  at_ (_rows E) y = Some r -> 0 <= x <= size r ->
  cursor_valid (with_cursor E x y).
Proof.
  intros Hr Hx. pose proof (at_lt _ _ _ Hr) as Hy.
  unfold cursor_valid. simpl. repeat split; try lia.
  intros row Hrow. rewrite Hr in Hrow. injection Hrow as <-. lia.
Qed.

Lemma cursor_valid_end (E : Editor) :
  cursor_valid (with_cursor E 0 (len (_rows E))).
Proof.
  unfold cursor_valid. simpl. unfold len. repeat split; try lia.
  intros row Hrow. apply at_lt in Hrow. unfold len in Hrow. lia.
Qed.

Lemma cursor_valid_col0 (E : Editor) (y : Z) :
  Forall row_rendered (_rows E) -> 0 <= y <= len (_rows E) ->
  cursor_valid (with_cursor E 0 y).
Proof.
  intros Hrend Hy. destruct (Z.eq_dec y (len (_rows E))) as [->|Hne].
  - apply cursor_valid_end.
  - destruct (at_some (_rows E) y) as (r & Hr); [lia|].
    apply (cursor_valid_at E 0 y r Hr).
    pose proof (rendered_size_nonneg _ _ _ Hrend Hr). lia.
Qed.

Lemma arrow_target_bounds (E : Editor) (key : Z) :
  cursor_valid E -> Forall row_rendered (_rows E) ->
  exists x y, arrow_target E key = Some (x, y)
              /\ 0 <= y <= len (_rows E) /\ 0 <= x.
Proof.
  intros (Hy & Hx & Hin & Hend) Hrend. unfold arrow_target.
  destruct (key =? ARROW_LEFT).
  { destruct (Z.eqb_spec (_cx E) 0) as [Hc|Hc]; simpl.
    - destruct (Z.gtb_spec (_cy E) 0) as [Hg|Hg].
      + destruct (at_some (_rows E) (_cy E - 1)) as (r & Hr); [lia|].
        rewrite Hr. simpl. do 2 eexists. split; [reflexivity|].
        pose proof (rendered_size_nonneg _ _ _ Hrend Hr). lia.
      + do 2 eexists. split; [reflexivity|]. lia.
    - do 2 eexists. split; [reflexivity|]. lia. }
  destruct (key =? ARROW_RIGHT).
  { destruct (Z.ltb_spec (_cy E) (len (_rows E))) as [Hl|Hl].
    - destruct (at_some (_rows E) (_cy E)) as (r & Hr); [lia|].
      rewrite Hr. simpl. specialize (Hin r Hr).
      destruct (Z.ltb_spec (_cx E) (size r)).
      + do 2 eexists. split; [reflexivity|]. lia.
      + destruct (Z.eqb_spec (_cx E) (size r)).
        * do 2 eexists. split; [reflexivity|]. lia.
        * do 2 eexists. split; [reflexivity|]. lia.
    - do 2 eexists. split; [reflexivity|]. lia. }
  destruct (key =? ARROW_UP).
  { destruct (Z.eqb_spec (_cy E) 0); simpl;
      do 2 eexists; (split; [reflexivity|]); lia. }
  destruct (key =? ARROW_DOWN).
  { destruct (Z.ltb_spec (_cy E) (len (_rows E)));
      do 2 eexists; (split; [reflexivity|]); lia. }
  do 2 eexists. split; [reflexivity|]. lia.
Qed.

(** X11: from a cursor on a row of the buffer and inside it (or at the
    start of the line one past the last), [_moveCursor] returns for
    every key, changes nothing but the cursor, and leaves the cursor
    on a row and inside it again; a key that is no arrow key leaves the
    cursor where it is. *)
Theorem moveCursor_keeps_cursor_valid (E : Editor) (key : Z) :
  cursor_valid E -> Forall row_rendered (_rows E) ->
  exists x y,
    _moveCursor E key = Some (with_cursor E x y)
    /\ cursor_valid (with_cursor E x y)
    /\ (key <> ARROW_LEFT -> key <> ARROW_RIGHT -> key <> ARROW_UP ->
        key <> ARROW_DOWN -> x = _cx E /\ y = _cy E).
Proof.
  intros Hv Hrend.
  destruct (arrow_target_bounds E key Hv Hrend) as (x & y & Ht & Hy & Hx).
  destruct (snap_valid E x y Hrend Hy Hx) as (x' & Hs & Hv' & Hsame).
  exists x', y. rewrite moveCursor_by_target, Ht. simpl.
  split; [exact Hs|]. split; [exact Hv'|].
  intros H1 H2 H3 H4. unfold arrow_target in Ht.
  apply Z.eqb_neq in H1, H2, H3, H4. rewrite H1, H2, H3, H4 in Ht.
  injection Ht as <- <-. split; [|reflexivity].
  apply Hsame. now rewrite with_cursor_same.
Qed.

Lemma moveCursor_keeps_cursor_valid_witness :
  cursor_valid text_buffer_at_1
  /\ Forall row_rendered (_rows text_buffer_at_1)
  /\ _moveCursor text_buffer_at_1 ARROW_DOWN
     = Some (with_cursor text_buffer_at_1 1 1)
  /\ exists x y,
       _moveCursor text_buffer_at_1 ARROW_DOWN
       = Some (with_cursor text_buffer_at_1 x y)
       /\ cursor_valid (with_cursor text_buffer_at_1 x y).
Proof.
  assert (H1 : cursor_valid text_buffer_at_1).
  { apply (cursor_valid_at text_buffer 1 0
             (mkRow 0 2 2 (B "ab") (B "ab") [HL_NORMAL; HL_NORMAL] false));
      [vm_compute; reflexivity | vm_compute; split; congruence]. }
  assert (H2 : Forall row_rendered (_rows text_buffer_at_1))
    by by_rows text_buffer_at_1.
  split; [exact H1|]. split; [exact H2|]. split; [vm_compute; reflexivity|].
  destruct (moveCursor_keeps_cursor_valid text_buffer_at_1 ARROW_DOWN H1 H2)
    as (x & y & Hm & Hv & _).
  exists x, y. split; [exact Hm|exact Hv].
Defined.

(** X12: the right arrow followed by the left arrow brings the cursor
    back when it was on a row of the buffer, line wraps included; the
    left arrow followed by the right arrow brings it back unless it was
    at the start of the buffer. *)
Theorem arrow_right_left_round_trip (E : Editor) :
  cursor_valid E -> Forall row_rendered (_rows E) ->
  (_cy E < len (_rows E) ->
   exists E1, _moveCursor E ARROW_RIGHT = Some E1
              /\ _moveCursor E1 ARROW_LEFT = Some E)
  /\ (_cx E <> 0 \/ _cy E <> 0 ->
      exists E1, _moveCursor E ARROW_LEFT = Some E1
                 /\ _moveCursor E1 ARROW_RIGHT = Some E).
Proof.
  intros Hv Hrend. pose proof Hv as (Hy & Hx & Hin & Hend). split.
  - intros Hrow.
    destruct (at_some (_rows E) (_cy E)) as (r & Hr); [lia|].
    specialize (Hin r Hr).
    destruct (Z.eq_dec (_cx E) (size r)) as [Heq|Hne].
    + exists (with_cursor E 0 (_cy E + 1)). split.
      * rewrite moveCursor_by_target. unfold arrow_target.
        change (ARROW_RIGHT =? ARROW_LEFT) with false.
        change (ARROW_RIGHT =? ARROW_RIGHT) with true. cbv iota.
        destruct (Z.ltb_spec (_cy E) (len (_rows E))); [|lia].
        rewrite Hr. simpl.
        destruct (Z.ltb_spec (_cx E) (size r)); [lia|].
        destruct (Z.eqb_spec (_cx E) (size r)); [|lia]. simpl.
        apply snap_id; [exact Hrend|].
        apply cursor_valid_col0; [exact Hrend | lia].
      * rewrite moveCursor_by_target. unfold arrow_target.
        change (ARROW_LEFT =? ARROW_LEFT) with true. cbv iota. simpl.
        destruct (Z.gtb_spec (_cy E + 1) 0); [|lia].
        replace (_cy E + 1 - 1) with (_cy E) by lia. rewrite Hr. simpl.
        rewrite <- Heq.
        apply snap_back; assumption.
    + exists (with_cursor E (_cx E + 1) (_cy E)). split.
      * rewrite moveCursor_by_target. unfold arrow_target.
        change (ARROW_RIGHT =? ARROW_LEFT) with false.
        change (ARROW_RIGHT =? ARROW_RIGHT) with true. cbv iota.
        destruct (Z.ltb_spec (_cy E) (len (_rows E))); [|lia].
        rewrite Hr. simpl.
        destruct (Z.ltb_spec (_cx E) (size r)); [|lia]. simpl.
        apply snap_id; [exact Hrend|].
        apply (cursor_valid_at E _ _ r Hr). lia.
      * rewrite moveCursor_by_target. unfold arrow_target.
        change (ARROW_LEFT =? ARROW_LEFT) with true. cbv iota. simpl.
        destruct (Z.eqb_spec (_cx E + 1) 0); [lia|]. simpl.
        replace (_cx E + 1 - 1) with (_cx E) by lia.
        apply snap_back; assumption.
  - intros Hnot.
    destruct (Z.eq_dec (_cx E) 0) as [Heq|Hne].
    + destruct (at_some (_rows E) (_cy E - 1)) as (r & Hr); [lia|].
      pose proof (rendered_size_nonneg _ _ _ Hrend Hr) as Hsz.
      exists (with_cursor E (size r) (_cy E - 1)). split.
      * rewrite moveCursor_by_target. unfold arrow_target.
        change (ARROW_LEFT =? ARROW_LEFT) with true. cbv iota.
        destruct (Z.eqb_spec (_cx E) 0); [|lia]. simpl.
        destruct (Z.gtb_spec (_cy E) 0); [|lia].
        rewrite Hr. simpl.
        apply snap_id; [exact Hrend|].
        apply (cursor_valid_at E _ _ r Hr). lia.
      * rewrite moveCursor_by_target. unfold arrow_target.
        change (ARROW_RIGHT =? ARROW_LEFT) with false.
        change (ARROW_RIGHT =? ARROW_RIGHT) with true. cbv iota. simpl.
        destruct (Z.ltb_spec (_cy E - 1) (len (_rows E))); [|lia].
        rewrite Hr. simpl.
        destruct (Z.ltb_spec (size r) (size r)); [lia|].
        rewrite Z.eqb_refl. simpl.
        replace (_cy E - 1 + 1) with (_cy E) by lia.
        rewrite <- Heq.
        apply snap_back; assumption.
    + exists (with_cursor E (_cx E - 1) (_cy E)).
      assert (Hlt : _cy E < len (_rows E)) by (destruct (Z.eq_dec (_cy E) (len (_rows E))); [tauto|lia]).
      destruct (at_some (_rows E) (_cy E)) as (r & Hr); [lia|].
      specialize (Hin r Hr). split.
      * rewrite moveCursor_by_target. unfold arrow_target.
        change (ARROW_LEFT =? ARROW_LEFT) with true. cbv iota.
        destruct (Z.eqb_spec (_cx E) 0); [lia|]. simpl.
        apply snap_id; [exact Hrend|].
        apply (cursor_valid_at E _ _ r Hr). lia.
      * rewrite moveCursor_by_target. unfold arrow_target.
        change (ARROW_RIGHT =? ARROW_LEFT) with false.
        change (ARROW_RIGHT =? ARROW_RIGHT) with true. cbv iota. simpl.
        destruct (Z.ltb_spec (_cy E) (len (_rows E))); [|lia].
        rewrite Hr. simpl.
        destruct (Z.ltb_spec (_cx E - 1) (size r)); [|lia]. simpl.
        replace (_cx E - 1 + 1) with (_cx E) by lia.
        apply snap_back; assumption.
Qed.

Lemma arrow_right_left_round_trip_witness :
  cursor_valid text_buffer_at_1
  /\ Forall row_rendered (_rows text_buffer_at_1)
  /\ _cy text_buffer_at_1 < len (_rows text_buffer_at_1)
  /\ exists E1,
       _moveCursor text_buffer_at_1 ARROW_RIGHT = Some E1
       /\ _moveCursor E1 ARROW_LEFT = Some text_buffer_at_1.
Proof.
  assert (H1 : cursor_valid text_buffer_at_1).
  { apply (cursor_valid_at text_buffer 1 0
             (mkRow 0 2 2 (B "ab") (B "ab") [HL_NORMAL; HL_NORMAL] false));
      [vm_compute; reflexivity | vm_compute; split; congruence]. }
  assert (H2 : Forall row_rendered (_rows text_buffer_at_1))
    by by_rows text_buffer_at_1.
  assert (H3 : _cy text_buffer_at_1 < len (_rows text_buffer_at_1))
    by (vm_compute; reflexivity).
  split; [exact H1|]. split; [exact H2|]. split; [exact H3|].
  exact (proj1 (arrow_right_left_round_trip text_buffer_at_1 H1 H2) H3).
Defined.

(** ** Cursor columns and rendered columns *)

Section RenderColumns.

Variable ts : Z.
Hypothesis ts_pos : 0 < ts.

Lemma pad_loop_exact (fuel : nat) : forall (rend : bytes) (i k : Z),
  0 <= i -> 0 <= k <= Z.of_nat fuel -> (i + k) mod ts = 0 ->
  (forall j, 0 <= j < k -> (i + j) mod ts <> 0) ->
  pad_loop fuel ts rend i = (rend ++ repeat SPACE (Z.to_nat k), i + k).
Proof.
  induction fuel as [|fuel IH]; intros rend i k Hi Hk Hmod Hmin; simpl.
  - replace k with 0 by lia. simpl. rewrite app_nil_r. f_equal. lia.
  - rewrite Z.rem_mod_nonneg by lia.
    destruct (Z.eqb_spec (i mod ts) 0) as [H0|Hne].
    + assert (k = 0).
      { destruct (Z.eq_dec k 0) as [|Hk0]; [assumption|].
        exfalso. apply (Hmin 0); [lia|]. now rewrite Z.add_0_r. }
      subst k. simpl. rewrite app_nil_r. f_equal. lia.
    + assert (Hk0 : k <> 0) by (intros ->; rewrite Z.add_0_r in Hmod; contradiction).
      rewrite (IH (rend ++ [SPACE]) (i + 1) (k - 1)); try lia.
      * rewrite <- app_assoc. simpl.
        replace (Z.to_nat k) with (S (Z.to_nat (k - 1))) by lia.
        simpl. f_equal. lia.
      * now replace (i + 1 + (k - 1)) with (i + k) by lia.
      * intros j Hj. replace (i + 1 + j) with (i + (j + 1)) by lia.
        apply Hmin. lia.
Qed.

(** The padding of a tab ends at the column that [advance_rx] computes. *)
Lemma pad_loop_tab (rend : bytes) (i : Z) :
  0 <= i ->
  pad_loop (Z.to_nat (Z.abs ts)) ts (rend ++ [SPACE]) (i + 1)
  = (rend ++ repeat SPACE (Z.to_nat (ts - Z.rem i ts)),
     i + ((ts - 1) - Z.rem i ts) + 1).
Proof.
  intros Hi. rewrite Z.rem_mod_nonneg by lia.
  pose proof (Z.mod_pos_bound i ts ts_pos) as Hb.
  rewrite (pad_loop_exact _ _ (i + 1) (ts - 1 - i mod ts)); try lia.
  - rewrite <- app_assoc. simpl.
    replace (Z.to_nat (ts - i mod ts)) with (S (Z.to_nat (ts - 1 - i mod ts)))
      by lia.
    simpl. f_equal. lia.
  - replace (i + 1 + (ts - 1 - i mod ts)) with (i - i mod ts + 1 * ts) by lia.
    rewrite Z.mod_add by lia.
    rewrite Zminus_mod_idemp_r, Z.sub_diag. apply Z.mod_0_l. lia.
  - intros j Hj.
    rewrite (Z.div_mod i ts) at 1 by lia.
    replace (ts * (i / ts) + i mod ts + 1 + j)
      with (i mod ts + 1 + j + (i / ts) * ts) by lia.
    rewrite Z.mod_add by lia. rewrite Z.mod_small by lia. lia.
Qed.

(** [_update] and [_rowCxToRx] walk the bytes of a row alike: after
    [n] bytes the render has grown to the column the cursor gets. *)
Lemma render_loop_column (n : nat) : forall (cs rend : bytes) (i : Z),
  (n <= List.length cs)%nat -> 0 <= i ->
  exists ext rx,
    render_loop ts cs n rend i = Some (rend ++ ext, rx)
    /\ cx_to_rx_loop ts cs n i = Some rx
    /\ rx = i + len ext /\ Z.of_nat n <= len ext.
Proof.
  induction n as [|n IH]; intros cs rend i Hn Hi.
  - exists [], i. simpl. rewrite app_nil_r. unfold len. simpl.
    repeat split; try reflexivity; lia.
  - destruct cs as [|c cs]; [simpl in Hn; lia|]. simpl in Hn.
    cbn [render_loop cx_to_rx_loop]. unfold advance_rx.
    destruct (Ascii.eqb c TAB).
    + destruct (Z.eqb_spec ts 0); [lia|].
      rewrite (pad_loop_tab rend i Hi).
      pose proof (Z.rem_bound_pos i ts Hi ts_pos) as Hb.
      destruct (IH cs (rend ++ repeat SPACE (Z.to_nat (ts - Z.rem i ts)))
                  (i + (ts - 1 - Z.rem i ts) + 1)) as (ext & rx & H1 & H2 & H3 & H4);
        [lia | lia |].
      exists (repeat SPACE (Z.to_nat (ts - Z.rem i ts)) ++ ext), rx.
      rewrite app_assoc. split; [exact H1|]. split; [exact H2|].
      unfold len in *. rewrite length_app, repeat_length. lia.
    + destruct (IH cs (rend ++ [c]) (i + 1)) as (ext & rx & H1 & H2 & H3 & H4);
        [lia | lia |].
      exists (c :: ext), rx. rewrite <- app_assoc in H1.
      split; [exact H1|]. split; [exact H2|].
      unfold len in *. simpl. lia.
Qed.

Lemma render_loop_needs_bytes (m : nat) : forall (cs rend : bytes) (i : Z)
  (r : bytes * Z),
  render_loop ts cs m rend i = Some r -> (m <= List.length cs)%nat.
Proof.
  induction m as [|m IHm]; intros cs rend i r H; [lia|].
  simpl in H. destruct cs as [|c cs]; [discriminate|]. simpl.
  destruct (Ascii.eqb c TAB).
  - destruct (ts =? 0); [discriminate|].
    destruct (pad_loop _ _ _ _) as [r1 i1]. specialize (IHm _ _ _ _ H). lia.
  - specialize (IHm _ _ _ _ H). lia.
Qed.

(** The render of the first [n] bytes is the start of the render of
    the first [n + m]. *)
Lemma render_loop_prefix (n : nat) : forall (m : nat) (cs rend rend' : bytes)
  (i i' : Z),
  0 <= i ->
  render_loop ts cs (n + m) rend i = Some (rend', i') ->
  exists r1 i1 ext,
    render_loop ts cs n rend i = Some (r1, i1)
    /\ rend' = r1 ++ ext /\ i1 <= i'.
Proof.
  induction n as [|n IH]; intros m cs rend rend' i i' Hi H.
  - simpl in H |- *.
    pose proof (render_loop_needs_bytes _ _ _ _ _ H) as Hm.
    destruct (render_loop_column m cs rend i Hm Hi) as (ext & rx & H1 & _ & H3 & H4).
    rewrite H1 in H. injection H as <- <-.
    exists rend, i, ext. split; [reflexivity|]. split; [reflexivity|].
    unfold len in *. lia.
  - cbn [Nat.add render_loop] in H |- *.
    destruct cs as [|c cs]; [discriminate|].
    destruct (Ascii.eqb c TAB).
    + destruct (Z.eqb_spec ts 0); [lia|].
      rewrite (pad_loop_tab rend i Hi) in H |- *.
      pose proof (Z.rem_bound_pos i ts Hi ts_pos) as Hb.
      apply (IH _ _ _ _ _ _) in H; [exact H | lia].
    + apply (IH _ _ _ _ _ _) in H; [exact H | lia].
Qed.

Lemma cx_to_rx_loop_split (n : nat) : forall (m : nat) (cs : bytes) (rx : Z),
  cx_to_rx_loop ts cs (n + m) rx
  = (r <- cx_to_rx_loop ts cs n rx ;; cx_to_rx_loop ts (skipn n cs) m r).
Proof.
  induction n as [|n IH]; intros m cs rx; [reflexivity|].
  cbn [Nat.add cx_to_rx_loop]. destruct cs as [|c cs]; [reflexivity|].
  destruct (advance_rx ts c rx) as [rx'|]; [|reflexivity]. simpl. apply IH.
Qed.

Lemma cx_to_rx_loop_no_tab (n : nat) : forall (cs : bytes) (rx : Z),
  (n <= List.length cs)%nat -> ~ In TAB cs ->
  cx_to_rx_loop ts cs n rx = Some (rx + Z.of_nat n).
Proof.
  induction n as [|n IH]; intros cs rx Hn Htab; simpl; [f_equal; lia|].
  destruct cs as [|c cs]; [simpl in Hn; lia|]. simpl in Hn.
  unfold advance_rx. destruct (Ascii.eqb_spec c TAB) as [->|_].
  - exfalso. apply Htab. now left.
  - simpl. rewrite IH; [f_equal; lia | lia |].
    intros Hin. apply Htab. now right.
Qed.

(** What the walk of [_rowRxToCx] returns: the number of bytes whose
    columns lie at or before [rx]. *)
Lemma rx_to_cx_loop_finds (m : nat) : forall (cs : bytes) (cx0 rx0 rx : Z),
  (m <= List.length cs)%nat -> 0 <= rx0 <= rx ->
  exists k rk,
    (k <= m)%nat
    /\ rx_to_cx_loop ts cs m cx0 rx0 rx = Some (cx0 + Z.of_nat k)
    /\ cx_to_rx_loop ts cs k rx0 = Some rk /\ rk <= rx
    /\ ((k < m)%nat ->
        exists rk', cx_to_rx_loop ts cs (S k) rx0 = Some rk' /\ rx < rk').
Proof.
  induction m as [|m IH]; intros cs cx0 rx0 rx Hm Hrx.
  - exists 0%nat, rx0. simpl. split; [lia|]. split; [f_equal; lia|].
    split; [reflexivity|]. split; [lia|]. lia.
  - destruct cs as [|c cs]; [simpl in Hm; lia|]. simpl in Hm.
    destruct (advance_rx_grows ts ts_pos c rx0) as (cur & Hcur & Hlt); [lia|].
    cbn [rx_to_cx_loop]. rewrite Hcur. simpl.
    destruct (Z.gtb_spec cur rx) as [Hgt|Hle].
    + exists 0%nat, rx0. split; [lia|]. split; [f_equal; lia|].
      split; [reflexivity|]. split; [lia|]. intros _. exists cur.
      simpl. rewrite Hcur. simpl. split; [reflexivity | lia].
    + destruct (IH cs (cx0 + 1) cur rx) as (k & rk & Hk & H1 & H2 & H3 & H4);
        [lia | lia |].
      exists (S k), rk. split; [lia|]. split; [rewrite H1; f_equal; lia|].
      split; [simpl; rewrite Hcur; exact H2|]. split; [exact H3|].
      intros Hlt'. destruct H4 as (rk' & H5 & H6); [lia|].
      exists rk'. split; [|exact H6].
      change (cx_to_rx_loop ts (c :: cs) (S (S k)) rx0)
        with (r <- advance_rx ts c rx0 ;; cx_to_rx_loop ts cs (S k) r).
      rewrite Hcur. exact H5.
Qed.

End RenderColumns.

(** X13: for a row that [_update] has rendered, [_rowCxToRx] gives the
    cursor the column at which the render of the bytes before it ends:
    the first [rx] bytes of [render] are what [_update] derives from the
    first [cx] bytes of [chars]; [rx] is at least [cx], at most [rsize],
    and is [rsize] at the end of the row. *)
Theorem cursor_column_is_rendered_width (E : Editor) (rowId : Z) (row : Row)
  (cx : Z) :
  0 < _tabStop E -> at_ (_rows E) rowId = Some row ->
  size row = len (chars row) -> row_fresh (_tabStop E) row ->
  0 <= cx <= size row ->
  exists rx,
    _rowCxToRx E rowId cx = Some rx
    /\ cx <= rx <= rsize row
    /\ render_loop (_tabStop E) (chars row) (Z.to_nat cx) [] 0
       = Some (firstn (Z.to_nat rx) (render row), rx)
    /\ (cx = size row -> rx = rsize row).
Proof.
  intros Hts Hrow Hsize Hfresh [Hc0 Hc1].
  unfold _rowCxToRx. rewrite Hrow. simpl. unfold row_fresh in Hfresh.
  unfold len in Hsize.
  set (n := Z.to_nat cx).
  replace (Z.to_nat (size row)) with (n + (Z.to_nat (size row) - n))%nat
    in Hfresh by lia.
  destruct (render_loop_prefix (_tabStop E) Hts n _ _ _ _ _ _ (Z.le_refl 0) Hfresh)
    as (r1 & i1 & ext & H1 & H2 & H3).
  destruct (render_loop_column (_tabStop E) Hts n (chars row) [] 0)
    as (ext0 & rx & H4 & H5 & H6 & H7); [lia | lia |].
  rewrite H1 in H4. simpl in H4. injection H4 as -> ->.
  exists rx. split; [exact H5|]. unfold len in H6, H7.
  split; [lia|]. split.
  - rewrite H1, H2. do 2 f_equal.
    replace (Z.to_nat rx) with (List.length ext0 + 0)%nat by lia.
    rewrite firstn_app_2. simpl. now rewrite app_nil_r.
  - intros ->. replace (Z.to_nat (size row) - n)%nat with 0%nat in Hfresh by lia.
    rewrite Nat.add_0_r in Hfresh. rewrite H1 in Hfresh. congruence.
Qed.

Lemma cursor_column_is_rendered_width_witness :
  exists rx,
    _rowCxToRx tab_editor 0 2 = Some rx
    /\ rx = 4
    /\ render_loop 4 [ "a"%char; TAB; "b"%char ] 2 [] 0
       = Some (firstn (Z.to_nat rx) (B "a   b"), rx).
Proof.
  destruct (cursor_column_is_rendered_width tab_editor 0 tab_row 2)
    as (rx & H1 & _ & H3 & _);
    [reflexivity | reflexivity | reflexivity | reflexivity
    | split; discriminate |].
  exists rx. split; [exact H1|]. split; [|exact H3].
  vm_compute in H1. now injection H1 as <-.
Defined.

(** X14: along a row [_rowCxToRx] grows at least as fast as the cursor
    column: for two columns [c1 <= c2] inside the row both calls return
    and the render columns are at least [c2 - c1] apart; in a row
    without a tab the render column is the cursor column. *)
Theorem rowCxToRx_grows_with_the_column (E : Editor) (rowId : Z) (row : Row)
  (c1 c2 : Z) :
  0 < _tabStop E -> at_ (_rows E) rowId = Some row ->
  0 <= c1 <= c2 -> c2 <= len (chars row) ->
  exists r1 r2,
    _rowCxToRx E rowId c1 = Some r1 /\ _rowCxToRx E rowId c2 = Some r2
    /\ c1 <= r1 /\ c2 - c1 <= r2 - r1
    /\ (~ In TAB (chars row) -> r1 = c1 /\ r2 = c2).
Proof.
  intros Hts Hrow [H0 H12] H2. unfold _rowCxToRx. rewrite Hrow. simpl.
  unfold len in H2.
  set (n := Z.to_nat c1). set (m := (Z.to_nat c2 - n)%nat).
  replace (Z.to_nat c2) with (n + m)%nat by (unfold m, n; lia).
  rewrite cx_to_rx_loop_split.
  destruct (cx_to_rx_loop_total (_tabStop E) Hts n (chars row) 0)
    as (r1 & Hr1 & Hle1); [unfold n; lia | lia |].
  rewrite Hr1. simpl.
  destruct (cx_to_rx_loop_total (_tabStop E) Hts m (skipn n (chars row)) r1)
    as (r2 & Hr2 & Hle2); [rewrite length_skipn; unfold m, n; lia | lia |].
  exists r1, r2. split; [reflexivity|]. split; [exact Hr2|].
  split; [unfold n in Hle1; lia|]. split; [unfold m, n in Hle2; lia|].
  intros Htab.
  rewrite cx_to_rx_loop_no_tab in Hr1 by (unfold n; lia || assumption).
  injection Hr1 as <-.
  rewrite cx_to_rx_loop_no_tab in Hr2;
    [| rewrite length_skipn; unfold m, n; lia
     | intros Hin; apply Htab;
       rewrite <- (firstn_skipn n (chars row)); apply in_or_app; now right].
  injection Hr2 as <-. unfold m, n. lia.
Qed.

Lemma rowCxToRx_grows_with_the_column_witness :
  exists r1 r2,
    _rowCxToRx tab_editor 0 1 = Some r1 /\ _rowCxToRx tab_editor 0 2 = Some r2
    /\ r1 = 1 /\ r2 = 4 /\ 2 - 1 <= r2 - r1.
Proof.
  destruct (rowCxToRx_grows_with_the_column tab_editor 0 tab_row 1 2)
    as (r1 & r2 & H1 & H2 & _ & H4 & _);
    [reflexivity | reflexivity | split; discriminate | discriminate |].
  exists r1, r2. split; [exact H1|]. split; [exact H2|].
  vm_compute in H1, H2. injection H1 as <-. injection H2 as <-.
  split; [reflexivity|]. split; [reflexivity|exact H4].
Defined.

(** X15: for a render column [rx >= 0], [_rowRxToCx] returns the byte
    that covers it: a column [c] inside the row whose render column is
    at or before [rx], while the render column of [c + 1] lies behind
    [rx] (or [c] is the end of the row, for an [rx] behind the render). *)
Theorem rowRxToCx_finds_the_byte (E : Editor) (rowId : Z) (row : Row) (rx : Z) :
  0 < _tabStop E -> at_ (_rows E) rowId = Some row ->
  size row = len (chars row) -> 0 <= rx ->
  exists c r,
    _rowRxToCx E rowId rx = Some c /\ 0 <= c <= size row
    /\ _rowCxToRx E rowId c = Some r /\ r <= rx
    /\ (c < size row ->
        exists r', _rowCxToRx E rowId (c + 1) = Some r' /\ rx < r').
Proof.
  intros Hts Hrow Hsize Hrx. unfold _rowRxToCx, _rowCxToRx. rewrite Hrow. simpl.
  unfold len in Hsize.
  destruct (rx_to_cx_loop_finds (_tabStop E) Hts (Z.to_nat (size row))
              (chars row) 0 0 rx) as (k & rk & Hk & H1 & H2 & H3 & H4);
    [lia | lia |].
  exists (Z.of_nat k), rk. split; [exact H1|]. split; [lia|].
  rewrite Nat2Z.id. split; [exact H2|]. split; [exact H3|].
  intros Hlt. destruct H4 as (rk' & H5 & H6); [lia|].
  exists rk'. replace (Z.to_nat (Z.of_nat k + 1)) with (S k) by lia.
  split; [exact H5 | exact H6].
Qed.

Lemma rowRxToCx_finds_the_byte_witness :
  exists c r,
    _rowRxToCx tab_editor 0 2 = Some c /\ c = 1
    /\ _rowCxToRx tab_editor 0 c = Some r /\ r <= 2.
Proof.
  destruct (rowRxToCx_finds_the_byte tab_editor 0 tab_row 2)
    as (c & r & H1 & _ & H3 & H4 & _);
    [reflexivity | reflexivity | reflexivity | discriminate |].
  exists c, r. split; [exact H1|]. split; [|split; [exact H3|exact H4]].
  vm_compute in H1. now injection H1 as <-.
Defined.

(** ** The viewport *)

(** The offset that [_scroll] computes for a position is kept by a
    second computation. *)
Lemma window_settles (pos off n : Z) :
  let o2 := if pos >=? (if pos <? off then pos else off) + n
            then pos - n + 1
            else if pos <? off then pos else off in
  (if pos >=? (if pos <? o2 then pos else o2) + n
   then pos - n + 1
   else if pos <? o2 then pos else o2) = o2.
Proof.
  cbv zeta.
  repeat match goal with
         | |- context [if ?b then _ else _] =>
             lazymatch b with
             | context [if _ then _ else _] => fail
             | _ => destruct b eqn:?
             end
         end;
    rewrite ?Z.geb_leb, ?Z.leb_le, ?Z.leb_gt, ?Z.ltb_lt, ?Z.ltb_ge in *; lia.
Qed.

Lemma scroll_settles (E E' : Editor) :
  _scroll E = Some E' -> _scroll E' = Some E'.
Proof.
  unfold _scroll. intros H.
  destruct (if (0 <=? _cy E) && (_cy E <? len (_rows E))
            then _rowCxToRx E (_cy E) (_cx E) else Some 0) as [rx|] eqn:Hrx;
    [|discriminate].
  simpl in H. injection H as <-.
  cbn [_cx _cy _rows _rowOffset _colOffset _screenRows _screenCols with_view].
  change (_rowCxToRx (with_view E rx _ _) (_cy E) (_cx E))
    with (_rowCxToRx E (_cy E) (_cx E)).
  rewrite Hrx. simpl.
  pose proof (window_settles (_cy E) (_rowOffset E) (_screenRows E)) as Hr.
  pose proof (window_settles rx (_colOffset E) (_screenCols E)) as Hc.
  cbv zeta in Hr, Hc. rewrite Hr, Hc. reflexivity.
Qed.

(** X16: [_scroll] settles at once: applied to its own result it
    changes nothing, whatever the screen size and the offsets were. *)
Theorem scroll_twice_is_scroll_once (E E' : Editor) :
  _scroll E = Some E' -> _scroll E' = Some E'.
Proof. exact (scroll_settles E E'). Qed.

Lemma scroll_twice_is_scroll_once_witness :
  exists E',
    _scroll scrolled_editor = Some E'
    /\ (_rx E', _rowOffset E', _colOffset E') = (4, 0, 4)
    /\ _scroll E' = Some E'.
Proof.
  destruct (_scroll scrolled_editor) as [E'|] eqn:H;
    [|vm_compute in H; discriminate].
  exists E'. split; [reflexivity|]. split.
  - vm_compute in H. now injection H as <-.
  - exact (scroll_twice_is_scroll_once scrolled_editor E' H).
Defined.

(** ** Choosing the syntax rule *)

Lemma rfind_dot_none (s : bytes) : ~ In DOT s -> rfind_dot s = None.
Proof.
  induction s as [|c s IH]; intros Hs; [reflexivity|]. simpl.
  rewrite IH by (intros Hin; apply Hs; now right).
  destruct (Ascii.eqb_spec c DOT) as [->|_]; [|reflexivity].
  exfalso. apply Hs. now left.
Qed.

Lemma rfind_dot_last (stem tail : bytes) :
  ~ In DOT tail -> rfind_dot (stem ++ DOT :: tail) = Some (DOT :: tail).
Proof.
  intros Htail. induction stem as [|c stem IH]; simpl.
  - now rewrite (rfind_dot_none tail Htail).
  - now rewrite IH.
Qed.

Lemma rfind_dot_some (s e : bytes) :
  rfind_dot s = Some e ->
  exists stem tail, s = stem ++ e /\ e = DOT :: tail.
Proof.
  revert e. induction s as [|c s IH]; intros e H; [discriminate|].
  simpl in H. destruct (rfind_dot s) as [e'|].
  - injection H as <-. destruct (IH e' eq_refl) as (stem & tail & -> & ->).
    exists (c :: stem), tail. split; reflexivity.
  - destruct (Ascii.eqb_spec c DOT) as [->|_]; [|discriminate].
    injection H as <-. exists [], s. split; reflexivity.
Qed.

Lemma extension_shape (ext : bytes) :
  In ext C_HL_extensions -> exists tail, ext = DOT :: tail /\ ~ In DOT tail.
Proof.
  intros [<-|[<-|[<-|[<-|[]]]]]; eexists; (split; [reflexivity|]);
    simpl; intros H; repeat destruct H as [H|H]; discriminate || contradiction.
Qed.

Lemma existsb_bytes_eqb (x : bytes) (l : list bytes) :
  existsb (bytes_eqb x) l = true <-> In x l.
Proof.
  rewrite existsb_exists. split.
  - intros (y & Hy & Heq). apply bytes_eqb_eq in Heq. now subst.
  - intros H. exists x. split; [exact H|]. now apply bytes_eqb_eq.
Qed.

Section SyntaxChoice.

Variable past_end : bytes.
Variable depth : nat.

Lemma update_all_syntax (n : nat) : forall (i : nat) (E E' : Editor),
  update_all past_end depth n i E = Some E' -> _syntax E' = _syntax E.
Proof.
  induction n as [|n IH]; intros i E E' H; simpl in H.
  - now injection H as <-.
  - bind_inv H as E1 HE1. rewrite (IH _ _ _ H).
    destruct (updateSyntax_text past_end depth E E1 i HE1) as (rs & -> & _).
    reflexivity.
Qed.

Lemma selectSyntaxHighlight_syntax (E E' : Editor) :
  _selectSyntaxHighlight past_end depth E = Some E' ->
  _syntax E'
  = match rfind_dot (_filename E) with
    | Some ext => if existsb (bytes_eqb ext) C_HL_extensions
                  then Some C_syntax else None
    | None => None
    end.
Proof.
  unfold _selectSyntaxHighlight. intros H.
  change (_filename (with_syntax E None)) with (_filename E) in H.
  destruct (Z.eqb_spec (len (_filename E)) 0) as [Hlen|Hlen].
  - injection H as <-. destruct (_filename E); [reflexivity|discriminate].
  - destruct (rfind_dot (_filename E)) as [ext|] eqn:Hext;
      [|now injection H as <-].
    destruct (rfind_dot_some _ _ Hext) as (stem & tail & _ & ->).
    assert (Hm : existsb (file_matches (_filename E) (DOT :: tail)) C_HL_extensions
                 = existsb (bytes_eqb (DOT :: tail)) C_HL_extensions).
    { assert (H0 : (0 <? len (DOT :: tail)) = true)
        by (apply Z.ltb_lt; unfold len; simpl; lia).
      unfold C_HL_extensions, file_matches.
      cbn [existsb str_index nth B list_ascii_of_string Ascii.eqb DOT
           Bool.eqb negb andb orb].
      rewrite H0. cbn [andb]. rewrite !orb_false_r. reflexivity. }
    unfold HLDB in H. cbn [find] in H.
    change (filematch C_syntax) with C_HL_extensions in H. rewrite Hm in H.
    destruct (existsb (bytes_eqb (DOT :: tail)) C_HL_extensions).
    + now rewrite (update_all_syntax _ _ _ _ H).
    + now injection H as <-.
Qed.

End SyntaxChoice.

(** X17: when [_selectSyntaxHighlight] returns, the syntax rule is the
    C rule or none, and it is the C rule exactly when the file name
    ends in [.c], [.h], [.cpp] or [.cc]; the part from the last dot on
    decides, in the case it is written. *)
Theorem syntax_selected_by_extension (past_end : bytes) (depth : nat)
  (E E' : Editor) :
  _selectSyntaxHighlight past_end depth E = Some E' ->
  (_syntax E' = Some C_syntax \/ _syntax E' = None)
  /\ (_syntax E' = Some C_syntax <->
      exists stem ext, _filename E = stem ++ ext /\ In ext C_HL_extensions).
Proof.
  intros H. rewrite (selectSyntaxHighlight_syntax past_end depth E E' H).
  destruct (rfind_dot (_filename E)) as [ext0|] eqn:Hext.
  - destruct (existsb (bytes_eqb ext0) C_HL_extensions) eqn:Hin.
    + split; [now left|]. split; [|reflexivity]. intros _.
      apply existsb_bytes_eqb in Hin.
      destruct (rfind_dot_some _ _ Hext) as (stem & _ & Hs & _). eauto.
    + split; [now right|]. split; [discriminate|].
      intros (stem & ext & Hs & Hin'). exfalso.
      destruct (extension_shape ext Hin') as (tail & -> & Htail).
      rewrite Hs, (rfind_dot_last stem tail Htail) in Hext.
      injection Hext as <-. apply existsb_bytes_eqb in Hin'. congruence.
  - split; [now right|]. split; [discriminate|].
    intros (stem & ext & Hs & Hin'). exfalso.
    destruct (extension_shape ext Hin') as (tail & -> & Htail).
    rewrite Hs, (rfind_dot_last stem tail Htail) in Hext. discriminate.
Qed.

Lemma syntax_selected_by_extension_witness :
  exists E',
    _selectSyntaxHighlight [] 0 (with_filename text_buffer (B "main.cpp"))
    = Some E'
    /\ _syntax E' = Some C_syntax.
Proof.
  destruct (_selectSyntaxHighlight [] 0 (with_filename text_buffer (B "main.cpp")))
    as [E'|] eqn:H; [|vm_compute in H; discriminate].
  exists E'. split; [reflexivity|].
  apply (proj2 (syntax_selected_by_extension [] 0 _ E' H)).
  exists (B "main"), (B ".cpp"). split; [reflexivity|]. simpl. tauto.
Defined.

(** ** Searching *)

Section SearchFacts.

Variable E : Editor.
Variable query : bytes.

Lemma find_cur (q : nat) :
  (q < List.length (_rows E))%nat ->
  (if Z.of_nat q - 1 + 1 =? -1 then len (_rows E) - 1
   else if Z.of_nat q - 1 + 1 =? len (_rows E) then 0
        else Z.of_nat q - 1 + 1) = Z.of_nat q.
Proof.
  intros Hq. unfold len.
  destruct (Z.eqb_spec (Z.of_nat q - 1 + 1) (-1)); [lia|].
  destruct (Z.eqb_spec (Z.of_nat q - 1 + 1) (Z.of_nat (List.length (_rows E))));
    lia.
Qed.

Lemma at_nat {A} (v : list A) (q : nat) : at_ v (Z.of_nat q) = nth_error v q.
Proof.
  unfold at_. destruct (Z.ltb_spec (Z.of_nat q) 0); [lia|].
  now rewrite Nat2Z.id.
Qed.

(** The loop of [_findAction] going down from row [q]: rows without
    the query are passed over. *)
Lemma find_loop_miss (n : nat) : forall (q : nat) (lm line : Z),
  (q + n <= List.length (_rows E))%nat ->
  (forall j r, (q <= j)%nat -> nth_error (_rows E) j = Some r ->
               strstr (render r) query = None) ->
  find_loop n E query (Z.of_nat q - 1) 1 lm line
  = Some (mkProgram E lm 1 [] line).
Proof.
  induction n as [|n IH]; intros q lm line Hq Hmiss; [reflexivity|].
  cbn [find_loop]. rewrite (find_cur q) by lia. rewrite at_nat.
  destruct (nth_error (_rows E) q) as [r|] eqn:Hr;
    [|apply nth_error_None in Hr; lia].
  simpl. rewrite (Hmiss q r (Nat.le_refl q) Hr).
  replace (Z.of_nat q) with (Z.of_nat (S q) - 1) by lia.
  apply IH; [lia|]. intros j r' Hj. apply Hmiss. lia.
Qed.

Lemma find_loop_hit (n : nat) : forall (q p : nat) (lm line : Z) (row : Row)
  (off : nat) (cx : Z),
  (q <= p)%nat -> (p - q < n)%nat ->
  nth_error (_rows E) p = Some row ->
  strstr (render row) query = Some off ->
  _rowRxToCx E (idx row) (Z.of_nat off) = Some cx ->
  (forall j r, (q <= j < p)%nat -> nth_error (_rows E) j = Some r ->
               strstr (render r) query = None) ->
  find_loop n E query (Z.of_nat q - 1) 1 lm line
  = Some (mkProgram
            (with_view
               (with_cursor
                  (with_rows E
                     (set_at (_rows E) p
                        (set_hl row (memset (hl row) off (List.length query)
                                       HL_MATCH) (hl_open_comment row))))
                  cx (Z.of_nat p))
               (_rx E) (len (_rows E)) (_colOffset E))
            (Z.of_nat p) 1 (hl row) (Z.of_nat p)).
Proof.
  induction n as [|n IH]; intros q p lm line row off cx Hqp Hn Hrow Hoff Hcx Hmiss;
    [lia|].
  assert (Hp : (p < List.length (_rows E))%nat)
    by (apply nth_error_Some; congruence).
  cbn [find_loop]. rewrite (find_cur q) by lia. rewrite at_nat.
  destruct (Nat.eq_dec q p) as [->|Hne].
  - rewrite Hrow. simpl. rewrite Hoff, Hcx. simpl. rewrite Nat2Z.id. reflexivity.
  - destruct (nth_error (_rows E) q) as [r|] eqn:Hr;
      [|apply nth_error_None in Hr; lia].
    simpl. rewrite (Hmiss q r) by (lia || assumption).
    replace (Z.of_nat q) with (Z.of_nat (S q) - 1) by lia.
    apply (IH (S q) p lm line row off cx); try assumption; try lia.
    intros j r' Hj. apply Hmiss. lia.
Qed.

End SearchFacts.

Lemma findAction_start (P : Program) (query : bytes) (key : Z) :
  savedHl P = [] -> last_match P = -1 ->
  key <> KEY_RETURN -> key <> KEY_ESC ->
  _findAction P query key
  = find_loop (List.length (_rows (ed P))) (ed P) query
      (Z.of_nat 0 - 1) 1 (-1) (savedHlLine P).
Proof.
  intros Hsaved Hlast Hret Hesc.
  unfold _findAction. rewrite Hsaved, Hlast. simpl.
  apply Z.eqb_neq in Hret, Hesc. rewrite Hret, Hesc. simpl.
  destruct ((key =? ARROW_RIGHT) || (key =? ARROW_DOWN)); [reflexivity|].
  destruct ((key =? ARROW_LEFT) || (key =? ARROW_UP)); reflexivity.
Qed.

Lemma findAction_first_match (P : Program) (query : bytes) (key : Z)
  (p : nat) (row : Row) (off : nat) :
  savedHl P = [] -> last_match P = -1 ->
  key <> KEY_RETURN -> key <> KEY_ESC ->
  0 < _tabStop (ed P) ->
  nth_error (_rows (ed P)) p = Some row ->
  idx row = Z.of_nat p -> size row = len (chars row) ->
  strstr (render row) query = Some off ->
  (forall j r, (j < p)%nat -> nth_error (_rows (ed P)) j = Some r ->
               strstr (render r) query = None) ->
  exists cx,
    _rowRxToCx (ed P) (Z.of_nat p) (Z.of_nat off) = Some cx
    /\ 0 <= cx <= size row
    /\ _findAction P query key
       = Some (mkProgram
                 (with_view
                    (with_cursor
                       (with_rows (ed P)
                          (set_at (_rows (ed P)) p (match_row row off query)))
                       cx (Z.of_nat p))
                    (_rx (ed P)) (len (_rows (ed P))) (_colOffset (ed P)))
                 (Z.of_nat p) 1 (hl row) (Z.of_nat p)).
Proof.
  intros Hsaved Hlast Hret Hesc Hts Hrow Hidx Hsize Hoff Hmiss.
  assert (Hp : (p < List.length (_rows (ed P)))%nat)
    by (apply nth_error_Some; congruence).
  assert (Hat : at_ (_rows (ed P)) (Z.of_nat p) = Some row)
    by now rewrite at_nat.
  assert (Hcx : exists cx, _rowRxToCx (ed P) (Z.of_nat p) (Z.of_nat off) = Some cx
                           /\ 0 <= cx <= size row).
  { unfold _rowRxToCx. rewrite Hat. simpl. unfold len in Hsize.
    destruct (rx_to_cx_loop_finds (_tabStop (ed P)) Hts (Z.to_nat (size row))
                (chars row) 0 0 (Z.of_nat off))
      as (k & rk & Hk & H1 & _); [lia | lia |].
    exists (0 + Z.of_nat k). split; [exact H1 | lia]. }
  destruct Hcx as (cx & Hcx & Hbound).
  exists cx. split; [exact Hcx|]. split; [exact Hbound|].
  rewrite (findAction_start P query key Hsaved Hlast Hret Hesc).
  apply (find_loop_hit (ed P) query _ 0 p (-1) (savedHlLine P) row off cx);
    try assumption; try lia.
  - now rewrite Hidx.
  - intros j r Hj. apply Hmiss. lia.
Qed.

(** X19: a search step from the start (no match so far, no overlay
    pending, any key but Enter and ESC) with a positive tab stop stops
    at the first row whose [render] holds the query.  When the [idx] of
    that row is its position in the buffer (the column is computed
    through [row.idx]) and its [size] is the length of its [chars],
    the cursor goes to that row and to the byte at the match, the row
    offset is set to the number of rows, the bytes of the match get
    [HL_MATCH] and the row's former [hl] is kept aside.  When no row
    holds the query the editor is left as it is. *)
Theorem findAction_finds_first_match (P : Program) (query : bytes) (key : Z) :
  savedHl P = [] -> last_match P = -1 ->
  key <> KEY_RETURN -> key <> KEY_ESC ->
  (forall (p : nat) (row : Row) (off : nat),
     0 < _tabStop (ed P) ->
     nth_error (_rows (ed P)) p = Some row ->
     idx row = Z.of_nat p -> size row = len (chars row) ->
     strstr (render row) query = Some off ->
     (forall j r, (j < p)%nat -> nth_error (_rows (ed P)) j = Some r ->
                  strstr (render r) query = None) ->
     exists cx P',
       _findAction P query key = Some P'
       /\ _rowRxToCx (ed P) (Z.of_nat p) (Z.of_nat off) = Some cx
       /\ 0 <= cx <= size row
       /\ _cy (ed P') = Z.of_nat p /\ _cx (ed P') = cx
       /\ _rowOffset (ed P') = len (_rows (ed P))
       /\ _rows (ed P')
          = set_at (_rows (ed P)) p
              (set_hl row (memset (hl row) off (List.length query) HL_MATCH)
                 (hl_open_comment row))
       /\ last_match P' = Z.of_nat p
       /\ savedHl P' = hl row /\ savedHlLine P' = Z.of_nat p)
  /\ ((forall r, In r (_rows (ed P)) -> strstr (render r) query = None) ->
      _findAction P query key
      = Some (mkProgram (ed P) (-1) 1 [] (savedHlLine P))).
Proof.
  intros Hsaved Hlast Hret Hesc. split.
  - intros p row off Hts Hrow Hidx Hsize Hoff Hmiss.
    destruct (findAction_first_match P query key p row off Hsaved Hlast Hret
                Hesc Hts Hrow Hidx Hsize Hoff Hmiss) as (cx & Hcx & Hb & ->).
    exists cx. eexists. split; [reflexivity|]. split; [exact Hcx|].
    split; [exact Hb|]. simpl. repeat split.
  - intros Hmiss. rewrite (findAction_start P query key Hsaved Hlast Hret Hesc).
    apply find_loop_miss; [lia|].
    intros j r _ Hr. apply Hmiss. eapply nth_error_In; eauto.
Qed.

Lemma findAction_finds_first_match_witness :
  exists cx P',
    _findAction (with_ed Program_new search_buffer) (B "comment") (key "t")
    = Some P'
    /\ cx = 2 /\ _cy (ed P') = 1 /\ _cx (ed P') = cx
    /\ map hl (_rows (ed P'))
       = [repeat HL_NORMAL 3;
          repeat HL_NORMAL 2 ++ repeat HL_MATCH 7;
          repeat HL_NORMAL 3].
Proof.
  destruct (proj1 (findAction_finds_first_match
                     (with_ed Program_new search_buffer) (B "comment") (key "t")
                     eq_refl eq_refl ltac:(discriminate) ltac:(discriminate))
              1%nat
              (mkRow 1 9 9 (B "a comment") (B "a comment")
                 (repeat HL_NORMAL 9) false)
              2%nat)
    as (cx & P' & H1 & H2 & _ & H4 & H5 & _ & H7 & _).
  - reflexivity.
  - vm_compute. reflexivity.
  - reflexivity.
  - reflexivity.
  - vm_compute. reflexivity.
  - intros [|j] r Hj Hr; [|lia]. vm_compute in Hr. injection Hr as <-.
    vm_compute. reflexivity.
  - exists cx, P'. split; [exact H1|].
    vm_compute in H2. injection H2 as <-.
    split; [reflexivity|]. split; [exact H4|]. split; [exact H5|].
    rewrite H7. vm_compute. reflexivity.
Defined.

Lemma set_hl_same (r : Row) : set_hl r (hl r) (hl_open_comment r) = r.
Proof. now destruct r. Qed.

Lemma set_at_id {A} (v : list A) (p : nat) (x : A) :
  nth_error v p = Some x -> set_at v p x = v.
Proof.
  revert p. induction v as [|y v IH]; intros [|p] H; simpl in *;
    try discriminate; try reflexivity.
  - now injection H as ->.
  - now rewrite IH.
Qed.

Lemma set_at_twice {A} (v : list A) (p : nat) (x y : A) :
  set_at (set_at v p x) p y = set_at v p y.
Proof.
  revert p. induction v as [|z v IH]; intros [|p]; simpl; try reflexivity.
  now rewrite IH.
Qed.

(** X20: the overlay of a search step is taken back by the next call of
    [_findAction]: after a step from the start that found the query (in
    a row whose [idx] is its position and whose [size] is the length of
    its [chars], with a positive tab stop), a call for Enter or for ESC
    gives every row its [hl] back, so that the rows are those from
    before the search, and it resets the search state. *)
Theorem findAction_takes_back_the_overlay (P : Program) (query query' : bytes)
  (key key' : Z) (p : nat) (row : Row) (off : nat) :
  savedHl P = [] -> last_match P = -1 ->
  key <> KEY_RETURN -> key <> KEY_ESC ->
  0 < _tabStop (ed P) ->
  nth_error (_rows (ed P)) p = Some row ->
  idx row = Z.of_nat p -> size row = len (chars row) ->
  strstr (render row) query = Some off ->
  (forall j r, (j < p)%nat -> nth_error (_rows (ed P)) j = Some r ->
               strstr (render r) query = None) ->
  key' = KEY_RETURN \/ key' = KEY_ESC ->
  exists P1 P2,
    _findAction P query key = Some P1
    /\ _findAction P1 query' key' = Some P2
    /\ _rows (ed P2) = _rows (ed P)
    /\ (_cx (ed P2), _cy (ed P2)) = (_cx (ed P1), _cy (ed P1))
    /\ last_match P2 = -1 /\ direction P2 = 1 /\ savedHl P2 = [].
Proof.
  intros Hsaved Hlast Hret Hesc Hts Hrow Hidx Hsize Hoff Hmiss Hkey'.
  destruct (findAction_first_match P query key p row off Hsaved Hlast Hret
              Hesc Hts Hrow Hidx Hsize Hoff Hmiss) as (cx & _ & _ & H1).
  rewrite H1.
  assert (Hk : (key' =? KEY_RETURN) || (key' =? KEY_ESC) = true)
    by (destruct Hkey' as [-> | ->]; reflexivity).
  destruct (0 <? len (hl row)) eqn:Hhl; do 2 eexists;
    (split; [reflexivity|]); unfold _findAction;
    cbn [savedHl savedHlLine ed last_match direction _rows with_view
         with_cursor with_rows];
    rewrite Hk, Hhl.
  - rewrite at_nat, Nat2Z.id, (set_at_same _ _ _ _ Hrow).
    cbn [bind]. split; [reflexivity|]. cbn [ed _rows with_rows _cx _cy].
    split; [|repeat split].
    unfold match_row, set_hl. cbn [idx size rsize chars render hl hl_open_comment].
    rewrite set_at_twice.
    change (mkRow (idx row) (size row) (rsize row) (chars row) (render row)
              (hl row) (hl_open_comment row))
      with (set_hl row (hl row) (hl_open_comment row)).
    rewrite set_hl_same. now apply set_at_id.
  - cbn [bind]. split; [reflexivity|]. cbn [ed _rows with_rows _cx _cy].
    split; [|repeat split].
    apply Z.ltb_ge in Hhl.
    assert (Hnil : hl row = [])
      by (destruct (hl row); [reflexivity | unfold len in Hhl; simpl in Hhl; lia]).
    unfold match_row. rewrite Hnil.
    replace (memset [] off (List.length query) HL_MATCH) with (@nil Highlight)
      by (destruct off; reflexivity).
    rewrite <- Hnil, set_hl_same. now apply set_at_id.
Qed.

Lemma findAction_takes_back_the_overlay_witness :
  exists P1 P2,
    _findAction (with_ed Program_new search_buffer) (B "comment") (key "t")
    = Some P1
    /\ _findAction P1 (B "comment") KEY_ESC = Some P2
    /\ _rows (ed P2) = _rows (ed (with_ed Program_new search_buffer)).
Proof.
  assert (H3 : key "t" <> KEY_RETURN) by discriminate.
  assert (H4 : key "t" <> KEY_ESC) by discriminate.
  assert (H5 : 0 < _tabStop (ed (with_ed Program_new search_buffer)))
    by (vm_compute; reflexivity).
  assert (H6 : nth_error (_rows (ed (with_ed Program_new search_buffer))) 1
               = Some (mkRow 1 9 9 (B "a comment") (B "a comment")
                         (repeat HL_NORMAL 9) false))
    by (vm_compute; reflexivity).
  assert (H9 : strstr (render (mkRow 1 9 9 (B "a comment") (B "a comment")
                                 (repeat HL_NORMAL 9) false)) (B "comment")
               = Some 2%nat)
    by (vm_compute; reflexivity).
  assert (H10 : forall j r, (j < 1)%nat ->
                  nth_error (_rows (ed (with_ed Program_new search_buffer))) j
                  = Some r ->
                  strstr (render r) (B "comment") = None).
  { intros [|j] r Hj Hr; [|lia]. vm_compute in Hr. injection Hr as <-.
    vm_compute. reflexivity. }
  destruct (findAction_takes_back_the_overlay
              (with_ed Program_new search_buffer) (B "comment") (B "comment")
              (key "t") KEY_ESC 1%nat _ 2%nat eq_refl eq_refl H3 H4 H5 H6
              eq_refl eq_refl H9 H10 (or_intror eq_refl))
    as (P1 & P2 & H1 & H2 & Hrows & _).
  exists P1, P2. split; [exact H1|]. split; [exact H2|exact Hrows].
Defined.

(** ** The prompt *)

Lemma printable_key (c : Z) :
  32 <= c < 127 ->
  (c =? DEL_KEY) || (c =? CTRL_KEY 104) || (c =? BACKSPACE) = false
  /\ (c =? KEY_ESC) = false /\ (c =? KEY_RETURN) = false
  /\ negb (iscntrl c) && (c <? 128) = true.
Proof.
  intros Hc. unfold DEL_KEY, BACKSPACE, KEY_ESC, KEY_RETURN, iscntrl.
  change (CTRL_KEY 104) with 8.
  repeat match goal with
         | |- context [?a =? ?b] => destruct (Z.eqb_spec a b); [lia|]
         | |- context [?a <? ?b] => destruct (Z.ltb_spec a b)
         | |- context [?a <=? ?b] => destruct (Z.leb_spec a b)
         end; simpl; repeat split; lia.
Qed.

Lemma refreshScreen_settled (P : Program) (E' : Editor) :
  _scroll (ed P) = Some E' ->
  _refreshScreen P = Some (with_ed P E')
  /\ _refreshScreen (with_ed P E') = Some (with_ed P E').
Proof.
  intros H. unfold _refreshScreen. rewrite H. split; [reflexivity|].
  simpl. rewrite (scroll_settles _ _ H). reflexivity.
Qed.

Lemma prompt_typed (text : list Z) : forall (rest : list Z) (buf : bytes)
  (P : Program) (last : Z),
  _refreshScreen P = Some P ->
  Forall (fun c => 32 <= c < 127) text ->
  _prompt None (text ++ last :: rest) buf P
  = _prompt None (last :: rest) (buf ++ map char_of_int text) P.
Proof.
  induction text as [|c text IH]; intros rest buf P last HP Htext.
  - simpl. now rewrite app_nil_r.
  - inversion Htext as [|? ? Hc Htext']; subst.
    destruct (printable_key c Hc) as (H1 & H2 & H3 & H4).
    set (K := _prompt None (last :: rest)).
    cbn [app _prompt]. rewrite HP. cbn [bind]. rewrite H1, H2, H3, H4.
    rewrite (IH rest _ P last HP Htext'). cbn [map].
    rewrite <- app_assoc. reflexivity.
Qed.

(** X18: the prompt that asks for a file name (no callback) returns
    what was typed: printable keys followed by Enter give the bytes of
    the keys, in order, and leave the keys behind Enter unread; the same
    keys followed by ESC give the empty string.  Apart from the scroll
    of the first refresh the editor is unchanged. *)
Theorem prompt_returns_typed_text (P : Program) (E' : Editor)
  (text rest : list Z) :
  _scroll (ed P) = Some E' ->
  Forall (fun c => 32 <= c < 127) text -> text <> [] ->
  _prompt None (text ++ KEY_RETURN :: rest) [] P
  = Some (map char_of_int text, rest, with_ed P E')
  /\ _prompt None (text ++ KEY_ESC :: rest) [] P
     = Some ([], rest, with_ed P E').
Proof.
  intros Hscroll Htext Hne.
  destruct (refreshScreen_settled P E' Hscroll) as (H1 & H2).
  destruct text as [|c text]; [congruence|].
  inversion Htext as [|? ? Hc Htext']; subst.
  destruct (printable_key c Hc) as (K1 & K2 & K3 & K4).
  cbn [app _prompt]. rewrite H1. cbn [bind]. rewrite K1, K2, K3, K4.
  rewrite !(prompt_typed text _ _ _ _ H2 Htext').
  cbn [_prompt]. rewrite H2. cbn [bind].
  change ((KEY_RETURN =? DEL_KEY) || (KEY_RETURN =? CTRL_KEY 104)
          || (KEY_RETURN =? BACKSPACE)) with false.
  change ((KEY_ESC =? DEL_KEY) || (KEY_ESC =? CTRL_KEY 104)
          || (KEY_ESC =? BACKSPACE)) with false.
  change (KEY_RETURN =? KEY_ESC) with false.
  change (KEY_RETURN =? KEY_RETURN) with true.
  change (KEY_ESC =? KEY_ESC) with true.
  cbv iota. split; [|reflexivity].
  unfold len. rewrite length_app, length_map. simpl.
  destruct (Z.eqb_spec (Z.of_nat (1 + List.length text)) 0); [lia|].
  reflexivity.
Qed.

Lemma prompt_returns_typed_text_witness :
  exists E',
    _scroll (ed (with_ed Program_new text_buffer)) = Some E'
    /\ _prompt None [key "a"; key "."; key "c"; KEY_RETURN; key "x"] []
         (with_ed Program_new text_buffer)
       = Some (B "a.c", [key "x"], with_ed (with_ed Program_new text_buffer) E').
Proof.
  destruct (_scroll (ed (with_ed Program_new text_buffer))) as [E'|] eqn:H;
    [|vm_compute in H; discriminate].
  exists E'. split; [reflexivity|].
  refine (proj1 (prompt_returns_typed_text (with_ed Program_new text_buffer) E'
                   [key "a"; key "."; key "c"] [key "x"] H _ _)).
  - repeat constructor; discriminate.
  - discriminate.
Defined.

(** ** Typing and deleting in a buffer numbered by position *)

Lemma buffer_ok_with_dirty (E : Editor) (d : Z) :
  buffer_ok E -> buffer_ok (with_dirty E d).
Proof. intros H. exact H. Qed.

Lemma buffer_ok_with_cursor (E : Editor) (x y : Z) :
  buffer_ok E -> buffer_ok (with_cursor E x y).
Proof. intros H. exact H. Qed.

Section EditFacts.

Variable past_end : bytes.
Variable depth : nat.

(** Row [p] gets the bytes [cs] and is derived again. *)
Lemma row_edit_ok (E : Editor) (p : nat) (row : Row) (cs : bytes) (sz : Z) :
  buffer_ok E -> nth_error (_rows E) p = Some row -> sz = len cs ->
  len (_rows E) - Z.of_nat p <= Z.of_nat depth + 1 ->
  exists E',
    _update past_end depth
      (with_rows E (set_at (_rows E) p (set_chars row cs sz))) (idx row)
    = Some E'
    /\ buffer_ok E'
    /\ map chars (_rows E') = set_at (map chars (_rows E)) p cs
    /\ E' = with_rows E (_rows E').
Proof.
  intros Hok Hrow -> Hd. pose proof Hok as (Hts & Hidx & Hsz & Hfr).
  destruct (buffer_ok_nth E p row Hok Hrow) as (Hi & Hrs & _).
  set (row' := set_chars row cs (len cs)).
  set (E0 := with_rows E (set_at (_rows E) p row')).
  assert (Hp : (p < List.length (_rows E))%nat)
    by (apply nth_error_Some; congruence).
  assert (Hidx0 : idx_contiguous E0).
  { unfold idx_contiguous, E0. simpl.
    apply (idx_from_map_idx (_rows E)); [|exact Hidx].
    now apply map_set_at with (y := row). }
  assert (Hrend0 : Forall row_rendered (_rows E0)).
  { unfold E0. simpl. apply Forall_set_at; [now apply sized_rendered|].
    destruct Hrs as [[_ Hr] _]. split; [reflexivity | exact Hr]. }
  assert (Hother : forall q r, q <> Z.to_nat (idx row) ->
             nth_error (_rows E0) q = Some r -> nth_error (_rows E) q = Some r).
  { intros q r Hq Hr. unfold E0 in Hr. simpl in Hr.
    rewrite set_at_other in Hr by lia. exact Hr. }
  destruct (update_ok past_end depth E0 (idx row))
    as (E' & HE' & Hb & Hi' & Hshape & _ & Hsized & Hfresh);
    try assumption.
  - unfold E0, len. simpl. rewrite set_at_length. lia.
  - unfold E0, len in *. simpl. rewrite set_at_length. lia.
  - exists E'. split; [exact HE'|]. split; [|split].
    + split; [rewrite Hshape; exact Hts|]. split; [|split].
      * unfold idx_contiguous.
        apply (idx_from_map_idx (_rows E0)); [exact Hi' | exact Hidx0].
      * apply Hsized. intros q r Hq Hr.
        exact (rows_sized_nth E q r Hsz (Hother q r Hq Hr)).
      * assert (Hf : rows_fresh E').
        { apply Hfresh. intros q r Hq Hr.
          unfold rows_fresh in Hfr. rewrite Forall_forall in Hfr.
          apply Hfr. eapply nth_error_In. exact (Hother q r Hq Hr). }
        exact Hf.
    + rewrite (bytes_chars _ _ Hb). unfold E0. simpl.
      now rewrite map_set_at_gen.
    + rewrite Hshape. reflexivity.
Qed.

Lemma rowInsertChar_ok (E : Editor) (p : nat) (row : Row) (a c : Z) :
  buffer_ok E -> nth_error (_rows E) p = Some row -> 0 <= a <= size row ->
  len (_rows E) - Z.of_nat p <= Z.of_nat depth + 1 ->
  exists E',
    _rowInsertChar past_end depth E p a c = Some E'
    /\ buffer_ok E'
    /\ map chars (_rows E')
       = set_at (map chars (_rows E)) p
           (firstn (Z.to_nat a) (chars row) ++ char_of_int c
              :: skipn (Z.to_nat a) (chars row))
    /\ E' = with_dirty (with_rows E (_rows E')) (_dirty E + 1).
Proof.
  intros Hok Hrow Ha Hd.
  destruct (buffer_ok_nth E p row Hok Hrow) as (_ & [[Hsize _] _] & _).
  unfold _rowInsertChar. rewrite Hrow. cbn [bind].
  destruct (Z.ltb_spec a 0); [lia|].
  destruct (Z.gtb_spec a (size row)); [lia|]. cbn [orb].
  destruct (Z.gtb_spec a (len (chars row))); [lia|].
  destruct (Z.ltb_spec a 0); [lia|]. cbn [orb].
  destruct (row_edit_ok E p row
              (firstn (Z.to_nat a) (chars row) ++ char_of_int c
                 :: skipn (Z.to_nat a) (chars row)) (size row + 1) Hok Hrow)
    as (E' & HE' & Hok' & Hc & Hs); [|exact Hd|].
  - unfold len in *. rewrite length_app. simpl.
    rewrite length_firstn, length_skipn. lia.
  - change (idx (set_chars row ?cs ?sz)) with (idx row). rewrite HE'.
    cbn [bind]. eexists. split; [reflexivity|].
    split; [exact Hok'|]. split; [exact Hc|].
    rewrite Hs. reflexivity.
Qed.

Lemma rowDelChar_ok (E : Editor) (p : nat) (row : Row) (a : Z) :
  buffer_ok E -> nth_error (_rows E) p = Some row -> 0 <= a < size row ->
  len (_rows E) - Z.of_nat p <= Z.of_nat depth + 1 ->
  exists E',
    _rowDelChar past_end depth E p a = Some E'
    /\ buffer_ok E'
    /\ map chars (_rows E')
       = set_at (map chars (_rows E)) p (vec_erase (chars row) (Z.to_nat a))
    /\ E' = with_dirty (with_rows E (_rows E')) (_dirty E + 1).
Proof.
  intros Hok Hrow Ha Hd.
  destruct (buffer_ok_nth E p row Hok Hrow) as (_ & [[Hsize _] _] & _).
  unfold _rowDelChar. rewrite Hrow. cbn [bind].
  destruct (Z.ltb_spec a 0); [lia|].
  destruct (Z.geb_spec a (size row)); [lia|]. cbn [orb].
  destruct (row_edit_ok E p row (vec_erase (chars row) (Z.to_nat a))
              (size row - 1) Hok Hrow)
    as (E' & HE' & Hok' & Hc & Hs); [|exact Hd|].
  - unfold len in *. rewrite vec_erase_length by lia. lia.
  - change (idx (set_chars row ?cs ?sz)) with (idx row). rewrite HE'.
    cbn [bind]. eexists. split; [reflexivity|].
    split; [exact Hok'|]. split; [exact Hc|].
    rewrite Hs. reflexivity.
Qed.

Lemma rowAppendString_ok (E : Editor) (p : nat) (row : Row) (s : bytes) :
  buffer_ok E -> nth_error (_rows E) p = Some row ->
  len (_rows E) - Z.of_nat p <= Z.of_nat depth + 1 ->
  exists E',
    _rowAppendString past_end depth E p s = Some E'
    /\ buffer_ok E'
    /\ map chars (_rows E') = set_at (map chars (_rows E)) p (chars row ++ s)
    /\ E' = with_dirty (with_rows E (_rows E')) (_dirty E + 1).
Proof.
  intros Hok Hrow Hd.
  destruct (buffer_ok_nth E p row Hok Hrow) as (_ & [[Hsize _] _] & _).
  unfold _rowAppendString. rewrite Hrow. cbn [bind].
  destruct (row_edit_ok E p row (chars row ++ s) (size row + len s) Hok Hrow)
    as (E' & HE' & Hok' & Hc & Hs); [|exact Hd|].
  - unfold len in *. rewrite length_app. lia.
  - change (idx (set_chars row ?cs ?sz)) with (idx row). rewrite HE'.
    cbn [bind]. eexists. split; [reflexivity|].
    split; [exact Hok'|]. split; [exact Hc|].
    rewrite Hs. reflexivity.
Qed.

End EditFacts.

Lemma nth_error_set_at_map {A} (v : list A) (p : nat) (x : A) :
  (p < List.length v)%nat -> nth_error (set_at v p x) p = Some x.
Proof.
  intros Hp. destruct (nth_error v p) as [y|] eqn:Hy.
  - exact (set_at_same v p x y Hy).
  - apply nth_error_None in Hy. lia.
Qed.

Lemma chars_length (E E' : Editor) (l : list bytes) :
  map chars (_rows E') = l -> List.length (_rows E') = List.length l.
Proof. intros <-. now rewrite length_map. Qed.

Lemma size_from_chars (E : Editor) (p : nat) (r : Row) (cs : bytes) :
  rows_sized E -> nth_error (_rows E) p = Some r ->
  nth_error (map chars (_rows E)) p = Some cs -> size r = len cs.
Proof.
  intros Hs Hr Hc. rewrite nth_error_map, Hr in Hc. injection Hc as <-.
  now destruct (rows_sized_nth E p r Hs Hr) as [[H _] _].
Qed.

Lemma vec_erase_inserted {A} (cs : list A) (x : A) : forall n : nat,
  (n <= List.length cs)%nat ->
  vec_erase (firstn n cs ++ x :: skipn n cs) n = cs.
Proof.
  induction cs as [|c cs IH]; intros [|n] Hn; simpl in Hn; try lia;
    try reflexivity.
  specialize (IH n ltac:(lia)). unfold vec_erase in *. simpl.
  f_equal. exact IH.
Qed.

Lemma fresh_renumber (ts : Z) (rs : list Row) (f : Row -> Z) :
  Forall (row_fresh ts) rs ->
  Forall (row_fresh ts) (map (fun r => set_idx r (f r)) rs).
Proof.
  intros H. apply Forall_map. eapply Forall_impl; [|exact H].
  intros r Hr. exact Hr.
Qed.

Lemma delRow_ok (E : Editor) (a : Z) :
  buffer_ok E -> 0 <= a < len (_rows E) ->
  exists E',
    _delRow E a = Some E'
    /\ buffer_ok E'
    /\ map chars (_rows E') = vec_erase (map chars (_rows E)) (Z.to_nat a)
    /\ (_cx E', _cy E') = (_cx E, _cy E).
Proof.
  intros (Hts & Hidx & Hsz & Hfr) Ha.
  destruct (delRow_keeps_idx_contiguous E a Hidx) as (E' & HE' & Hidx').
  exists E'. split; [exact HE'|].
  pose proof (delRow_sized E E' a Hsz HE') as Hsz'.
  unfold _delRow in HE'.
  destruct (Z.ltb_spec a 0); [lia|].
  destruct (Z.geb_spec a (len (_rows E))); [lia|]. simpl in HE'.
  injection HE' as <-. split; [|split].
  - split; [exact Hts|]. split; [exact Hidx'|]. split; [exact Hsz'|].
    unfold rows_fresh in *. simpl. apply Forall_app. split.
    + apply Forall_firstn_skipn. now apply vec_erase_Forall.
    + apply fresh_renumber. apply Forall_firstn_skipn.
      now apply vec_erase_Forall.
  - simpl. now rewrite map_chars_renumber, map_vec_erase.
  - reflexivity.
Qed.

Lemma set_at_app_last {A} (l : list A) (x y : A) :
  set_at (l ++ [x]) (List.length l) y = l ++ [y].
Proof. induction l as [|z l IH]; simpl; [reflexivity | now rewrite IH]. Qed.

Lemma vec_erase_nth_lt {A} (l : list A) (p q : nat) :
  (q < p)%nat -> nth_error (vec_erase l p) q = nth_error l q.
Proof.
  intros Hq. unfold vec_erase.
  destruct (Nat.lt_ge_cases q (List.length l)) as [Hl|Hl].
  - rewrite nth_error_app1 by (rewrite length_firstn; lia).
    rewrite nth_error_firstn. destruct (Nat.ltb_spec q p); [reflexivity|lia].
  - rewrite (proj2 (nth_error_None l q)) by lia.
    apply nth_error_None. rewrite length_app, length_firstn, length_skipn. lia.
Qed.

Section TypingFacts.

Variable past_end : bytes.
Variable depth : nat.

Lemma insertChar_in_row (E : Editor) (c : Z) (row : Row) :
  buffer_ok E -> cursor_valid E -> at_ (_rows E) (_cy E) = Some row ->
  len (_rows E) - _cy E <= Z.of_nat depth + 1 ->
  exists E',
    _insertChar past_end depth E c = Some E'
    /\ buffer_ok E' /\ cursor_valid E'
    /\ map chars (_rows E')
       = set_at (map chars (_rows E)) (Z.to_nat (_cy E))
           (firstn (Z.to_nat (_cx E)) (chars row) ++ char_of_int c
              :: skipn (Z.to_nat (_cx E)) (chars row))
    /\ E' = with_cursor (with_dirty (with_rows E (_rows E')) (_dirty E + 1))
              (_cx E + 1) (_cy E).
Proof.
  intros Hok (Hy & Hx & Hin & _) Hrow Hd.
  pose proof (at_lt _ _ _ Hrow) as Hcy.
  pose proof Hrow as Hrow'. apply at_spec in Hrow' as [_ Hnth].
  specialize (Hin row Hrow).
  destruct (rowInsertChar_ok past_end depth E (Z.to_nat (_cy E)) row (_cx E) c
              Hok Hnth) as (E1 & HE1 & Hok1 & Hc1 & Hs1); [lia | lia |].
  unfold _insertChar.
  destruct (Z.eqb_spec (_cy E) (len (_rows E))); [lia|].
  cbn [bind]. rewrite Hrow. cbn [bind]. rewrite HE1. cbn [bind].
  eexists. split; [reflexivity|].
  assert (Hcur : (_cx E1, _cy E1) = (_cx E, _cy E)) by (rewrite Hs1; reflexivity).
  injection Hcur as Hcx1 Hcy1. rewrite Hcx1, Hcy1.
  split; [exact Hok1|]. split; [|split; [exact Hc1|]].
  - pose proof (chars_length E E1 _ Hc1) as Hlen.
    rewrite set_at_length, length_map in Hlen.
    unfold cursor_valid. cbn [_cx _cy _rows with_cursor]. unfold len in *.
    rewrite Hlen. split; [lia|]. split; [lia|]. split; [|lia].
    intros r Hr. apply at_spec in Hr as [_ Hr].
    destruct Hok1 as (_ & _ & Hsz1 & _).
    assert (Hcs : nth_error (map chars (_rows E1)) (Z.to_nat (_cy E)) = Some _)
      by (rewrite Hc1; apply nth_error_set_at_map; rewrite length_map; lia).
    rewrite (size_from_chars E1 _ r _ Hsz1 Hr Hcs).
    destruct (buffer_ok_nth E _ row Hok Hnth) as (_ & [[Hsize _] _] & _).
    unfold len in *. rewrite length_app. simpl.
    rewrite length_firstn, length_skipn. lia.
  - rewrite Hs1. reflexivity.
Qed.

Lemma delChar_in_row (E : Editor) (row : Row) :
  buffer_ok E -> cursor_valid E -> at_ (_rows E) (_cy E) = Some row ->
  0 < _cx E ->
  len (_rows E) - _cy E <= Z.of_nat depth + 1 ->
  exists E',
    _delChar past_end depth E = Some E'
    /\ buffer_ok E' /\ cursor_valid E'
    /\ map chars (_rows E')
       = set_at (map chars (_rows E)) (Z.to_nat (_cy E))
           (vec_erase (chars row) (Z.to_nat (_cx E - 1)))
    /\ E' = with_cursor (with_dirty (with_rows E (_rows E')) (_dirty E + 1))
              (_cx E - 1) (_cy E).
Proof.
  intros Hok (Hy & Hx & Hin & _) Hrow Hpos Hd.
  pose proof (at_lt _ _ _ Hrow) as Hcy.
  pose proof Hrow as Hrow'. apply at_spec in Hrow' as [_ Hnth].
  specialize (Hin row Hrow).
  destruct (rowDelChar_ok past_end depth E (Z.to_nat (_cy E)) row (_cx E - 1)
              Hok Hnth) as (E1 & HE1 & Hok1 & Hc1 & Hs1); [lia | lia |].
  unfold _delChar.
  destruct (Z.eqb_spec (_cy E) (len (_rows E))); [lia|].
  destruct (Z.eqb_spec (_cx E) 0); [lia|]. cbn [andb].
  rewrite Hrow. cbn [bind].
  destruct (Z.gtb_spec (_cx E) 0); [|lia].
  rewrite HE1. cbn [bind]. eexists. split; [reflexivity|].
  assert (Hcur : (_cx E1, _cy E1) = (_cx E, _cy E)) by (rewrite Hs1; reflexivity).
  injection Hcur as Hcx1 Hcy1. rewrite Hcx1, Hcy1.
  split; [exact Hok1|]. split; [|split; [exact Hc1|]].
  - pose proof (chars_length E E1 _ Hc1) as Hlen.
    rewrite set_at_length, length_map in Hlen.
    unfold cursor_valid. cbn [_cx _cy _rows with_cursor]. unfold len in *.
    rewrite Hlen. split; [lia|]. split; [lia|]. split; [|lia].
    intros r Hr. apply at_spec in Hr as [_ Hr].
    destruct Hok1 as (_ & _ & Hsz1 & _).
    assert (Hcs : nth_error (map chars (_rows E1)) (Z.to_nat (_cy E)) = Some _)
      by (rewrite Hc1; apply nth_error_set_at_map; rewrite length_map; lia).
    rewrite (size_from_chars E1 _ r _ Hsz1 Hr Hcs).
    destruct (buffer_ok_nth E _ row Hok Hnth) as (_ & [[Hsize _] _] & _).
    unfold len in *. rewrite vec_erase_length by lia. lia.
  - rewrite Hs1. reflexivity.
Qed.

Lemma insertChar_at_end (E : Editor) (c : Z) :
  buffer_ok E -> cursor_valid E -> _cy E = len (_rows E) ->
  exists E',
    _insertChar past_end depth E c = Some E'
    /\ buffer_ok E' /\ cursor_valid E'
    /\ map chars (_rows E') = map chars (_rows E) ++ [[char_of_int c]]
    /\ E' = with_cursor (with_dirty (with_rows E (_rows E')) (_dirty E + 2))
              1 (_cy E).
Proof.
  intros Hok (Hy & Hx & _ & Hend) Hcy. specialize (Hend Hcy).
  destruct (insertRow_append_ok past_end depth E [] Hok)
    as (E1 & HE1 & Hok1 & Hc1 & Hs1).
  assert (Hlen1 : List.length (_rows E1) = S (List.length (_rows E))).
  { rewrite (chars_length E E1 _ Hc1), length_app, length_map. simpl. lia. }
  assert (Hn1 : exists r1, nth_error (_rows E1) (List.length (_rows E)) = Some r1
                           /\ chars r1 = []).
  { destruct (nth_error (_rows E1) (List.length (_rows E))) as [r1|] eqn:Hr1;
      [|apply nth_error_None in Hr1; lia].
    exists r1. split; [reflexivity|].
    pose proof (f_equal (fun l => nth_error l (List.length (_rows E))) Hc1) as Hn.
    cbv beta in Hn. rewrite nth_error_map, Hr1 in Hn.
    rewrite nth_error_app2 in Hn by (rewrite length_map; lia).
    rewrite length_map, Nat.sub_diag in Hn. simpl in Hn. congruence. }
  destruct Hn1 as (r1 & Hr1 & Hchars1).
  assert (Hcur1 : (_cx E1, _cy E1, _dirty E1) = (_cx E, _cy E, _dirty E + 1))
    by (rewrite Hs1; reflexivity).
  injection Hcur1 as Hcx1 Hcy1 Hd1.
  destruct (buffer_ok_nth E1 _ r1 Hok1 Hr1) as (_ & [[Hsize1 _] _] & _).
  destruct (rowInsertChar_ok past_end depth E1 (List.length (_rows E)) r1 0 c
              Hok1 Hr1) as (E2 & HE2 & Hok2 & Hc2 & Hs2);
    [rewrite Hsize1, Hchars1; unfold len; simpl; lia
    | unfold len; rewrite Hlen1; lia |].
  assert (Hc2' : map chars (_rows E2) = map chars (_rows E) ++ [[char_of_int c]]).
  { rewrite Hc2, Hc1, Hchars1. simpl.
    rewrite <- (length_map chars (_rows E)). apply set_at_app_last. }
  unfold _insertChar. rewrite Hcy, Z.eqb_refl, HE1. cbn [bind].
  rewrite Hcy1, Hcy. unfold len at 1. rewrite at_nat, Hr1. cbn [bind].
  rewrite Hcx1, Hend. unfold len at 1. rewrite Nat2Z.id, HE2. cbn [bind].
  eexists. split; [reflexivity|].
  assert (Hcur2 : (_cx E2, _cy E2) = (0, len (_rows E)))
    by (rewrite Hs2; cbn; rewrite Hcx1, Hcy1, Hend, Hcy; reflexivity).
  injection Hcur2 as Hcx2 Hcy2. rewrite Hcx2, Hcy2.
  split; [exact Hok2|]. split; [|split; [exact Hc2'|]].
  - pose proof (chars_length E E2 _ Hc2') as Hlen2.
    rewrite length_app, length_map in Hlen2. simpl in Hlen2.
    unfold cursor_valid. cbn [_cx _cy _rows with_cursor]. unfold len in *.
    rewrite Hlen2. split; [lia|]. split; [lia|]. split; [|lia].
    intros r Hr. rewrite at_nat in Hr.
    destruct Hok2 as (_ & _ & Hsz2 & _).
    assert (Hcs : nth_error (map chars (_rows E2)) (List.length (_rows E))
                  = Some [char_of_int c]).
    { rewrite Hc2', nth_error_app2 by (rewrite length_map; lia).
      now rewrite length_map, Nat.sub_diag. }
    rewrite (size_from_chars E2 _ r _ Hsz2 Hr Hcs). unfold len. simpl. lia.
  - rewrite Hs2, Hs1. cbn.
    replace (_dirty E + 1 + 1) with (_dirty E + 2) by lia. reflexivity.
Qed.

Lemma delChar_merge (E : Editor) (prev row : Row) :
  buffer_ok E -> cursor_valid E -> _cx E = 0 ->
  at_ (_rows E) (_cy E - 1) = Some prev -> at_ (_rows E) (_cy E) = Some row ->
  len (_rows E) - _cy E <= Z.of_nat depth ->
  exists E',
    _delChar past_end depth E = Some E'
    /\ buffer_ok E' /\ cursor_valid E'
    /\ map chars (_rows E')
       = vec_erase (set_at (map chars (_rows E)) (Z.to_nat (_cy E - 1))
                      (chars prev ++ chars row)) (Z.to_nat (_cy E))
    /\ E' = with_cursor (with_dirty (with_rows E (_rows E')) (_dirty E + 2))
              (size prev) (_cy E - 1).
Proof.
  intros Hok (Hy & Hx & _ & _) Hcx Hprev Hrow Hd.
  pose proof (at_lt _ _ _ Hprev) as Hp. pose proof (at_lt _ _ _ Hrow) as Hc.
  pose proof Hprev as Hprev'. apply at_spec in Hprev' as [_ Hnprev].
  set (E0 := with_cursor E (size prev) (_cy E)).
  destruct (rowAppendString_ok past_end depth E0 (Z.to_nat (_cy E - 1)) prev
              (chars row) Hok Hnprev) as (E1 & HE1 & Hok1 & Hc1 & Hs1);
    [unfold E0; simpl; lia|].
  assert (Hcur1 : (_cx E1, _cy E1, _dirty E1) = (size prev, _cy E, _dirty E + 1))
    by (rewrite Hs1; reflexivity).
  injection Hcur1 as Hcx1 Hcy1 Hd1.
  pose proof (chars_length E0 E1 _ Hc1) as Hlen1.
  rewrite set_at_length, length_map in Hlen1. unfold E0 in Hlen1. simpl in Hlen1.
  destruct (delRow_ok E1 (_cy E) Hok1) as (E2 & HE2 & Hok2 & Hc2 & Hcur2);
    [unfold len in *; rewrite Hlen1; lia|].
  injection Hcur2 as Hcx2 Hcy2.
  assert (Hs2 : E2 = with_dirty (with_rows E1 (_rows E2)) (_dirty E1 + 1)).
  { unfold _delRow in HE2.
    destruct (Z.ltb_spec (_cy E) 0); [lia|].
    destruct (Z.geb_spec (_cy E) (len (_rows E1)));
      [unfold len in *; rewrite Hlen1 in *; lia|].
    simpl in HE2. injection HE2 as <-. reflexivity. }
  unfold _delChar.
  destruct (Z.eqb_spec (_cy E) (len (_rows E))); [lia|].
  rewrite Hcx. cbn [Z.eqb andb].
  destruct (Z.eqb_spec (_cy E) 0); [lia|].
  rewrite Hrow. cbn [bind]. cbn [Z.gtb Z.compare]. rewrite Hprev. cbn [bind].
  fold E0. rewrite HE1. cbn [bind]. rewrite Hcy1, HE2. cbn [bind].
  eexists. split; [reflexivity|].
  rewrite Hcx2, Hcy2, Hcx1, Hcy1.
  assert (Hc2' : map chars (_rows E2)
                 = vec_erase (set_at (map chars (_rows E)) (Z.to_nat (_cy E - 1))
                                (chars prev ++ chars row)) (Z.to_nat (_cy E))).
  { rewrite Hc2, Hc1. reflexivity. }
  split; [exact Hok2|]. split; [|split; [exact Hc2'|]].
  - pose proof (chars_length E E2 _ Hc2') as Hlen2.
    rewrite vec_erase_length in Hlen2
      by (rewrite set_at_length, length_map; unfold len in *; lia).
    rewrite set_at_length, length_map in Hlen2.
    destruct (buffer_ok_nth E _ prev Hok Hnprev) as (_ & [[Hsize _] _] & _).
    unfold cursor_valid. cbn [_cx _cy _rows with_cursor]. unfold len in *.
    rewrite Hlen2. split; [lia|]. split; [lia|]. split; [|lia].
    intros r Hr. apply at_spec in Hr as [_ Hr].
    destruct Hok2 as (_ & _ & Hsz2 & _).
    assert (Hcs : nth_error (map chars (_rows E2)) (Z.to_nat (_cy E - 1))
                  = Some (chars prev ++ chars row)).
    { rewrite Hc2', vec_erase_nth_lt by lia.
      apply nth_error_set_at_map. rewrite length_map. lia. }
    rewrite (size_from_chars E2 _ r _ Hsz2 Hr Hcs).
    unfold len. rewrite length_app. lia.
  - rewrite Hs2, Hs1. unfold E0. cbn.
    replace (_dirty E + 1 + 1) with (_dirty E + 2) by lia. reflexivity.
Qed.

Lemma delChar_nothing (E : Editor) :
  _cy E = len (_rows E) \/ (_cx E = 0 /\ _cy E = 0) ->
  _delChar past_end depth E = Some E.
Proof.
  intros H. unfold _delChar.
  destruct (Z.eqb_spec (_cy E) (len (_rows E))); [reflexivity|].
  destruct H as [H|[-> ->]]; [contradiction | reflexivity].
Qed.

End TypingFacts.

(** X21: in a buffer numbered by position and freshly rendered, with
    the cursor on a row and the recursion allowed to reach the last
    row, [_insertChar] returns: the byte goes into the row at the cursor
    column (at the end of the buffer, into a new last row), the cursor
    moves one column right, and the buffer is again numbered, sized and
    freshly rendered. *)
Theorem insertChar_types_a_byte (past_end : bytes) (depth : nat)
  (E : Editor) (c : Z) :
  buffer_ok E -> cursor_valid E ->
  len (_rows E) - _cy E <= Z.of_nat depth + 1 ->
  exists E',
    _insertChar past_end depth E c = Some E'
    /\ buffer_ok E' /\ cursor_valid E'
    /\ _cx E' = _cx E + 1 /\ _cy E' = _cy E
    /\ (forall row, at_ (_rows E) (_cy E) = Some row ->
        map chars (_rows E')
        = set_at (map chars (_rows E)) (Z.to_nat (_cy E))
            (firstn (Z.to_nat (_cx E)) (chars row) ++ char_of_int c
               :: skipn (Z.to_nat (_cx E)) (chars row))
        /\ _dirty E' = _dirty E + 1)
    /\ (_cy E = len (_rows E) ->
        map chars (_rows E') = map chars (_rows E) ++ [[char_of_int c]]
        /\ _dirty E' = _dirty E + 2).
Proof.
  intros Hok Hv Hd. pose proof Hv as (Hy & Hx & _ & Hend).
  destruct (Z.eq_dec (_cy E) (len (_rows E))) as [Hcy|Hcy].
  - destruct (insertChar_at_end past_end depth E c Hok Hv Hcy)
      as (E' & HE' & Hok' & Hv' & Hc' & Hs').
    exists E'. split; [exact HE'|]. split; [exact Hok'|]. split; [exact Hv'|].
    rewrite Hs'. cbn. split; [rewrite (Hend Hcy); reflexivity|].
    split; [reflexivity|]. split.
    + intros row Hrow. apply at_lt in Hrow. lia.
    + intros _. rewrite Hs' in Hc'. split; [exact Hc' | reflexivity].
  - destruct (at_some (_rows E) (_cy E)) as (row & Hrow); [lia|].
    destruct (insertChar_in_row past_end depth E c row Hok Hv Hrow Hd)
      as (E' & HE' & Hok' & Hv' & Hc' & Hs').
    exists E'. split; [exact HE'|]. split; [exact Hok'|]. split; [exact Hv'|].
    rewrite Hs'. cbn. split; [reflexivity|]. split; [reflexivity|]. split.
    + intros row' Hrow'. rewrite Hrow in Hrow'. injection Hrow' as <-.
      rewrite Hs' in Hc'. split; [exact Hc' | reflexivity].
    + intros Heq. contradiction.
Qed.

Lemma insertChar_types_a_byte_witness :
  exists E',
    _insertChar [] 2 text_buffer_at_1 (key "x") = Some E'
    /\ buffer_ok E'
    /\ map chars (_rows E') = [B "axb"; B "c"; B "d"]
    /\ (_cx E', _cy E') = (2, 0).
Proof.
  assert (H1 : buffer_ok text_buffer_at_1) by by_rows text_buffer_at_1.
  assert (H2 : cursor_valid text_buffer_at_1).
  { apply (cursor_valid_at text_buffer 1 0
             (mkRow 0 2 2 (B "ab") (B "ab") [HL_NORMAL; HL_NORMAL] false));
      [vm_compute; reflexivity | vm_compute; split; congruence]. }
  assert (H3 : len (_rows text_buffer_at_1) - _cy text_buffer_at_1
               <= Z.of_nat 2 + 1) by (vm_compute; congruence).
  destruct (insertChar_types_a_byte [] 2 text_buffer_at_1 (key "x") H1 H2 H3)
    as (E' & HE' & Hok' & _).
  exists E'. split; [exact HE'|]. split; [exact Hok'|].
  vm_compute in HE'. injection HE' as <-. split; reflexivity.
Defined.

(** X22: in a buffer numbered by position and freshly rendered, with
    the cursor on a row and the recursion allowed to reach the last row
    from the row above the cursor, [_delChar] returns and keeps the
    buffer numbered, sized and freshly rendered.  With the cursor
    inside a row it takes out the byte before the cursor and moves the
    cursor one column left; at the start of a row that has a row above
    it, it appends the row to the one above, removes it, and puts the
    cursor at the joint; at the start of the buffer and behind the last
    row it changes nothing. *)
Theorem delChar_removes_the_byte_before_the_cursor (past_end : bytes)
  (depth : nat) (E : Editor) :
  buffer_ok E -> cursor_valid E ->
  len (_rows E) - _cy E <= Z.of_nat depth ->
  exists E',
    _delChar past_end depth E = Some E'
    /\ buffer_ok E' /\ cursor_valid E'
    /\ (0 < _cx E ->
        forall row, at_ (_rows E) (_cy E) = Some row ->
        map chars (_rows E')
        = set_at (map chars (_rows E)) (Z.to_nat (_cy E))
            (vec_erase (chars row) (Z.to_nat (_cx E - 1)))
        /\ (_cx E', _cy E') = (_cx E - 1, _cy E))
    /\ (_cx E = 0 ->
        forall prev row,
        at_ (_rows E) (_cy E - 1) = Some prev ->
        at_ (_rows E) (_cy E) = Some row ->
        map chars (_rows E')
        = vec_erase (set_at (map chars (_rows E)) (Z.to_nat (_cy E - 1))
                       (chars prev ++ chars row)) (Z.to_nat (_cy E))
        /\ (_cx E', _cy E') = (size prev, _cy E - 1))
    /\ (_cy E = len (_rows E) \/ (_cx E = 0 /\ _cy E = 0) -> E' = E).
Proof.
  intros Hok Hv Hd. pose proof Hv as (Hy & Hx & _ & Hend).
  destruct (Z.eq_dec (_cy E) (len (_rows E))) as [Hcy|Hcy].
  { exists E. rewrite (delChar_nothing past_end depth E (or_introl Hcy)).
    split; [reflexivity|]. split; [exact Hok|]. split; [exact Hv|].
    specialize (Hend Hcy). split; [lia|]. split; [|reflexivity].
    intros _ prev row _ Hrow. apply at_lt in Hrow. lia. }
  destruct (at_some (_rows E) (_cy E)) as (row & Hrow); [lia|].
  destruct (Z.eq_dec (_cx E) 0) as [Hcx|Hcx].
  - destruct (Z.eq_dec (_cy E) 0) as [Hcy0|Hcy0].
    + exists E.
      rewrite (delChar_nothing past_end depth E (or_intror (conj Hcx Hcy0))).
      split; [reflexivity|]. split; [exact Hok|]. split; [exact Hv|].
      split; [lia|]. split; [|reflexivity].
      intros _ prev row' Hprev _. apply at_lt in Hprev. lia.
    + destruct (at_some (_rows E) (_cy E - 1)) as (prev & Hprev); [lia|].
      destruct (delChar_merge past_end depth E prev row Hok Hv Hcx Hprev Hrow Hd)
        as (E' & HE' & Hok' & Hv' & Hc' & Hs').
      exists E'. split; [exact HE'|]. split; [exact Hok'|]. split; [exact Hv'|].
      split; [lia|]. split; [|lia].
      intros _ prev' row' Hprev' Hrow'.
      rewrite Hprev in Hprev'. injection Hprev' as <-.
      rewrite Hrow in Hrow'. injection Hrow' as <-.
      split; [exact Hc'|]. rewrite Hs'. reflexivity.
  - destruct (delChar_in_row past_end depth E row Hok Hv Hrow) as
      (E' & HE' & Hok' & Hv' & Hc' & Hs'); [lia | lia |].
    exists E'. split; [exact HE'|]. split; [exact Hok'|]. split; [exact Hv'|].
    split; [|split; [lia|lia]].
    intros _ row' Hrow'. rewrite Hrow in Hrow'. injection Hrow' as <-.
    split; [exact Hc'|]. rewrite Hs'. reflexivity.
Qed.

Lemma delChar_removes_the_byte_before_the_cursor_witness :
  exists E',
    _delChar [] 3 (with_cursor text_buffer 0 1) = Some E'
    /\ buffer_ok E'
    /\ map chars (_rows E') = [B "abc"; B "d"]
    /\ (_cx E', _cy E') = (2, 0).
Proof.
  assert (H1 : buffer_ok (with_cursor text_buffer 0 1))
    by by_rows (with_cursor text_buffer 0 1).
  assert (H2 : cursor_valid (with_cursor text_buffer 0 1)).
  { apply (cursor_valid_at text_buffer 0 1
             (mkRow 1 1 1 (B "c") (B "c") [HL_NORMAL] false));
      [vm_compute; reflexivity | vm_compute; split; congruence]. }
  assert (H3 : len (_rows (with_cursor text_buffer 0 1))
               - _cy (with_cursor text_buffer 0 1) <= Z.of_nat 3)
    by (vm_compute; congruence).
  destruct (delChar_removes_the_byte_before_the_cursor [] 3
              (with_cursor text_buffer 0 1) H1 H2 H3) as (E' & HE' & Hok' & _).
  exists E'. split; [exact HE'|]. split; [exact Hok'|].
  vm_compute in HE'. injection HE' as <-. split; reflexivity.
Defined.

(** X23: typing a byte on a row and pressing Backspace gives back the
    bytes of every row and the cursor, and the buffer is numbered,
    sized and freshly rendered as before; the change count has grown
    by two. *)
Theorem type_then_backspace_restores_the_text (past_end : bytes) (depth : nat)
  (E : Editor) (c : Z) :
  buffer_ok E -> cursor_valid E -> _cy E < len (_rows E) ->
  len (_rows E) - _cy E <= Z.of_nat depth + 1 ->
  exists E1 E2,
    _insertChar past_end depth E c = Some E1
    /\ _delChar past_end depth E1 = Some E2
    /\ map chars (_rows E2) = map chars (_rows E)
    /\ (_cx E2, _cy E2) = (_cx E, _cy E)
    /\ buffer_ok E2 /\ _dirty E2 = _dirty E + 2.
Proof.
  intros Hok Hv Hcy Hd. pose proof Hv as (Hy & Hx & Hin & _).
  destruct (at_some (_rows E) (_cy E)) as (row & Hrow); [lia|].
  specialize (Hin row Hrow).
  pose proof Hrow as Hrow'. apply at_spec in Hrow' as [_ Hnth].
  destruct (buffer_ok_nth E _ row Hok Hnth) as (_ & [[Hsize _] _] & _).
  destruct (insertChar_in_row past_end depth E c row Hok Hv Hrow Hd)
    as (E1 & HE1 & Hok1 & Hv1 & Hc1 & Hs1).
  assert (Hcur1 : (_cx E1, _cy E1, _dirty E1) = (_cx E + 1, _cy E, _dirty E + 1))
    by (rewrite Hs1; reflexivity).
  injection Hcur1 as Hcx1 Hcy1 Hd1.
  pose proof (chars_length E E1 _ Hc1) as Hlen1.
  rewrite set_at_length, length_map in Hlen1.
  destruct (at_some (_rows E1) (_cy E1)) as (row1 & Hrow1);
    [unfold len in *; rewrite Hcy1, Hlen1; lia|].
  assert (Hchars1 : chars row1
                    = firstn (Z.to_nat (_cx E)) (chars row) ++ char_of_int c
                      :: skipn (Z.to_nat (_cx E)) (chars row)).
  { pose proof Hrow1 as Hr. apply at_spec in Hr as [_ Hr]. rewrite Hcy1 in Hr.
    pose proof (f_equal (fun l => nth_error l (Z.to_nat (_cy E))) Hc1) as Hn.
    cbv beta in Hn. rewrite nth_error_map, Hr in Hn.
    rewrite nth_error_set_at_map in Hn by (rewrite length_map; unfold len in *; lia).
    simpl in Hn. congruence. }
  destruct (delChar_in_row past_end depth E1 row1 Hok1 Hv1 Hrow1)
    as (E2 & HE2 & Hok2 & _ & Hc2 & Hs2);
    [lia | unfold len in *; rewrite Hcy1, Hlen1; lia |].
  exists E1, E2. split; [exact HE1|]. split; [exact HE2|]. split.
  - rewrite Hc2, Hc1, Hcy1, Hcx1, Hchars1, set_at_twice.
    replace (Z.to_nat (_cx E + 1 - 1)) with (Z.to_nat (_cx E)) by lia.
    rewrite vec_erase_inserted by (unfold len in *; lia).
    apply set_at_id. now rewrite nth_error_map, Hnth.
  - split; [|split; [exact Hok2|]].
    + rewrite Hs2. cbn. rewrite Hcx1, Hcy1. f_equal. lia.
    + rewrite Hs2. cbn. rewrite Hd1. lia.
Qed.

Lemma type_then_backspace_restores_the_text_witness :
  exists E1 E2,
    _insertChar [] 2 text_buffer_at_1 (key "x") = Some E1
    /\ map chars (_rows E1) = [B "axb"; B "c"; B "d"]
    /\ _delChar [] 2 E1 = Some E2
    /\ map chars (_rows E2) = map chars (_rows text_buffer_at_1)
    /\ (_cx E2, _cy E2) = (_cx text_buffer_at_1, _cy text_buffer_at_1).
Proof.
  assert (H1 : buffer_ok text_buffer_at_1) by by_rows text_buffer_at_1.
  assert (H2 : cursor_valid text_buffer_at_1).
  { apply (cursor_valid_at text_buffer 1 0
             (mkRow 0 2 2 (B "ab") (B "ab") [HL_NORMAL; HL_NORMAL] false));
      [vm_compute; reflexivity | vm_compute; split; congruence]. }
  assert (H3 : _cy text_buffer_at_1 < len (_rows text_buffer_at_1))
    by (vm_compute; reflexivity).
  assert (H4 : len (_rows text_buffer_at_1) - _cy text_buffer_at_1
               <= Z.of_nat 2 + 1) by (vm_compute; congruence).
  destruct (type_then_backspace_restores_the_text [] 2 text_buffer_at_1
              (key "x") H1 H2 H3 H4)
    as (E1 & E2 & HE1 & HE2 & Hc & Hcur & _).
  exists E1, E2. split; [exact HE1|]. split.
  - vm_compute in HE1. injection HE1 as <-. reflexivity.
  - split; [exact HE2|]. split; [exact Hc | exact Hcur].
Defined.

(** ** Enter at the end of the buffer *)



Section NewLineFacts.

Variable past_end : bytes.
Variable depth : nat.



End NewLineFacts.



(** ** The keys *)

Lemma snap_rows (E E' : Editor) :
  snap E = Some E' -> E' = with_cursor E (_cx E') (_cy E').
Proof.
  unfold snap. intros H.
  destruct (_cy E <? len (_rows E)).
  - destruct (at_ (_rows E) (_cy E)) as [r|]; [|discriminate]. simpl in H.
    destruct (_cx E >? size r); injection H as <-; now destruct E.
  - simpl in H. destruct (_cx E >? 0); injection H as <-; now destruct E.
Qed.

Lemma moveCursor_rows (E E' : Editor) (k : Z) :
  _moveCursor E k = Some E' -> E' = with_cursor E (_cx E') (_cy E').
Proof.
  rewrite moveCursor_by_target. intros H.
  destruct (arrow_target E k) as [[x y]|]; [|discriminate]. simpl in H.
  apply snap_rows in H. exact H.
Qed.

Lemma move_times_rows (n : nat) : forall (E E' : Editor) (k : Z),
  move_times n E k = Some E' -> E' = with_cursor E (_cx E') (_cy E').
Proof.
  induction n as [|n IH]; intros E E' k H; simpl in H.
  - injection H as <-. now destruct E.
  - destruct (_moveCursor E k) as [E1|] eqn:H1; [|discriminate]. simpl in H.
    apply moveCursor_rows in H1. apply IH in H. rewrite H, H1. reflexivity.
Qed.

(** X25: the keys that only move the cursor (Home, End, the page keys,
    the arrows) and the keys without an action (Ctrl-L, ESC) never touch
    the buffer: when [_processKeypress] returns for one of them, the
    program goes on with the same editor but for [_cx] and [_cy], the
    search state is as it was, nothing is written to the file and only
    that key is consumed. *)
Theorem navigation_keys_leave_the_buffer (past_end : bytes)
  (depth capacity : nat) (disk : Disk) (S : Session) (c : Z) (rest rest' : list Z) (out : Outcome)
  (written : option bytes) :
  In c [HOME_KEY; END_KEY; PAGE_UP; PAGE_DOWN; ARROW_UP; ARROW_DOWN;
        ARROW_LEFT; ARROW_RIGHT; CTRL_KEY 108; KEY_ESC] ->
  _processKeypress past_end depth capacity disk S (c :: rest) = Some (out, rest', written) ->
  exists x y,
    out = Running (mkSession
                     (with_ed (prog S) (with_cursor (ed (prog S)) x y))
                     EDIT_QUIT_TIMES)
    /\ rest' = rest /\ written = None.
Proof.
  intros Hc H.
  assert (Hgo : forall o : option Editor,
            (E1 <- o ;;
             Some (Running (mkSession (with_ed (prog S) E1) EDIT_QUIT_TIMES),
                   rest, @None bytes)) = Some (out, rest', written) ->
            (forall E1, o = Some E1 ->
                        E1 = with_cursor (ed (prog S)) (_cx E1) (_cy E1)) ->
            exists x y,
              out = Running (mkSession
                               (with_ed (prog S) (with_cursor (ed (prog S)) x y))
                               EDIT_QUIT_TIMES)
              /\ rest' = rest /\ written = None).
  { intros [E1|] Ho Hrows; [|discriminate]. simpl in Ho.
    injection Ho as <- <- <-. exists (_cx E1), (_cy E1).
    rewrite <- (Hrows E1 eq_refl). repeat split. }
  unfold _processKeypress in H.
  simpl in Hc.
  repeat destruct Hc as [<-|Hc]; try contradiction;
    cbn [Z.eqb Pos.eqb orb andb negb HOME_KEY END_KEY PAGE_UP PAGE_DOWN ARROW_UP
         ARROW_DOWN ARROW_LEFT ARROW_RIGHT KEY_ESC KEY_RETURN CTRL_KEY Z.land
         Pos.land BACKSPACE DEL_KEY] in H;
    apply Hgo in H; try exact H; clear H Hgo.
  - intros E1 [= <-]. reflexivity.
  - intros E1 H1. destruct (_cy (ed (prog S)) <? len (_rows (ed (prog S)))).
    + destruct (at_ _ _) as [r|]; [|discriminate]. simpl in H1.
      injection H1 as <-. reflexivity.
    + injection H1 as <-. now destruct (ed (prog S)).
  - intros E1 H1. apply move_times_rows in H1. rewrite H1. reflexivity.
  - intros E1 H1. apply move_times_rows in H1. rewrite H1. reflexivity.
  - intros E1 H1. exact (moveCursor_rows _ _ _ H1).
  - intros E1 H1. exact (moveCursor_rows _ _ _ H1).
  - intros E1 H1. exact (moveCursor_rows _ _ _ H1).
  - intros E1 H1. exact (moveCursor_rows _ _ _ H1).
  - intros E1 [= <-]. now destruct (ed (prog S)).
  - intros E1 [= <-]. now destruct (ed (prog S)).
Qed.

Lemma navigation_keys_leave_the_buffer_witness :
  exists x y,
    _processKeypress [] 0 4 (Opened None)
      (mkSession (with_ed Program_new text_buffer_at_1) EDIT_QUIT_TIMES)
      [END_KEY; key "z"]
    = Some (Running
              (mkSession
                 (with_ed (with_ed Program_new text_buffer_at_1)
                    (with_cursor text_buffer_at_1 x y))
                 EDIT_QUIT_TIMES),
            [key "z"], None)
    /\ (x, y) = (2, 0).
Proof.
  assert (H : _processKeypress [] 0 4 (Opened None)
                (mkSession (with_ed Program_new text_buffer_at_1) EDIT_QUIT_TIMES)
                [END_KEY; key "z"]
              = Some (Running
                        (mkSession
                           (with_ed (with_ed Program_new text_buffer_at_1)
                              (with_cursor text_buffer_at_1 2 0))
                           EDIT_QUIT_TIMES),
                      [key "z"], None))
    by (vm_compute; reflexivity).
  destruct (navigation_keys_leave_the_buffer [] 0 4 (Opened None) _ END_KEY [key "z"] _ _ _
              ltac:(simpl; tauto) H) as (x & y & Hout & _).
  exists 2, 0. split; [exact H | reflexivity].
Defined.

(** X26: leaving the editor.  Ctrl-Q exits at once when nothing has
    changed; with unsaved changes three presses in a row are only
    counted, with the program state untouched, and the fourth exits.
    No other key ever exits, and every other key that returns sets the
    count back to three. *)
Theorem quit_needs_four_presses_when_dirty (past_end : bytes)
  (depth capacity : nat) (disk : Disk) (S : Session) (rest : list Z) :
  (_dirty (ed (prog S)) = 0 ->
   _processKeypress past_end depth capacity disk S (CTRL_KEY 113 :: rest)
   = Some (Exited, rest, None))
  /\ (_dirty (ed (prog S)) <> 0 -> quitTimes S = EDIT_QUIT_TIMES ->
      forall k1 k2 k3 : list Z,
      _processKeypress past_end depth capacity disk S (CTRL_KEY 113 :: k1)
      = Some (Running (mkSession (prog S) 2), k1, None)
      /\ _processKeypress past_end depth capacity disk (mkSession (prog S) 2)
           (CTRL_KEY 113 :: k2)
         = Some (Running (mkSession (prog S) 1), k2, None)
      /\ _processKeypress past_end depth capacity disk (mkSession (prog S) 1)
           (CTRL_KEY 113 :: k3)
         = Some (Running (mkSession (prog S) 0), k3, None)
      /\ _processKeypress past_end depth capacity disk (mkSession (prog S) 0)
           (CTRL_KEY 113 :: rest)
         = Some (Exited, rest, None))
  /\ (forall c out rest' written,
      c <> CTRL_KEY 113 ->
      _processKeypress past_end depth capacity disk S (c :: rest) = Some (out, rest', written) ->
      exists S', out = Running S' /\ quitTimes S' = EDIT_QUIT_TIMES).
Proof.
  split; [|split].
  - intros Hd. unfold _processKeypress.
    change (CTRL_KEY 113 =? KEY_RETURN) with false.
    change (CTRL_KEY 113 =? CTRL_KEY 113) with true. cbv iota.
    rewrite Hd. reflexivity.
  - intros Hd Hq k1 k2 k3. apply Z.eqb_neq in Hd.
    unfold _processKeypress.
    change (CTRL_KEY 113 =? KEY_RETURN) with false.
    change (CTRL_KEY 113 =? CTRL_KEY 113) with true. cbv iota.
    cbn [prog quitTimes]. rewrite Hd, Hq. repeat split.
  - intros c out rest' written Hc H. unfold _processKeypress in H.
    apply Z.eqb_neq in Hc. rewrite Hc in H.
    repeat match type of H with
           | (if ?b then _ else _) = _ => destruct b
           | bind ?o _ = _ => destruct o as [?r|]; [|discriminate]; cbn [bind] in H
           | (let '(_, _) := ?r in _) = _ => destruct r
           end;
      injection H as <- _ _; eexists; split; reflexivity.
Qed.

Lemma quit_needs_four_presses_when_dirty_witness :
  _dirty (ed (prog (mkSession (with_ed Program_new (with_dirty text_buffer 1))
                      EDIT_QUIT_TIMES))) <> 0
  /\ _processKeypress [] 0 4 (Opened None)
       (mkSession (with_ed Program_new (with_dirty text_buffer 1)) EDIT_QUIT_TIMES)
       [CTRL_KEY 113]
     = Some (Running
               (mkSession (with_ed Program_new (with_dirty text_buffer 1)) 2),
             [], None)
  /\ _processKeypress [] 0 4 (Opened None)
       (mkSession (with_ed Program_new (with_dirty text_buffer 1)) 0)
       [CTRL_KEY 113]
     = Some (Exited, [], None).
Proof.
  assert (Hd : _dirty (ed (prog (mkSession
                 (with_ed Program_new (with_dirty text_buffer 1))
                 EDIT_QUIT_TIMES))) <> 0) by discriminate.
  split; [exact Hd|].
  destruct (proj1 (proj2 (quit_needs_four_presses_when_dirty [] 0 4 (Opened None)
              (mkSession (with_ed Program_new (with_dirty text_buffer 1))
                 EDIT_QUIT_TIMES) []))
              Hd eq_refl [] [] []) as (H1 & _ & _ & H4).
  split; [exact H1 | exact H4].
Defined.

(** ** Reading a key *)

Lemma wait_byte_timeouts (n : nat) (c : ascii) (rest : list (option ascii)) :
  wait_byte (repeat None n ++ Some c :: rest) = Some (c, rest).
Proof. induction n as [|n IH]; simpl; [reflexivity | exact IH]. Qed.

Lemma int_of_char_range (char_signed : bool) (c : ascii) :
  -128 <= int_of_char char_signed c < 256.
Proof.
  unfold int_of_char. pose proof (nat_ascii_bounded c) as Hb.
  destruct char_signed; simpl.
  - destruct (Z.leb_spec 128 (Z.of_nat (nat_of_ascii c))); lia.
  - lia.
Qed.

Lemma or_esc_range (f : ascii -> option Z) (c : ascii) :
  (forall k, f c = Some k -> 1000 <= k <= 1008) ->
  or_esc (f c) = KEY_ESC \/ 1000 <= or_esc (f c) <= 1008.
Proof.
  intros H. destruct (f c) as [k|]; simpl; [right; now apply H | now left].
Qed.

Lemma tilde_key_range (c : ascii) (k : Z) :
  tilde_key c = Some k -> 1000 <= k <= 1008.
Proof.
  unfold tilde_key.
  repeat match goal with
         | |- context [if ?b then _ else _] => destruct b
         end; intros [= <-]; vm_compute; split; discriminate.
Qed.

Lemma letter_key_range (c : ascii) (k : Z) :
  letter_key c = Some k -> 1000 <= k <= 1008.
Proof.
  unfold letter_key.
  repeat match goal with
         | |- context [if ?b then _ else _] => destruct b
         end; intros [= <-]; vm_compute; split; discriminate.
Qed.

Lemma o_key_range (c : ascii) (k : Z) :
  o_key c = Some k -> 1000 <= k <= 1008.
Proof.
  unfold o_key.
  repeat match goal with
         | |- context [if ?b then _ else _] => destruct b
         end; intros [= <-]; vm_compute; split; discriminate.
Qed.

(** X27: [_readKey] decodes what the terminal sends.  After any number
    of reads that time out, the escape sequence of an arrow key, of
    Home, End, Delete and the page keys gives that key's code and
    consumes exactly the sequence; a byte other than ESC is returned as
    it is; an ESC that nothing follows in time is the ESC key.  Whatever
    the input, the result is a [char] value or one of the codes 1000 to
    1008. *)
Theorem readKey_decodes_the_keys (char_signed : bool) (timeouts : nat)
  (rest : list (option ascii)) :
  (forall k seq, key_sequence k = Some seq ->
     _readKey char_signed (repeat None timeouts ++ map Some seq ++ rest)
     = Some (k, rest))
  /\ (forall c, c <> ESC_CHAR ->
        _readKey char_signed (repeat None timeouts ++ Some c :: rest)
        = Some (int_of_char char_signed c, rest))
  /\ _readKey char_signed (repeat None timeouts ++ Some ESC_CHAR :: None :: rest)
     = Some (KEY_ESC, rest)
  /\ (forall inp k inp',
        _readKey char_signed inp = Some (k, inp') ->
        -128 <= k < 256 \/ 1000 <= k <= 1008).
Proof.
  split; [|split; [|split]].
  - intros k seq Hseq. unfold key_sequence in Hseq.
    repeat match type of Hseq with
           | (if ?a =? ?b then _ else _) = _ =>
               destruct (Z.eqb_spec a b) as [->|_]
           end; try discriminate; injection Hseq as <-;
      unfold _readKey; cbn [esc B list_ascii_of_string map app];
      rewrite wait_byte_timeouts; reflexivity.
  - intros c Hc. unfold _readKey. rewrite wait_byte_timeouts. cbn [bind].
    destruct (Ascii.eqb_spec c ESC_CHAR); [contradiction | reflexivity].
  - unfold _readKey. rewrite wait_byte_timeouts. reflexivity.
  - intros inp k inp' H. unfold _readKey in H.
    destruct (wait_byte inp) as [[c inp1]|]; [|discriminate]. cbn [bind] in H.
    destruct (negb (Ascii.eqb c ESC_CHAR)).
    { injection H as <- _. left. apply int_of_char_range. }
    assert (Hesc : -128 <= KEY_ESC < 256) by (vm_compute; split; congruence).
    destruct (read_byte inp1) as [[s0|] inp2];
      [|injection H as <- _; now left].
    destruct (read_byte inp2) as [[s1|] inp3];
      [|injection H as <- _; now left].
    destruct (byte_is s0 "[").
    + destruct (isdigit s1).
      * destruct (read_byte inp3) as [[s2|] inp4];
          [|injection H as <- _; now left].
        destruct (byte_is s2 "~"); injection H as <- _; [|left; exact Hesc].
        destruct (or_esc_range tilde_key s1 (tilde_key_range s1)) as [-> | Hr];
          [now left | now right].
      * injection H as <- _.
        destruct (or_esc_range letter_key s1 (letter_key_range s1)) as [-> | Hr];
          [now left | now right].
    + destruct (byte_is s0 "O"); injection H as <- _; [|now left].
      destruct (or_esc_range o_key s1 (o_key_range s1)) as [-> | Hr];
        [now left | now right].
Qed.

Lemma readKey_decodes_the_keys_witness :
  key_sequence PAGE_DOWN = Some (esc "[6~")
  /\ _readKey true
       (repeat None 2 ++ map Some (esc "[6~") ++ [Some "x"%char])
     = Some (PAGE_DOWN, [Some "x"%char]).
Proof.
  split; [reflexivity|].
  exact (proj1 (readKey_decodes_the_keys true 2 [Some "x"%char])
           PAGE_DOWN (esc "[6~") eq_refl).
Defined.

(** ** The frame *)

Lemma status_pad_fits (n : nat) : forall (l sc rlen : Z) (rs buf : bytes),
  n = Z.to_nat (sc - l) -> 1 <= rlen <= sc - l ->
  status_pad n l sc rlen rs buf
  = buf ++ repeat SPACE (Z.to_nat (sc - l - rlen)) ++ rs.
Proof.
  induction n as [|n IH]; intros l sc rlen rs buf Hn Hr; [lia|].
  cbn [status_pad]. destruct (Z.ltb_spec l sc); [|lia].
  destruct (Z.eqb_spec (sc - l) rlen) as [Heq|Hne].
  - replace (sc - l - rlen) with 0 by lia. reflexivity.
  - rewrite IH by lia. rewrite <- app_assoc. f_equal.
    replace (Z.to_nat (sc - l - rlen)) with (S (Z.to_nat (sc - (l + 1) - rlen)))
      by lia.
    reflexivity.
Qed.

Lemma status_pad_short (n : nat) : forall (l sc rlen : Z) (rs buf : bytes),
  n = Z.to_nat (sc - l) -> sc - l < rlen ->
  status_pad n l sc rlen rs buf = buf ++ repeat SPACE (Z.to_nat (sc - l)).
Proof.
  induction n as [|n IH]; intros l sc rlen rs buf Hn Hr.
  - simpl. rewrite <- Hn. simpl. now rewrite app_nil_r.
  - cbn [status_pad]. destruct (Z.ltb_spec l sc); [|lia].
    destruct (Z.eqb_spec (sc - l) rlen); [lia|].
    rewrite IH by lia. rewrite <- app_assoc. f_equal.
    replace (Z.to_nat (sc - l)) with (S (Z.to_nat (sc - (l + 1)))) by lia.
    reflexivity.
Qed.

Lemma rstatus_text_length (E : Editor) : 3 <= len (rstatus_text E).
Proof.
  unfold rstatus_text, len. rewrite !length_app. simpl. lia.
Qed.

(** X28: the status bar fills the screen line.  When the left text
    (name, line count, modified mark) and the right text (file type and
    position) fit into [_screenCols] columns, the bar is the left text,
    spaces, and the right text flush with the right edge, in inverse
    video: [_screenCols] columns in all.  When only the left text fits,
    the bar is the left text padded to [_screenCols], without the right
    text.  A left text wider than the screen is appended in full. *)
Theorem drawStatusBar_fills_the_line (E : Editor) (buf : bytes) :
  len (status_text E) <= 79 -> len (rstatus_text E) <= 79 ->
  (len (status_text E) + len (rstatus_text E) <= _screenCols E ->
   _drawStatusBar E buf
   = buf ++ esc "[7m" ++ status_text E
     ++ repeat SPACE (Z.to_nat (_screenCols E - len (status_text E)
                                - len (rstatus_text E)))
     ++ rstatus_text E ++ esc "[m" ++ [CR; LF])
  /\ (len (status_text E) <= _screenCols E
      < len (status_text E) + len (rstatus_text E) ->
      _drawStatusBar E buf
      = buf ++ esc "[7m" ++ status_text E
        ++ repeat SPACE (Z.to_nat (_screenCols E - len (status_text E)))
        ++ esc "[m" ++ [CR; LF])
  /\ (_screenCols E < len (status_text E) ->
      _drawStatusBar E buf
      = buf ++ esc "[7m" ++ status_text E ++ esc "[m" ++ [CR; LF]).
Proof.
  intros Hl Hr. pose proof (rstatus_text_length E) as Hr3.
  assert (Hs : firstn 79 (status_text E) = status_text E)
    by (apply firstn_all2; unfold len in Hl; lia).
  assert (Hrs : firstn 79 (rstatus_text E) = rstatus_text E)
    by (apply firstn_all2; unfold len in Hr; lia).
  unfold _drawStatusBar. rewrite Hs, Hrs.
  split; [|split]; intros H.
  - destruct (Z.gtb_spec (len (status_text E)) (_screenCols E)); [lia|].
    rewrite status_pad_fits by lia.
    rewrite <- !app_assoc. reflexivity.
  - destruct (Z.gtb_spec (len (status_text E)) (_screenCols E)); [lia|].
    rewrite status_pad_short by lia.
    rewrite <- !app_assoc. reflexivity.
  - destruct (Z.gtb_spec (len (status_text E)) (_screenCols E)); [|lia].
    rewrite Z.sub_diag. simpl. rewrite <- !app_assoc. reflexivity.
Qed.

Lemma drawStatusBar_fills_the_line_witness :
  len (status_text text_buffer) <= 79
  /\ len (rstatus_text text_buffer) <= 79
  /\ len (status_text text_buffer) + len (rstatus_text text_buffer)
     <= _screenCols text_buffer
  /\ _drawStatusBar text_buffer []
     = esc "[7m" ++ B "notes.txt - 3 lines " ++ repeat SPACE 49
       ++ B "no ft | 1/3" ++ esc "[m" ++ [CR; LF].
Proof.
  assert (H1 : len (status_text text_buffer) <= 79) by (vm_compute; congruence).
  assert (H2 : len (rstatus_text text_buffer) <= 79) by (vm_compute; congruence).
  assert (H3 : len (status_text text_buffer) + len (rstatus_text text_buffer)
               <= _screenCols text_buffer) by (vm_compute; congruence).
  split; [exact H1|]. split; [exact H2|]. split; [exact H3|].
  rewrite (proj1 (drawStatusBar_fills_the_line text_buffer [] H1 H2) H3).
  vm_compute. reflexivity.
Defined.
















(** ** Rows inside a block comment *)

Lemma memset_one_step (a b : Highlight) (i k : nat) :
  memset (repeat a i ++ repeat b (S k)) i 1 a = repeat a (S i) ++ repeat b k.
Proof.
  induction i as [|i IH].
  - destruct k; reflexivity.
  - change (memset (a :: (repeat a i ++ repeat b (S k))) (S i) 1 a
            = a :: (repeat a (S i) ++ repeat b k)).
    cbn [memset]. f_equal. exact IH.
Qed.

Section CommentRows.

Variable past_end : bytes.
Variable syn : Syntax.
Hypothesis mcs_set : nonzero (multiLineCommentStart syn) = true.
Hypothesis mce_set : nonzero (multilineCommentEnd syn) = true.

Variable rend : bytes.
Hypothesis no_end : forall i, (i < List.length rend)%nat ->
  bytes_eqb (substr rend i (List.length (multilineCommentEnd syn)))
    (multilineCommentEnd syn) = false.

Lemma scan_loop_in_comment (fuel : nat) : forall (i : nat) (ps : bool),
  (i <= List.length rend)%nat -> (List.length rend - i <= fuel)%nat ->
  exists ps',
    scan_loop past_end fuel syn (List.length rend) rend
      (mkScan i ps None true
         (repeat HL_MLCOMMENT i ++ repeat HL_NORMAL (List.length rend - i)))
    = Some (mkScan (List.length rend) ps' None true
              (repeat HL_MLCOMMENT (List.length rend))).
Proof.
  induction fuel as [|fuel IH]; intros i ps Hi Hfuel.
  - assert (i = List.length rend) by lia. subst i.
    exists ps. simpl. rewrite Nat.leb_refl, Nat.sub_diag. simpl.
    now rewrite app_nil_r.
  - destruct (Nat.eq_dec i (List.length rend)) as [->|Hne].
    + exists ps. simpl. rewrite Nat.leb_refl, Nat.sub_diag. simpl.
      now rewrite app_nil_r.
    + assert (Hlt : (i < List.length rend)%nat) by lia.
      cbn [scan_loop s_i].
      destruct (Nat.leb_spec (List.length rend) i); [lia|].
      unfold scan_step. cbn [s_i].
      destruct (nth_error rend i) as [c|] eqn:Hc;
        [|apply nth_error_None in Hc; lia].
      cbn [bind]. unfold scan_early.
      cbn [s_i s_hl s_inString s_inComment s_prevSep negb].
      rewrite !andb_false_r. cbn [andb].
      rewrite mcs_set, mce_set. cbn [andb].
      rewrite (no_end i Hlt).
      replace (List.length rend - i)%nat with (S (List.length rend - S i))
        by lia.
      rewrite memset_one_step.
      replace (i + 1)%nat with (S i) by lia.
      destruct (IH (S i) ps) as (ps' & Hps'); [lia | lia |].
      exists ps'. exact Hps'.
Qed.

End CommentRows.

(** X30: a row inside a block comment.  When the rule has block
    comments, the row above is open, the row itself is marked open, and
    its [render] holds no end-of-comment text, a highlight pass marks
    every byte of the row [HL_MLCOMMENT], leaves the row open and stops
    there: no other row is scanned, whatever the recursion depth. *)
Theorem row_inside_block_comment_is_all_comment (past_end : bytes)
  (fuel : nat) (E : Editor) (syn : Syntax) (p : nat) (row prev : Row) :
  _syntax E = Some syn ->
  nonzero (multiLineCommentStart syn) = true ->
  nonzero (multilineCommentEnd syn) = true ->
  nth_error (_rows E) p = Some row -> 0 < idx row ->
  at_ (_rows E) (idx row - 1) = Some prev ->
  hl_open_comment prev = true -> hl_open_comment row = true ->
  rsize row = len (render row) ->
  (forall i, (i < List.length (render row))%nat ->
     bytes_eqb (substr (render row) i (List.length (multilineCommentEnd syn)))
       (multilineCommentEnd syn) = false) ->
  _updateSyntax past_end fuel E p
  = Some (with_rows E
            (set_at (_rows E) p
               (set_hl row (repeat HL_MLCOMMENT (List.length (render row)))
                  true)))
  /\ cascade_trace past_end fuel E p = [p].
Proof.
  intros Hsyn Hmcs Hmce Hrow Hidx Hprev Hopen Hrowopen Hrsize Hno.
  assert (Hone : update_one past_end E p
                 = Some (with_rows E
                           (set_at (_rows E) p
                              (set_hl row
                                 (repeat HL_MLCOMMENT (List.length (render row)))
                                 true)), None)).
  { unfold update_one. rewrite Hrow. cbn [bind]. rewrite Hsyn.
    destruct (Z.gtb_spec (idx row) 0); [|lia].
    rewrite Hprev. cbn [bind]. rewrite Hopen, Hrsize.
    unfold len. rewrite Nat2Z.id. unfold scan, scan_init.
    destruct (scan_loop_in_comment past_end syn Hmcs Hmce (render row) Hno
                (2 * List.length (render row) + 1) 0 true) as (ps' & Hs);
      [lia | lia |].
    simpl repeat in Hs. rewrite Nat.sub_0_r in Hs. simpl app in Hs.
    rewrite Hs. cbn [bind s_inComment s_hl]. rewrite Hrowopen.
    reflexivity. }
  split.
  - destruct fuel; simpl; rewrite Hone; reflexivity.
  - destruct fuel; simpl; rewrite Hone; reflexivity.
Qed.

Lemma row_inside_block_comment_is_all_comment_witness :
  exists E',
    _updateSyntax [] 0 c_buffer 1 = Some E'
    /\ map hl (_rows E')
       = [[HL_MLCOMMENT; HL_MLCOMMENT]; [HL_MLCOMMENT]; [HL_MLCOMMENT]]
    /\ cascade_trace [] 0 c_buffer 1 = [1%nat].
Proof.
  assert (H1 : _syntax c_buffer = Some C_syntax) by (vm_compute; reflexivity).
  assert (H4 : nth_error (_rows c_buffer) 1
               = Some (mkRow 1 1 1 (B "x") (B "x") [HL_MLCOMMENT] true))
    by (vm_compute; reflexivity).
  assert (H6 : at_ (_rows c_buffer)
                 (idx (mkRow 1 1 1 (B "x") (B "x") [HL_MLCOMMENT] true) - 1)
               = Some (mkRow 0 2 2 (B "/*") (B "/*")
                         [HL_MLCOMMENT; HL_MLCOMMENT] true))
    by (vm_compute; reflexivity).
  assert (H10 : forall i,
            (i < List.length
                   (render (mkRow 1 1 1 (B "x") (B "x") [HL_MLCOMMENT] true)))%nat ->
            bytes_eqb
              (substr (render (mkRow 1 1 1 (B "x") (B "x") [HL_MLCOMMENT] true)) i
                 (List.length (multilineCommentEnd C_syntax)))
              (multilineCommentEnd C_syntax) = false).
  { intros [|i] Hi; [reflexivity | simpl in Hi; lia]. }
  destruct (row_inside_block_comment_is_all_comment [] 0 c_buffer C_syntax 1
              _ _ H1 eq_refl eq_refl H4 eq_refl H6 eq_refl eq_refl eq_refl H10)
    as (Hu & Ht).
  eexists. split; [exact Hu|]. split; [|exact Ht].
  cbn [_rows with_rows]. rewrite map_set_at_gen.
  let r := eval vm_compute in (map hl (_rows c_buffer)) in
  change (map hl (_rows c_buffer)) with r.
  reflexivity.
Defined.
